(** * RobotMap-Studio: the occupancy-grid generator

    A shallow embedding of [src/OccupancyGridGenerator.js] and the
    properties of its rasterizer and file encoders.

    Numbers.  A JavaScript number is an IEEE-754 binary64 value.  The
    generator is embedded twice.

    - Over the real numbers [R], with grid indices in [Z]: the program
      in exact arithmetic.  This embedding carries the properties that
      do not depend on how a number is rounded: which indices a loop
      writes, the order of the objects, the objects that are skipped,
      the bytes of the files.

    - Over Rocq's primitive binary64 floats (module [Double]): the
      program in the arithmetic of the source.  This embedding carries
      the properties that rounding decides: the rasterizer against the
      scan of the whole grid, the rotated rectangle, the polygon with
      two vertices.

    The polygon loop uses only [+ - * /] and comparisons; it is written
    once over an interface of these operations ([Arith]) and used at
    both number types.

    Typed arrays.  A [Uint8Array] is a [list Z] of byte values; a stored
    integer is reduced modulo 256, a read out of range is [None]
    ([undefined]), a write out of range does nothing, and allocating a
    negative length raises [RangeError] ([None]).  Memory limits on the
    length of a typed array are not modelled. *)

From Stdlib Require Import Reals Lra Lia ZArith Bool String Ascii.
From Stdlib Require PrimFloat Floats.
From stdpp Require Import base decidable option list list_numbers.

Set Default Proof Using "Type".

(** ** Arithmetic interface of the polygon loop *)

Class Arith (N : Type) := {
  add : N -> N -> N;
  sub : N -> N -> N;
  mul : N -> N -> N;
  div : N -> N -> N;
  ltb : N -> N -> bool;   (* a < b *)
  gtb : N -> N -> bool    (* a > b *)
}.

#[global] Instance Rlt_decision (a b : R) : Decision (a < b)%R := Rlt_dec a b.
#[global] Instance Rle_decision (a b : R) : Decision (a <= b)%R := Rle_dec a b.
#[global] Instance Rgt_decision (a b : R) : Decision (a > b)%R := Rgt_dec a b.

(** Exact arithmetic. *)
#[global] Instance Arith_R : Arith R := {
  add := Rplus; sub := Rminus; mul := Rmult; div := Rdiv;
  ltb a b := bool_decide (a < b)%R;
  gtb a b := bool_decide (a > b)%R
}.

(** binary64, the number type of the source. *)
#[global] Instance Arith_float : Arith PrimFloat.float := {
  add := PrimFloat.add; sub := PrimFloat.sub;
  mul := PrimFloat.mul; div := PrimFloat.div;
  ltb a b := PrimFloat.ltb a b;
  gtb a b := PrimFloat.ltb b a
}.

(** ** Polygon branch of [isPointInShape] (lines 56-67) *)

Section Polygon.
Context {N : Type} `{Arith N}.

(** [intersect] for the edge from vertex [vi] to the previous vertex
    [vj]; a vertex is the array [[x, y]]. *)
Definition intersect (px py : N) (vi vj : N * N) : bool :=
  let xi := vi.1 in let yi := vi.2 in
  let xj := vj.1 in let yj := vj.2 in
  negb (Bool.eqb (gtb yi py) (gtb yj py)) &&
  ltb px (add (div (mul (sub xj xi) (sub py yi)) (sub yj yi)) xi).

(** The [for] loop: [vs] are the vertices from index [i] on, [vj] is
    [vertices[j]], the vertex before them. *)
Fixpoint polygonLoop (px py : N) (vj : N * N) (vs : list (N * N))
    (inside : bool) : bool :=
  match vs with
  | [] => inside
  | vi :: rest =>
      polygonLoop px py vi rest
        (if intersect px py vi vj then negb inside else inside)
  end.

(** [j] starts at [vertices.length - 1]; with no vertex the loop body
    never runs. *)
Definition inPolygon (px py : N) (vertices : list (N * N)) : bool :=
  match last vertices with
  | None => false
  | Some vlast => polygonLoop px py vlast vertices false
  end.
End Polygon.

(** ** Data model *)

Record Point := { x : R; y : R }.

(** [shape.type] selects the variant; [polygon] and [triangle] carry the
    same payload and take the same branches.  Their [center] is never
    read and is left out.  [rotation] may be absent. *)
Inductive Shape :=
| Circle (center : R * R) (radius : R)
| Rectangle (center : R * R) (width height : R) (rotation : option R)
| Polygon (vertices : list (R * R))
| Triangle (vertices : list (R * R))
| OtherShape (tag : string).

Record MapObject := { type : string; shape : Shape }.

Record MapInfo := {
  name : string;
  resolution : R;
  width : R;
  height : R;
  origin : R * R
}.


(** ** Geometry predicate (lines 38-70) *)

Definition isPointInShape (point : Point) (shape : Shape) : bool :=
  match shape with
  | Circle center radius =>
      let dx := (x point - center.1)%R in
      let dy := (y point - center.2)%R in
      bool_decide (sqrt (dx * dx + dy * dy) <= radius)%R
  | Rectangle center width height rotation =>
      let angle := (- (default 0 rotation))%R in
      let cos := cos angle in
      let sin := sin angle in
      let dx := (x point - center.1)%R in
      let dy := (y point - center.2)%R in
      let rotX := (dx * cos - dy * sin)%R in
      let rotY := (dx * sin + dy * cos)%R in
      bool_decide (Rabs rotX <= width / 2)%R &&
      bool_decide (Rabs rotY <= height / 2)%R
  | Polygon vertices | Triangle vertices =>
      inPolygon (x point) (y point) vertices
  | OtherShape _ => false
  end.

(** ** Typed arrays *)

(** The elements of a [Uint8Array] are bytes. *)
Definition isUint8Array (a : list Z) : Prop :=
  Forall (fun v => 0 <= v < 256)%Z a.

(** An integer stored into a [Uint8Array] is reduced modulo 256. *)
Definition toUint8 (v : Z) : Z := (v mod 256)%Z.

(** [new Uint8Array(n)] for an integer [n]: zero-filled, [RangeError]
    when [n] is negative. *)
Definition newUint8Array (n : Z) : option (list Z) :=
  if (n <? 0)%Z then None else Some (replicate (Z.to_nat n) 0%Z).

(** [a.fill(v)] *)
Definition fill (a : list Z) (v : Z) : list Z :=
  replicate (length a) (toUint8 v).

(** [a[i] = v] for integers [i] and [v]: ignored out of range. *)
Definition store (a : list Z) (i : Z) (v : Z) : list Z :=
  if (i <? 0)%Z then a else <[Z.to_nat i := toUint8 v]> a.

(** [a[i]] for an integer [i]: [undefined] out of range. *)
Definition load (a : list Z) (i : Z) : option Z :=
  if (i <? 0)%Z then None else a !! Z.to_nat i.

(** [undefined] stored into a [Uint8Array] is stored as 0. *)
Definition orZero (v : option Z) : Z := default 0%Z v.

(** ** Rasterizer (lines 10-136) *)

Definition gridWidth (mapInfo : MapInfo) : Z :=
  Zceil (width mapInfo / resolution mapInfo).
Definition gridHeight (mapInfo : MapInfo) : Z :=
  Zceil (height mapInfo / resolution mapInfo).

Record GridPos := { gridX : Z; gridY : Z }.

Definition worldToGrid (mapInfo : MapInfo) (worldX worldY : R) : GridPos :=
  {| gridX := Zfloor ((worldX - (origin mapInfo).1) / resolution mapInfo);
     gridY := Zfloor ((worldY - (origin mapInfo).2) / resolution mapInfo) |}.

Definition setGridCell (mapInfo : MapInfo) (grid : list Z)
    (gridX gridY value : Z) : list Z :=
  if ((0 <=? gridX) && (gridX <? gridWidth mapInfo) &&
      (0 <=? gridY) && (gridY <? gridHeight mapInfo))%Z
  then
    let index := (gridY * gridWidth mapInfo + gridX)%Z in
    store grid index value
  else grid.

(** [Math.min(...l)] and [Math.max(...l)] of a list of finite numbers;
    [None] stands for the result on the empty list ([Infinity] and
    [-Infinity]). *)
Definition minimum (l : list R) : option R :=
  match l with
  | [] => None
  | a :: l' => Some (foldl Rmin a l')
  end.
Definition maximum (l : list R) : option R :=
  match l with
  | [] => None
  | a :: l' => Some (foldl Rmax a l')
  end.

Record Bounds := { minX : R; maxX : R; minY : R; maxY : R }.

Definition boundsOfPoints (pts : list (R * R)) : option Bounds :=
  minX ← minimum (pts.*1);
  maxX ← maximum (pts.*1);
  minY ← minimum (pts.*2);
  maxY ← maximum (pts.*2);
  Some {| minX := minX; maxX := maxX; minY := minY; maxY := maxY |}.

(** Lines 82-117.  [None] covers the two cases in which the source goes
    on with bounds that are not finite numbers: an empty vertex list
    ([minX = Infinity], [maxX = -Infinity]) and a shape of another type
    (all four [undefined]).  [worldToGrid] then yields [Infinity],
    [-Infinity] or [NaN], and the guard [gy <= maxGrid.gridY] of the cell
    loop is false at once (the resolution being positive, §3). *)
Definition shapeBounds (shape : Shape) : option Bounds :=
  match shape with
  | Circle center radius =>
      Some {| minX := center.1 - radius; maxX := center.1 + radius;
              minY := center.2 - radius; maxY := center.2 + radius |}%R
  | Rectangle center width height rotation =>
      let corners :=
        [ (- width / 2, - height / 2); (width / 2, - height / 2);
          (width / 2, height / 2); (- width / 2, height / 2) ]%R in
      let angle := (- (default 0 rotation))%R in
      let cos := cos angle in
      let sin := sin angle in
      let transformedCorners :=
        (fun c : R * R =>
           let rotX := (c.1 * cos - c.2 * sin)%R in
           let rotY := (c.1 * sin + c.2 * cos)%R in
           (center.1 + rotX, center.2 + rotY)%R) <$> corners in
      boundsOfPoints transformedCorners
  | Polygon vertices | Triangle vertices => boundsOfPoints vertices
  | OtherShape _ => None
  end.

(** The test of line 75. *)
Definition skipped (obj : MapObject) : bool :=
  (String.eqb (type obj) "robot" || String.eqb (type obj) "landmark")%bool.

(** Lines 127-133, the body of the inner loop. *)
Definition rasterizeCell (mapInfo : MapInfo) (shape : Shape) (gy : Z)
    (grid : list Z) (gx : Z) : list Z :=
  let worldX := ((origin mapInfo).1 + (IZR gx + 0.5) * resolution mapInfo)%R in
  let worldY := ((origin mapInfo).2 + (IZR gy + 0.5) * resolution mapInfo)%R in
  if isPointInShape {| x := worldX; y := worldY |} shape
  then setGridCell mapInfo grid gx gy 0
  else grid.

(** [for (let i = lo; i <= hi; i++)] over integers. *)
Definition forRange {A : Type} (lo hi : Z) (body : A -> Z -> A) (a : A) : A :=
  foldl body a (seqZ lo (hi - lo + 1)).

(** Lines 73-136, the callback of [objects.forEach]. *)
Definition rasterizeObject (mapInfo : MapInfo) (grid : list Z)
    (obj : MapObject) : list Z :=
  if skipped obj then grid else
  match shapeBounds (shape obj) with
  | None => grid
  | Some b =>
      let minGrid := worldToGrid mapInfo (minX b) (minY b) in
      let maxGrid := worldToGrid mapInfo (maxX b) (maxY b) in
      forRange (gridY minGrid) (gridY maxGrid)
        (fun grid gy =>
           forRange (gridX minGrid) (gridX maxGrid)
             (rasterizeCell mapInfo (shape obj) gy) grid)
        grid
  end.

(** Lines 12-136: the grid after the [forEach]. *)
Definition rasterize (mapInfo : MapInfo) (objects : list MapObject)
    : option (list Z) :=
  grid ← newUint8Array (gridWidth mapInfo * gridHeight mapInfo);
  Some (foldl (rasterizeObject mapInfo) (fill grid 254) objects).

(** ** Strings and bytes *)

Definition nl : string := String (ascii_of_nat 10) EmptyString.

Definition digitChar (d : Z) : ascii := ascii_of_nat (48 + Z.to_nat d).

Fixpoint digitsOf (fuel : nat) (n : Z) (acc : string) : string :=
  let acc' := String (digitChar (n mod 10)) acc in
  match fuel with
  | O => acc'
  | S fuel' => if (n <? 10)%Z then acc' else digitsOf fuel' (n / 10) acc'
  end.

(** [Number.MAX_SAFE_INTEGER], 2^53 - 1; the length of a typed array
    cannot exceed it. *)
Definition maxSafeInteger : Z := 9007199254740991.

(** [`${n}`] for an integer [n]: its decimal digits, with a sign when
    negative.  JavaScript prints every integer up to [maxSafeInteger] in
    absolute value this way. *)
Definition numberToString (n : Z) : string :=
  if (n <? 0)%Z
  then ("-" ++ digitsOf (Z.to_nat (Z.log2 (- n))) (- n) "")%string
  else digitsOf (Z.to_nat (Z.log2 n)) n "".

(** [new TextEncoder().encode(s)] for a string of ASCII characters. *)
Definition encode (s : string) : list Z :=
  (fun c => Z.of_nat (nat_of_ascii c)) <$> list_ascii_of_string s.

(** [' '.repeat(n)] *)
Definition spaces (n : Z) : string :=
  string_of_list_ascii (replicate (Z.to_nat n) " "%char).

(** [target.set(source, offset)]: [RangeError] when the source does not
    fit. *)
Definition set (target source : list Z) (offset : nat) : option (list Z) :=
  if decide (offset + length source <= length target)%nat
  then Some (take offset target ++ source ++
             drop (offset + length source) target)
  else None.

(** ** Image encoder (lines 158-181) *)

(** Lines 167-173, the two loops that fill [pgmGrid]; a [for] loop with
    the guard [i < n] stops at [n - 1]. *)
Definition flipRows (grid : list Z) (width height : Z) (pgmGrid : list Z)
    : list Z :=
  forRange 0 (height - 1)
    (fun pgmGrid row =>
       forRange 0 (width - 1)
         (fun pgmGrid col =>
            let srcIndex := (row * width + col)%Z in
            let dstIndex := ((height - 1 - row) * width + col)%Z in
            store pgmGrid dstIndex (orZero (load grid srcIndex)))
         pgmGrid)
    pgmGrid.

Definition generatePGM (grid : list Z) (width height : Z)
    : option (list Z) :=
  let header :=
    ("P5" ++ nl ++ numberToString width ++ " " ++ numberToString height ++
     nl ++ "255" ++ nl)%string in
  let headerBytes := encode header in
  pgmGrid ← newUint8Array (width * height);
  let pgmGrid := flipRows grid width height pgmGrid in
  pgmData ← newUint8Array (Z.of_nat (length headerBytes + length pgmGrid));
  pgmData ← set pgmData headerBytes 0;
  set pgmData pgmGrid (length headerBytes).

(** ** Numeric-array encoder (lines 209-287) *)

Definition npyHeaderDict (width height : Z) : string :=
  let dtype := "'<u1'"%string in
  let fortranOrder := "False"%string in
  let shape :=
    ("(" ++ numberToString height ++ ", " ++ numberToString width ++ ")")%string in
  ("{'descr': " ++ dtype ++ ", 'fortran_order': " ++ fortranOrder ++
   ", 'shape': " ++ shape ++ ", }")%string.

Definition npyPaddingSize (width height : Z) : Z :=
  let headerDictBytes := encode (npyHeaderDict width height) in
  let totalHeaderSize := (10 + Z.of_nat (length headerDictBytes))%Z in
  Z.rem (64 - Z.rem totalHeaderSize 64) 64.

Definition npyFinalHeader (width height : Z) : string :=
  let paddingSize := npyPaddingSize width height in
  (npyHeaderDict width height ++
   spaces (if (0 <? paddingSize)%Z then paddingSize - 1 else 0) ++ nl)%string.

Definition npyMagic : list Z := [0x93; 0x4E; 0x55; 0x4D; 0x50; 0x59]%Z.
Definition npyVersion : list Z := [0x01; 0x00]%Z.

Definition generateNPY (grid : list Z) (width height : Z)
    : option (list Z) :=
  let magic := npyMagic in
  let version := npyVersion in
  let finalHeaderBytes := encode (npyFinalHeader width height) in
  let headerLen := Z.of_nat (length finalHeaderBytes) in
  headerLenBytes ← newUint8Array 2;
  let headerLenBytes := store headerLenBytes 0 (Z.land headerLen 0xFF) in
  let headerLenBytes :=
    store headerLenBytes 1 (Z.land (Z.shiftr headerLen 8) 0xFF) in
  npyData ← newUint8Array
    (Z.of_nat (length magic + length version + length headerLenBytes +
               length finalHeaderBytes + length grid));
  let offset := 0%nat in
  npyData ← set npyData magic offset;
  let offset := (offset + length magic)%nat in
  npyData ← set npyData version offset;
  let offset := (offset + length version)%nat in
  npyData ← set npyData headerLenBytes offset;
  let offset := (offset + length headerLenBytes)%nat in
  npyData ← set npyData finalHeaderBytes offset;
  let offset := (offset + length finalHeaderBytes)%nat in
  set npyData grid offset.

Definition generatePlannerNPY (grid : list Z) (width height : Z)
    : option (list Z) :=
  plannerGrid ← newUint8Array (width * height);
  let plannerGrid :=
    forRange 0 (Z.of_nat (length grid) - 1)
      (fun plannerGrid i =>
         if decide (load grid i = Some 0%Z) then store plannerGrid i 1
         else if decide (load grid i = Some 254%Z) then store plannerGrid i 0
         else store plannerGrid i 0)
      plannerGrid in
  generateNPY plannerGrid width height.

(** ** Metadata encoder and the exported function *)


Section Metadata.
(** [`${v}`] for a number that need not be an integer: the shortest
    decimal that reads back as the same binary64 value.  It has no
    counterpart over [R] and stays a parameter. *)
Variable realToString : R -> string.

(** Lines 190-200. *)
Definition generateYAML (mapInfo : MapInfo) (gridWidth gridHeight : Z)
    : string :=
  ("image: " ++ name mapInfo ++ ".pgm" ++ nl ++
   "resolution: " ++ realToString (resolution mapInfo) ++ nl ++
   "origin: [" ++ realToString (origin mapInfo).1 ++ ", " ++
     realToString (origin mapInfo).2 ++ ", 0.0]" ++ nl ++
   "negate: 0" ++ nl ++
   "occupied_thresh: 0.65" ++ nl ++
   "free_thresh: 0.196" ++ nl)%string.

End Metadata.

(** ** Reference definitions, in the words of the specification *)

(** §4.3 step 3: the world point at the centre of cell [(gx, gy)]. *)
Definition cellCenter (mapInfo : MapInfo) (gx gy : Z) : Point :=
  {| x := ((origin mapInfo).1 + (IZR gx + 0.5) * resolution mapInfo)%R;
     y := ((origin mapInfo).2 + (IZR gy + 0.5) * resolution mapInfo)%R |}.

(** A cell is occupied when some object that is neither a robot nor a
    landmark has a shape containing the cell centre. *)
Definition referenceOccupied (mapInfo : MapInfo) (objects : list MapObject)
    (gx gy : Z) : bool :=
  existsb
    (fun obj =>
       negb (String.eqb (type obj) "robot") &&
       negb (String.eqb (type obj) "landmark") &&
       isPointInShape (cellCenter mapInfo gx gy) (shape obj))
    objects.

(** The full-grid scan: every cell of every row, rows from the bottom. *)
Definition referenceGrid (mapInfo : MapInfo) (objects : list MapObject)
    : list Z :=
  gy ← seqZ 0 (gridHeight mapInfo);
  gx ← seqZ 0 (gridWidth mapInfo);
  [if referenceOccupied mapInfo objects gx gy then 0%Z else 254%Z].

(** §4.5, planner flavor: occupied to 1, anything else to 0. *)
Definition plannerValue (v : Z) : Z := if decide (v = 0%Z) then 1%Z else 0%Z.

(** §4.4: the header of the image, [P5], the two dimensions and [255],
    each line ended by a newline. *)
Definition pgmHeader (width height : Z) : string :=
  ("P5" ++ nl ++ numberToString width ++ " " ++ numberToString height ++ nl ++
   "255" ++ nl)%string.

(** §4.5: the two bytes of the header length, and all the bytes that
    come before the data. *)
Definition npyLengthField (width height : Z) : list Z :=
  let headerLen := Z.of_nat (length (encode (npyFinalHeader width height))) in
  [Z.land headerLen 0xFF; Z.land (Z.shiftr headerLen 8) 0xFF].
Definition npyPreamble (width height : Z) : list Z :=
  npyMagic ++ npyVersion ++ npyLengthField width height ++
  encode (npyFinalHeader width height).

(** §6: the metadata document read line by line.  [splitLines] cuts a
    text at its newlines; [singleLine] holds of a text without any. *)
Fixpoint splitLines (s : string) : list string :=
  match s with
  | EmptyString => [EmptyString]
  | String c rest =>
      if Ascii.eqb c (ascii_of_nat 10) then EmptyString :: splitLines rest
      else match splitLines rest with
           | [] => [String c EmptyString]
           | line :: lines => String c line :: lines
           end
  end.

Fixpoint singleLine (s : string) : bool :=
  match s with
  | EmptyString => true
  | String c rest => negb (Ascii.eqb c (ascii_of_nat 10)) && singleLine rest
  end.

(** ** Which cells an object writes *)

(** The flat index of a cell and the guard of [setGridCell]. *)
Definition cellIndex (mapInfo : MapInfo) (gx gy : Z) : Z :=
  (gy * gridWidth mapInfo + gx)%Z.
Definition inGrid (mapInfo : MapInfo) (gx gy : Z) : bool :=
  ((0 <=? gx) && (gx <? gridWidth mapInfo) &&
   (0 <=? gy) && (gy <? gridHeight mapInfo))%Z.

(** Index [k] is written when the loops reach cell [(gx, gy)]. *)
Definition marksCell (mapInfo : MapInfo) (shape : Shape) (gy gx : Z)
    (k : nat) : bool :=
  isPointInShape (cellCenter mapInfo gx gy) shape &&
  inGrid mapInfo gx gy &&
  bool_decide (Z.to_nat (cellIndex mapInfo gx gy) = k).

Definition marksRow (mapInfo : MapInfo) (shape : Shape) (x0 x1 gy : Z)
    (k : nat) : bool :=
  existsb (fun gx => marksCell mapInfo shape gy gx k) (seqZ x0 (x1 - x0 + 1)).

Definition marks (mapInfo : MapInfo) (obj : MapObject) (k : nat) : bool :=
  negb (skipped obj) &&
  match shapeBounds (shape obj) with
  | None => false
  | Some b =>
      let minGrid := worldToGrid mapInfo (minX b) (minY b) in
      let maxGrid := worldToGrid mapInfo (maxX b) (maxY b) in
      existsb
        (fun gy =>
           marksRow mapInfo (shape obj) (gridX minGrid) (gridX maxGrid) gy k)
        (seqZ (gridY minGrid) (gridY maxGrid - gridY minGrid + 1))
  end.

(** The point lies in the box. *)
Definition inBounds (b : Bounds) (point : Point) : Prop :=
  (minX b <= x point <= maxX b /\ minY b <= y point <= maxY b)%R.

(** The vertex lies strictly above the horizontal ray: [yi > point.y]. *)
Definition above (py : R) (v : R * R) : bool := bool_decide (v.2 > py)%R.

(** Where the line through two vertices meets the ray. *)
Definition abscissa (py : R) (vi vj : R * R) : R :=
  ((vj.1 - vi.1) * (py - vi.2) / (vj.2 - vi.2) + vi.1)%R.

(** ** A small scene

    A 2 m by 2 m map at 1 m per cell; a wall over the cell at the origin,
    a pillar far outside the map, a robot and a landmark. *)
Definition demoMap : MapInfo :=
  {| name := "demo"; resolution := 1; width := 2; height := 2;
     origin := (0, 0)%R |}.
Definition demoWall : MapObject :=
  {| type := "wall"; shape := Rectangle (0.5, 0.5)%R 1 1 None |}.
Definition demoPillar : MapObject :=
  {| type := "obstacle"; shape := Circle (10, 10)%R 1 |}.
Definition demoRobot : MapObject :=
  {| type := "robot"; shape := Circle (1.5, 1.5)%R 1 |}.
Definition demoLandmark : MapObject :=
  {| type := "landmark"; shape := Polygon [(0, 0); (2, 0); (0, 2)]%R |}.

(** ** Preview image (lines 336-353) *)

(** A [Uint8ClampedArray] clamps a stored integer to a byte. *)
Definition toUint8Clamped (v : Z) : Z := Z.max 0 (Z.min 255 v).

(** [a[i] = v] on a [Uint8ClampedArray]: ignored out of range. *)
Definition storeClamped (a : list Z) (i : Z) (v : Z) : list Z :=
  if (i <? 0)%Z then a else <[Z.to_nat i := toUint8Clamped v]> a.

(** The canvas [ImageData]; its fields [width] and [height] are renamed,
    the names being those of the map's extents. *)
Record ImageData := { imageWidth : Z; imageHeight : Z; data : list Z }.

(** An argument of the interface type [unsigned long] is an integer
    taken modulo 2^32. *)
Definition toUnsignedLong (n : Z) : Z := (n mod 2 ^ 32)%Z.

(** [new ImageData(sw, sh)]: [IndexSizeError] when a dimension is zero;
    otherwise [4 * sw * sh] bytes of transparent black.  Limits on the
    size of the buffer are not modelled. *)
Definition newImageData (sw sh : Z) : option ImageData :=
  let sw := toUnsignedLong sw in
  let sh := toUnsignedLong sh in
  if ((sw =? 0) || (sh =? 0))%Z then None
  else Some {| imageWidth := sw; imageHeight := sh;
               data := replicate (Z.to_nat (4 * sw * sh)) 0%Z |}.

(** Lines 340-349, the body of the loop. *)
Definition previewPixel (grid : list Z) (data : list Z) (i : Z) : list Z :=
  let value := orZero (load grid i) in
  let idx := (i * 4)%Z in
  let color := value in
  let data := storeClamped data idx color in
  let data := storeClamped data (idx + 1) color in
  let data := storeClamped data (idx + 2) color in
  storeClamped data (idx + 3) 255.

Definition generateGridPreview (grid : list Z) (width height : Z)
    : option ImageData :=
  imageData ← newImageData width height;
  Some {| imageWidth := imageWidth imageData;
          imageHeight := imageHeight imageData;
          data := forRange 0 (Z.of_nat (length grid) - 1)
                    (previewPixel grid) (data imageData) |}.

(** The four bytes of an opaque gray pixel. *)
Definition grayPixel (v : Z) : list Z := [v; v; v; 255%Z].

(** ** Turning a vertex list, joining two grids *)

(** The vertex list read from another starting vertex. *)
Definition startAt {A : Type} (n : nat) (vertices : list A) : list A :=
  drop n vertices ++ take n vertices.

(** The grid of a scene put together from the grids of two parts. *)
Definition overlay (a b : list Z) : list Z := zip_with Z.min a b.

(** ** The earlier text image ([utils/pgmGenerator.js])

    The editor's bundle ([unnamed/part_000], whose line numbers are the
    ones given here) carries an earlier generator that scans every pixel
    of the image, top row first, and writes it as text ([P2]).  Its
    [isPointInShape] (lines 10-39) is, line for line, the predicate of
    the occupancy-grid generator, and is embedded by the same
    definition. *)

Module Legacy.

(** The greatest length of an [Array], 2^32 - 1. *)
Definition maxArrayLength : Z := 4294967295.

(** [new Array(n).fill(v)] for an integer [n]: [RangeError] when [n] is
    negative or above [maxArrayLength]. *)
Definition newArray {A : Type} (n : Z) (v : A) : option (list A) :=
  if ((n <? 0) || (maxArrayLength <? n))%Z then None
  else Some (replicate (Z.to_nat n) v).

(** Line 47: [height] rows of [width] cells, all 255. *)
Definition newGrid (width height : Z) : option (list (list Z)) :=
  rows ← newArray height tt;
  mapM (fun _ => newArray width 255%Z) rows.

(** [grid[py][px] = v].  In the loops [0 <= py < height] and
    [0 <= px < width], so the row exists and the write replaces a cell of
    it. *)
Definition writeCell (grid : list (list Z)) (py px v : Z) : list (list Z) :=
  match grid !! Z.to_nat py with
  | Some row => <[Z.to_nat py := <[Z.to_nat px := v]> row]> grid
  | None => grid
  end.

(** Lines 59-66: the loop over the objects, left at the first hit. *)
Fixpoint markPixel (point : Point) (grid : list (list Z)) (py px : Z)
    (objects : list MapObject) : list (list Z) :=
  match objects with
  | [] => grid
  | obj :: rest =>
      if (String.eqb (type obj) "obstacle" || String.eqb (type obj) "wall")%bool
      then
        if isPointInShape point (shape obj)
        then writeCell grid py px 0
        else markPixel point grid py px rest
      else markPixel point grid py px rest
  end.

(** Lines 50-68, the two loops over the pixels. *)
Definition rasterizePixels (mapInfo : MapInfo) (objects : list MapObject)
    (width height : Z) (grid : list (list Z)) : list (list Z) :=
  forRange 0 (height - 1)
    (fun grid py =>
       forRange 0 (width - 1)
         (fun grid px =>
            let worldX :=
              ((origin mapInfo).1 + (IZR px + 0.5) * resolution mapInfo)%R in
            let worldY :=
              ((origin mapInfo).2 +
               (IZR height - IZR py - 0.5) * resolution mapInfo)%R in
            let point := {| x := worldX; y := worldY |} in
            markPixel point grid py px objects)
         grid)
    grid.

(** [a.join(sep)] for an array of integers. *)
Fixpoint join (sep : string) (a : list Z) : string :=
  match a with
  | [] => EmptyString
  | [v] => numberToString v
  | v :: rest => (numberToString v ++ sep ++ join sep rest)%string
  end.

(** Lines 71-74. *)
Definition pgmText (width height : Z) (grid : list (list Z)) : string :=
  forRange 0 (height - 1)
    (fun pgmContent y =>
       (pgmContent ++ join " " (default [] (grid !! Z.to_nat y)) ++ nl)%string)
    ("P2" ++ nl ++ numberToString width ++ " " ++ numberToString height ++
     nl ++ "255" ++ nl)%string.

(** The returned object; its fields [width] and [height] are renamed. *)
Record TextImage := { pgmContent : string; textWidth : Z; textHeight : Z }.

(** Lines 42-68: the pixel rows before they are printed. *)
Definition pixelRows (mapInfo : MapInfo) (objects : list MapObject)
    : option (list (list Z)) :=
  let width := Zceil (width mapInfo / resolution mapInfo) in
  let height := Zceil (height mapInfo / resolution mapInfo) in
  grid ← newGrid width height;
  Some (rasterizePixels mapInfo objects width height grid).

(** Lines 42-77. *)
Definition generatePGM (mapInfo : MapInfo) (objects : list MapObject)
    : option TextImage :=
  let width := Zceil (width mapInfo / resolution mapInfo) in
  let height := Zceil (height mapInfo / resolution mapInfo) in
  grid ← pixelRows mapInfo objects;
  Some {| pgmContent := pgmText width height grid;
          textWidth := width; textHeight := height |}.





End Legacy.

(** ** Undo history of the editor (bundle, lines 164-166 and 214-234)

    The editor keeps the snapshots of the object list in [history] and
    the position of the current one in [historyIndex].  A handler reads
    the state of the render it was created in and sets the state of the
    next one, so each is a function from state to state.  A snapshot is
    taken and restored through [JSON.parse(JSON.stringify(v))], which
    for the plain data of the object list gives an equal value; on
    [undefined] it throws ([None]). *)

Module Editor.
Section History.
Context {Objects : Type}.

Record State := {
  objects : Objects;
  history : list Objects;
  historyIndex : Z
}.

(** The state of a fresh editor, and of one after [createNew]. *)
Definition initial (empty : Objects) : State :=
  {| objects := empty; history := []; historyIndex := -1 |}.

(** [a.slice(0, e)] for an integer [e]; a negative [e] counts from the
    end. *)
Definition slice0 (a : list Objects) (e : Z) : list Objects :=
  let len := Z.of_nat (length a) in
  let final := if (e <? 0)%Z then Z.max (len + e) 0 else Z.min e len in
  take (Z.to_nat final) a.

(** [a[i]] for an integer [i]: [undefined] out of range. *)
Definition at_ (a : list Objects) (i : Z) : option Objects :=
  if (i <? 0)%Z then None else a !! Z.to_nat i.

Definition saveHistory (newObjects : Objects) (st : State) : State :=
  let newHistory := slice0 (history st) (historyIndex st + 1) in
  let newHistory := newHistory ++ [newObjects] in
  {| objects := objects st;
     history := newHistory;
     historyIndex := Z.of_nat (length newHistory) - 1 |}.

Definition undo (st : State) : option State :=
  if (0 <? historyIndex st)%Z then
    snapshot ← at_ (history st) (historyIndex st - 1);
    Some {| objects := snapshot; history := history st;
            historyIndex := historyIndex st - 1 |}
  else Some st.

Definition redo (st : State) : option State :=
  if (historyIndex st <? Z.of_nat (length (history st)) - 1)%Z then
    snapshot ← at_ (history st) (historyIndex st + 1);
    Some {| objects := snapshot; history := history st;
            historyIndex := historyIndex st + 1 |}
  else Some st.

(** [setObjects(newObjects); saveHistory(newObjects)], the end of
    [addObject], [updateItem] and [deleteSelected]. *)
Definition commit (newObjects : Objects) (st : State) : State :=
  saveHistory newObjects
    {| objects := newObjects; history := history st;
       historyIndex := historyIndex st |}.

(** The index is -1 or that of a snapshot. *)
Definition wellFormed (st : State) : Prop :=
  (-1 <= historyIndex st < Z.of_nat (length (history st)))%Z.

(** [setObjects(newObjects)] alone, as while an object is dragged
    (line 594). *)
Definition setObjects (newObjects : Objects) (st : State) : State :=
  {| objects := newObjects; history := history st;
     historyIndex := historyIndex st |}.

(** [handleCanvasMouseUp] at the end of a drag (lines 598-601): the
    objects as they are become a snapshot. *)
Definition endDrag (st : State) : State := saveHistory (objects st) st.

(** The state after [importJSON] (lines 831-833). *)
Definition importJSON (loaded : Objects) : State :=
  {| objects := loaded; history := [loaded]; historyIndex := 0 |}.

(** The history is empty and the index is -1, or the index is that of
    a snapshot. *)
Definition consistent (st : State) : Prop :=
  (history st = [] /\ historyIndex st = (-1)%Z) \/
  (0 <= historyIndex st < Z.of_nat (length (history st)))%Z.

End History.
End Editor.

(** ** The two factors of a crossing test

    [intersect] is a conjunction: the ends of the edge lie on different
    sides of the height of the ray (the guard on the Y span), and the
    point is left of the abscissa at which the edge, taken from [vi],
    meets that height.  The quotient is formed in the second factor
    only. *)

Section Crossing.
Context {N : Type} `{Arith N}.

Definition straddles (py : N) (vi vj : N * N) : bool :=
  negb (Bool.eqb (gtb vi.2 py) (gtb vj.2 py)).

Definition crossingAbscissa (py : N) (vi vj : N * N) : N :=
  add (div (mul (sub vj.1 vi.1) (sub py vi.2)) (sub vj.2 vi.2)) vi.1.

End Crossing.

(** ** Bytes of a text and digits of a number, as a reader sees them

    These definitions do not come from the source: they say what the
    bytes of a file mean, and the encoders are checked against them. *)

(** The code of a character, from its eight bits. *)
Definition asciiCode (c : ascii) : Z :=
  let 'Ascii b0 b1 b2 b3 b4 b5 b6 b7 := c in
  (Z.b2z b0 + 2 * Z.b2z b1 + 4 * Z.b2z b2 + 8 * Z.b2z b3 +
   16 * Z.b2z b4 + 32 * Z.b2z b5 + 64 * Z.b2z b6 + 128 * Z.b2z b7)%Z.

(** The bytes of an ASCII text. *)
Fixpoint asciiCodes (s : string) : list Z :=
  match s with
  | EmptyString => []
  | String c rest => asciiCode c :: asciiCodes rest
  end.

(** The number a sequence of the bytes ['0'] (48) to ['9'] (57) denotes,
    the most significant digit first. *)
Definition digitsValue (digits : list Z) : Z :=
  foldl (fun acc b => 10 * acc + (b - 48))%Z 0%Z digits.

(** [digits] is the decimal numeral of [n]: at least one digit, digits
    only, no leading zero except for the numeral [0], and the value
    [n]. *)
Definition decimalOf (n : Z) (digits : list Z) : Prop :=
  digits <> [] /\
  Forall (fun b => 48 <= b <= 57)%Z digits /\
  (head digits = Some 48%Z -> digits = [48%Z]) /\
  digitsValue digits = n.

(** A reader of the binary grayscale image format: the magic number
    [P5], then the width, the height and the maximal gray value as
    decimal numerals, each after at least one blank, then a single blank
    and the raster, the top row first. *)
Definition isDigit (b : Z) : bool := ((48 <=? b) && (b <=? 57))%Z.

Definition isBlank (b : Z) : bool :=
  ((b =? 9) || (b =? 10) || (b =? 11) || (b =? 12) || (b =? 13) ||
   (b =? 32))%Z.

Fixpoint skipBlanks (bytes : list Z) : list Z :=
  match bytes with
  | b :: rest => if isBlank b then skipBlanks rest else bytes
  | [] => []
  end.

(** The longest numeral at the front of [bytes], on top of the digits
    read so far, and what follows it. *)
Fixpoint readNumber (bytes : list Z) (sofar : option Z)
    : option Z * list Z :=
  match bytes with
  | b :: rest =>
      if isDigit b
      then readNumber rest (Some (10 * default 0 sofar + (b - 48)))%Z
      else (sofar, bytes)
  | [] => (sofar, [])
  end.

Definition readField (bytes : list Z) : option (Z * list Z) :=
  match bytes with
  | b :: rest =>
      if isBlank b then
        match readNumber (skipBlanks rest) None with
        | (Some n, rest) => Some (n, rest)
        | (None, _) => None
        end
      else None
  | [] => None
  end.

Record Image := {
  columns : Z;
  rows : Z;
  maxGray : Z;
  raster : list Z
}.

Definition readPGM (bytes : list Z) : option Image :=
  match bytes with
  | 80 :: 53 :: rest =>
      '(w, rest) ← readField rest;
      '(h, rest) ← readField rest;
      '(m, rest) ← readField rest;
      match rest with
      | b :: pixels =>
          if isBlank b
          then Some {| columns := w; rows := h; maxGray := m;
                       raster := pixels |}
          else None
      | [] => None
      end
  | _ => None
  end%Z.

(** ** The array encoder for any two numbers (lines 209-261)

    [generateNPY] prints its two dimensions with a template literal,
    whatever numbers they are.  Above they are integers, printed by
    [numberToString].  Here they are values of any type [Number] and
    the printer is a parameter, [toString]: for a JavaScript number it
    is [Number::toString], which prints ASCII characters only, at most
    24 of them (as in [-1.7976931348623157e+308]). *)

Module AnyNumber.
Section Printer.
Context {Number : Type}.
Variable toString : Number -> string.

Definition npyHeaderDict (width height : Number) : string :=
  let dtype := "'<u1'"%string in
  let fortranOrder := "False"%string in
  let shape :=
    ("(" ++ toString height ++ ", " ++ toString width ++ ")")%string in
  ("{'descr': " ++ dtype ++ ", 'fortran_order': " ++ fortranOrder ++
   ", 'shape': " ++ shape ++ ", }")%string.

Definition npyPaddingSize (width height : Number) : Z :=
  let headerDictBytes := encode (npyHeaderDict width height) in
  let totalHeaderSize := (10 + Z.of_nat (length headerDictBytes))%Z in
  Z.rem (64 - Z.rem totalHeaderSize 64) 64.

Definition npyFinalHeader (width height : Number) : string :=
  let paddingSize := npyPaddingSize width height in
  (npyHeaderDict width height ++
   spaces (if (0 <? paddingSize)%Z then paddingSize - 1 else 0) ++ nl)%string.

Definition generateNPY (grid : list Z) (width height : Number)
    : option (list Z) :=
  let magic := npyMagic in
  let version := npyVersion in
  let finalHeaderBytes := encode (npyFinalHeader width height) in
  let headerLen := Z.of_nat (length finalHeaderBytes) in
  headerLenBytes ← newUint8Array 2;
  let headerLenBytes := store headerLenBytes 0 (Z.land headerLen 0xFF) in
  let headerLenBytes :=
    store headerLenBytes 1 (Z.land (Z.shiftr headerLen 8) 0xFF) in
  npyData ← newUint8Array
    (Z.of_nat (length magic + length version + length headerLenBytes +
               length finalHeaderBytes + length grid));
  let offset := 0%nat in
  npyData ← set npyData magic offset;
  let offset := (offset + length magic)%nat in
  npyData ← set npyData version offset;
  let offset := (offset + length version)%nat in
  npyData ← set npyData headerLenBytes offset;
  let offset := (offset + length headerLenBytes)%nat in
  npyData ← set npyData finalHeaderBytes offset;
  let offset := (offset + length finalHeaderBytes)%nat in
  set npyData grid offset.

End Printer.
End AnyNumber.

(** ** The generator on binary64 numbers

    The definitions above compute with real numbers.  Where a property
    depends on how the numbers are rounded, the generator is embedded
    once more on Rocq's primitive binary64 floats, the number type of
    the source: [+ - * /], [Math.sqrt], [Math.abs] and the comparisons
    are the primitive operations; [Math.floor] and [Math.ceil] are
    computed exactly from the sign, mantissa and exponent of their
    argument; [Math.cos] and [Math.sin], which the language leaves to
    the implementation, are parameters.

    A double that holds an integer ([Math.floor], [Math.ceil], a loop
    counter, an array index) is kept as that integer.  A counter [i]
    counts exactly as long as [-2^53 <= i < 2^53]; a loop that would
    take its counter out of that range, where [i++] no longer adds one
    and the loop need not return, has no result here ([None]). *)

Module Double.
Import PrimFloat.
#[local] Open Scope float_scope.

(** A double holding an integer, as [Math.floor] and [Math.ceil]
    return it; the sign of a zero is dropped, the program only
    comparing, adding and multiplying these values. *)
Inductive Integral := Int (z : Z) | NaN | Infinity (negative : bool).

(** The integer [(-1)^s * m] of a sign and a mantissa. *)
Definition signedMantissa (s : bool) (m : positive) : Z :=
  if s then Z.neg m else Z.pos m.

Module Math.

(** A finite double is [(-1)^s * m * 2^e]; shifting the integer
    [(-1)^s * m] by [e] places, to the right when [e] is negative,
    rounds towards minus infinity. *)
Definition floor (v : float) : Integral :=
  match FloatOps.Prim2SF v with
  | SpecFloat.S754_zero _ => Int 0
  | SpecFloat.S754_infinity s => Infinity s
  | SpecFloat.S754_nan => NaN
  | SpecFloat.S754_finite s m e => Int (Z.shiftl (signedMantissa s m) e)
  end.

Definition ceil (v : float) : Integral :=
  match FloatOps.Prim2SF v with
  | SpecFloat.S754_zero _ => Int 0
  | SpecFloat.S754_infinity s => Infinity s
  | SpecFloat.S754_nan => NaN
  | SpecFloat.S754_finite s m e => Int (- Z.shiftl (- signedMantissa s m) e)
  end.

Definition sqrt (v : float) : float := PrimFloat.sqrt v.
Definition abs (v : float) : float := PrimFloat.abs v.

(** One step of [Math.min]: [NaN] wins, then the smaller number, a
    negative zero counting as smaller than a positive one. *)
Definition min2 (lowest number : float) : float :=
  if is_nan lowest || is_nan number then nan
  else if number <? lowest then number
  else if is_zero number && get_sign number && is_zero lowest then number
  else lowest.

Definition max2 (highest number : float) : float :=
  if is_nan highest || is_nan number then nan
  else if highest <? number then number
  else if is_zero number && negb (get_sign number) && is_zero highest
  then number
  else highest.

(** [Math.min(...l)] and [Math.max(...l)]; on the empty list they are
    [Infinity] and [-Infinity]. *)
Definition min (l : list float) : float := foldl min2 infinity l.
Definition max (l : list float) : float := foldl max2 neg_infinity l.

End Math.

(** The double of an integer; exact for [|z| <= 2^53]. *)
Definition ofInt (z : Z) : float :=
  FloatOps.SF2Prim
    (SpecFloat.binary_normalize FloatOps.prec FloatOps.emax z 0 false).

(** [z < w] for a counter [z] and a double [w] holding an integer. *)
Definition ltInt (z : Z) (w : Integral) : bool :=
  match w with
  | Int a => (z <? a)%Z
  | NaN => false
  | Infinity negative => negb negative
  end.

(** The values a counter takes in [for (let i = lo; i <= hi; i++)]:
    none when the guard fails at once (a [NaN] bound included), the
    integers from [lo] to [hi] when they all lie in the range a double
    counts exactly, and no result otherwise. *)
Definition range (lo hi : Integral) : option (list Z) :=
  match lo, hi with
  | NaN, _ | _, NaN => Some []
  | Infinity false, Infinity false => None
  | Infinity false, _ => Some []
  | Infinity true, _ => None
  | Int _, Infinity true => Some []
  | Int _, Infinity false => None
  | Int l, Int h =>
      if (h <? l)%Z then Some []
      else if ((- 2 ^ 53 <=? l) && (h <? 2 ^ 53))%Z
      then Some (seqZ l (h - l + 1))
      else None
  end.

Fixpoint foldlM {A B : Type} (f : A -> B -> option A) (a : A) (l : list B)
    : option A :=
  match l with
  | [] => Some a
  | b :: l => a' ← f a b; foldlM f a' l
  end.

Definition forRange {A : Type} (lo hi : Integral)
    (body : A -> Z -> option A) (a : A) : option A :=
  counters ← range lo hi; foldlM body a counters.

(** *** Data model *)

Record Point := { x : float; y : float }.

Inductive Shape :=
| Circle (center : float * float) (radius : float)
| Rectangle (center : float * float) (width height : float)
    (rotation : option float)
| Polygon (vertices : list (float * float))
| Triangle (vertices : list (float * float))
| OtherShape (tag : string).

Record MapObject := { type : string; shape : Shape }.

Record MapInfo := {
  name : string;
  resolution : float;
  width : float;
  height : float;
  origin : float * float
}.

Record Bounds := { minX : float; maxX : float; minY : float; maxY : float }.

Record GridPos := { gridX : Integral; gridY : Integral }.

(** [shape.rotation || 0]: an absent rotation, a zero and a [NaN] all
    give 0. *)
Definition rotationOrZero (rotation : option float) : float :=
  match rotation with
  | None => 0
  | Some r => if is_nan r || is_zero r then 0 else r
  end.

Section Generator.
(** [Math.cos] and [Math.sin]. *)
Variables cos sin : float -> float.

(** Lines 38-70. *)
Definition isPointInShape (point : Point) (shape : Shape) : bool :=
  match shape with
  | Circle center radius =>
      let dx := x point - center.1 in
      let dy := y point - center.2 in
      Math.sqrt (dx * dx + dy * dy) <=? radius
  | Rectangle center width height rotation =>
      let angle := - (rotationOrZero rotation) in
      let cos := cos angle in
      let sin := sin angle in
      let dx := x point - center.1 in
      let dy := y point - center.2 in
      let rotX := dx * cos - dy * sin in
      let rotY := dx * sin + dy * cos in
      (Math.abs rotX <=? width / 2) && (Math.abs rotY <=? height / 2)
  | Polygon vertices | Triangle vertices =>
      inPolygon (x point) (y point) vertices
  | OtherShape _ => false
  end.

(** Lines 82-117; the four bounds of a shape of another type stay
    [undefined], which every later operation turns into [NaN]. *)
Definition shapeBounds (shape : Shape) : Bounds :=
  match shape with
  | Circle center radius =>
      {| minX := center.1 - radius; maxX := center.1 + radius;
         minY := center.2 - radius; maxY := center.2 + radius |}
  | Rectangle center width height rotation =>
      let corners :=
        [ (- width / 2, - height / 2); (width / 2, - height / 2);
          (width / 2, height / 2); (- width / 2, height / 2) ] in
      let angle := - (rotationOrZero rotation) in
      let cos := cos angle in
      let sin := sin angle in
      let transformedCorners :=
        (fun c : float * float =>
           let rotX := c.1 * cos - c.2 * sin in
           let rotY := c.1 * sin + c.2 * cos in
           (center.1 + rotX, center.2 + rotY)) <$> corners in
      {| minX := Math.min (transformedCorners.*1);
         maxX := Math.max (transformedCorners.*1);
         minY := Math.min (transformedCorners.*2);
         maxY := Math.max (transformedCorners.*2) |}
  | Polygon vertices | Triangle vertices =>
      {| minX := Math.min (vertices.*1); maxX := Math.max (vertices.*1);
         minY := Math.min (vertices.*2); maxY := Math.max (vertices.*2) |}
  | OtherShape _ => {| minX := nan; maxX := nan; minY := nan; maxY := nan |}
  end.

(** Lines 12-13. *)
Definition gridWidth (mapInfo : MapInfo) : Integral :=
  Math.ceil (width mapInfo / resolution mapInfo).
Definition gridHeight (mapInfo : MapInfo) : Integral :=
  Math.ceil (height mapInfo / resolution mapInfo).

(** Lines 21-25. *)
Definition worldToGrid (mapInfo : MapInfo) (worldX worldY : float) : GridPos :=
  {| gridX := Math.floor ((worldX - (origin mapInfo).1) / resolution mapInfo);
     gridY := Math.floor ((worldY - (origin mapInfo).2) / resolution mapInfo) |}.

(** Lines 29-35.  Under the guard the index is an integer below the
    number of cells, or the width is infinite and the index is not a
    number; a write at an index that is not one of the array is
    ignored. *)
Definition setGridCell (mapInfo : MapInfo) (grid : list Z)
    (gridX gridY value : Z) : list Z :=
  if (0 <=? gridX)%Z && ltInt gridX (gridWidth mapInfo) &&
     (0 <=? gridY)%Z && ltInt gridY (gridHeight mapInfo)
  then
    match gridWidth mapInfo with
    | Int gridWidth =>
        let index := (gridY * gridWidth + gridX)%Z in
        store grid index value
    | _ => grid
    end
  else grid.

(** Lines 127-128. *)
Definition cellCenter (mapInfo : MapInfo) (gx gy : Z) : Point :=
  {| x := (origin mapInfo).1 + (ofInt gx + 0.5) * resolution mapInfo;
     y := (origin mapInfo).2 + (ofInt gy + 0.5) * resolution mapInfo |}.

(** Lines 127-133, the body of the inner loop. *)
Definition rasterizeCell (mapInfo : MapInfo) (shape : Shape) (gy : Z)
    (grid : list Z) (gx : Z) : list Z :=
  let worldX := (origin mapInfo).1 + (ofInt gx + 0.5) * resolution mapInfo in
  let worldY := (origin mapInfo).2 + (ofInt gy + 0.5) * resolution mapInfo in
  if isPointInShape {| x := worldX; y := worldY |} shape
  then setGridCell mapInfo grid gx gy 0
  else grid.

(** The test of line 75. *)
Definition skipped (obj : MapObject) : bool :=
  (String.eqb (type obj) "robot" || String.eqb (type obj) "landmark")%bool.

(** Lines 73-136, the callback of [objects.forEach]. *)
Definition rasterizeObject (mapInfo : MapInfo) (grid : list Z)
    (obj : MapObject) : option (list Z) :=
  if skipped obj then Some grid else
  let shape := shape obj in
  let b := shapeBounds shape in
  let minGrid := worldToGrid mapInfo (minX b) (minY b) in
  let maxGrid := worldToGrid mapInfo (maxX b) (maxY b) in
  forRange (gridY minGrid) (gridY maxGrid)
    (fun grid gy =>
       forRange (gridX minGrid) (gridX maxGrid)
         (fun grid gx => Some (rasterizeCell mapInfo shape gy grid gx))
         grid)
    grid.

(** The length [new Uint8Array(gridWidth * gridHeight)] asks for: the
    product when it is an integer from 0 to 2^53 - 1, 0 when it is not a
    number, and a [RangeError] ([None]) otherwise. *)
Definition arrayLength (gridWidth gridHeight : Integral) : option Z :=
  match gridWidth, gridHeight with
  | Int w, Int h =>
      if ((w * h <? 0) || (2 ^ 53 - 1 <? w * h))%Z then None
      else Some (w * h)%Z
  | NaN, _ | _, NaN => Some 0%Z
  | Infinity _, Int z | Int z, Infinity _ =>
      if (z =? 0)%Z then Some 0%Z else None
  | Infinity _, Infinity _ => None
  end.

(** How a call ends. *)
Inductive Outcome (A : Type) :=
| Returns (a : A)
| RangeError
| Unfollowed.   (* a loop counter left the range a double counts exactly *)

(** Lines 12-136: the grid after the [forEach]. *)
Definition rasterize (mapInfo : MapInfo) (objects : list MapObject)
    : Outcome (list Z) :=
  match arrayLength (gridWidth mapInfo) (gridHeight mapInfo) with
  | None => RangeError _
  | Some n =>
      let grid := fill (replicate (Z.to_nat n) 0%Z) 254 in
      match foldlM (rasterizeObject mapInfo) grid objects with
      | Some grid => Returns _ grid
      | None => Unfollowed _
      end
  end.

(** *** In the words of the specification *)

(** The number of cells along an axis. *)
Definition extent (w : Integral) : Z :=
  match w with Int z => z | _ => 0%Z end.

(** §4.3: a cell is occupied when some object that is neither a robot
    nor a landmark has a shape containing the cell centre. *)
Definition referenceOccupied (mapInfo : MapInfo) (objects : list MapObject)
    (gx gy : Z) : bool :=
  existsb
    (fun obj =>
       negb (String.eqb (type obj) "robot") &&
       negb (String.eqb (type obj) "landmark") &&
       isPointInShape (cellCenter mapInfo gx gy) (shape obj))
    objects.

(** The full-grid scan. *)
Definition referenceGrid (mapInfo : MapInfo) (objects : list MapObject)
    : list Z :=
  gy ← seqZ 0 (extent (gridHeight mapInfo));
  gx ← seqZ 0 (extent (gridWidth mapInfo));
  [if referenceOccupied mapInfo objects gx gy then 0%Z else 254%Z].






(** The loops over the box of the shape stay where the counters are
    exact: the loop over the rows does, and so does the loop over the
    columns when there is a row to scan. *)
Definition followed (mapInfo : MapInfo) (shape : Shape) : bool :=
  let b := shapeBounds shape in
  let minGrid := worldToGrid mapInfo (minX b) (minY b) in
  let maxGrid := worldToGrid mapInfo (maxX b) (maxY b) in
  match range (gridY minGrid) (gridY maxGrid) with
  | None => false
  | Some [] => true
  | Some _ => bool_decide (is_Some (range (gridX minGrid) (gridX maxGrid)))
  end.

(** *** Which cells an object writes *)

Definition cellIndex (mapInfo : MapInfo) (gx gy : Z) : Z :=
  (gy * extent (gridWidth mapInfo) + gx)%Z.
Definition inGrid (mapInfo : MapInfo) (gx gy : Z) : bool :=
  (0 <=? gx)%Z && ltInt gx (gridWidth mapInfo) &&
  (0 <=? gy)%Z && ltInt gy (gridHeight mapInfo).

(** The index the inner loop writes at [(gx, gy)], if any. *)
Definition marksCell (mapInfo : MapInfo) (shape : Shape) (gy gx : Z)
    (k : nat) : bool :=
  isPointInShape (cellCenter mapInfo gx gy) shape &&
  inGrid mapInfo gx gy &&
  bool_decide (Z.to_nat (cellIndex mapInfo gx gy) = k).

(** The counters of a loop that is followed. *)
Definition counters (lo hi : Integral) : list Z := default [] (range lo hi).

Definition marks (mapInfo : MapInfo) (obj : MapObject) (k : nat) : bool :=
  negb (skipped obj) &&
  let b := shapeBounds (shape obj) in
  let minGrid := worldToGrid mapInfo (minX b) (minY b) in
  let maxGrid := worldToGrid mapInfo (maxX b) (maxY b) in
  existsb
    (fun gy =>
       existsb (fun gx => marksCell mapInfo (shape obj) gy gx k)
         (counters (gridX minGrid) (gridX maxGrid)))
    (counters (gridY minGrid) (gridY maxGrid)).

(** The callback of [objects.forEach] on an object whose loops are
    followed. *)
Definition scanObject (mapInfo : MapInfo) (grid : list Z) (obj : MapObject)
    : list Z :=
  if skipped obj then grid else
  let b := shapeBounds (shape obj) in
  let minGrid := worldToGrid mapInfo (minX b) (minY b) in
  let maxGrid := worldToGrid mapInfo (maxX b) (maxY b) in
  foldl
    (fun grid gy =>
       foldl (rasterizeCell mapInfo (shape obj) gy) grid
         (counters (gridX minGrid) (gridX maxGrid)))
    grid (counters (gridY minGrid) (gridY maxGrid)).

(** §4.1, rectangle: the point translated by [-center], then rotated
    by [-rotation] with [cos(-rotation)] and [sin(-rotation)]. *)
Definition translate (d p : float * float) : float * float :=
  (p.1 + d.1, p.2 + d.2).
Definition rotate (c s : float) (p : float * float) : float * float :=
  (p.1 * c - p.2 * s, p.1 * s + p.2 * c).
Definition rectangleLocal (center : float * float) (rotation : float)
    (p : float * float) : float * float :=
  rotate (cos (- rotation)) (sin (- rotation))
    (translate (- center.1, - center.2) p).
Definition withinHalf (width height : float) (p : float * float) : bool :=
  (Math.abs p.1 <=? width / 2) && (Math.abs p.2 <=? height / 2).

End Generator.

(** The values of [Math.cos] and [Math.sin] at the angles of the
    examples.  At a zero the language fixes them: the cosine is 1 and
    the sine is its argument.  At [Math.PI / 2] and its negative they
    are the doubles nearest to the cosine and the sine of that double,
    [0x1.1a62633145c07p-54] (about 6.1e-17, not 0) and 1 or -1.  The
    table holds no other angle. *)
Definition halfPi : float := 0x1.921fb54442d18p+0.
Definition tableCos (angle : float) : float :=
  if is_zero angle then 1
  else if Math.abs angle =? halfPi then 0x1.1a62633145c07p-54
  else nan.
Definition tableSin (angle : float) : float :=
  if is_zero angle then angle
  else if angle =? halfPi then 1
  else if angle =? - halfPi then -1
  else nan.

(** A scene at the edge of the integers a double holds: a map of four
    cells in one row with its origin at 2^53, and a disc of radius 1/2
    about [(2^53 + 2, 1/2)]. *)
Definition farMap : MapInfo :=
  {| name := "far"; resolution := 1; width := 4; height := 1;
     origin := (0x1p53, 0) |}.
Definition farDisc : MapObject :=
  {| type := "obstacle"; shape := Circle (0x1p53 + 2, 0.5) 0.5 |}.

(** A robot on that map. *)
Definition farRobot : MapObject :=
  {| type := "robot"; shape := Circle (0x1p53 + 1, 0.5) 0.5 |}.

(** The rectangle of the examples, 2 by 1 about the origin. *)
Definition plank (rotation : option float) : Shape :=
  Rectangle (0, 0) 2 1 rotation.

(** *** Zoom of the editor (bundle, lines 109-112 and 510-526) *)

(** [canvasToWorld]: the canvas has its vertical axis pointing down,
    [offset] is the canvas position of the map origin and [scale] the
    number of pixels per metre. *)
Definition canvasToWorld (cx cy : float) (offset : Point) (scale : float)
    (origin : float * float) : Point :=
  {| x := origin.1 + (cx - x offset) / scale;
     y := origin.2 - (cy - y offset) / scale |}.

(** The part of the editor's state the wheel handler sets. *)
Record View := { viewOffset : Point; viewScale : float }.

(** [handleCanvasWheel] for a wheel event at canvas position
    [(mouseX, mouseY)] with vertical delta [deltaY]: the state after
    [setOffset] and [setScale].  The factors are the doubles of the
    numerals [1.15] and [0.87]. *)
Definition handleCanvasWheel (origin : float * float) (offset : Point)
    (scale mouseX mouseY deltaY : float) : View :=
  let worldBefore := canvasToWorld mouseX mouseY offset scale origin in
  let zoomFactor :=
    if deltaY <? 0 then 0x1.2666666666666p+0 else 0x1.bd70a3d70a3d7p-1 in
  let newScale := Math.min [Math.max [scale * zoomFactor; 10]; 300] in
  let worldAfter := canvasToWorld mouseX mouseY offset newScale origin in
  {| viewOffset :=
       {| x := x offset + (x worldAfter - x worldBefore) * newScale;
          y := y offset - (y worldAfter - y worldBefore) * newScale |};
     viewScale := newScale |}.

End Double.


(** * Properties *)

(** ** Binary64 arithmetic

    Facts on the primitive floats, from the specification of their
    operations ([FloatAxioms]): a difference is the sum with the
    opposite, two numbers that [===] finds equal compare alike with any
    third, and two numbers are ordered one way or the other. *)

Module FloatFacts.
Import PrimFloat.
#[local] Open Scope float_scope.

Lemma sub_add_opp (a b : float) : a - b = a + - b.
Proof.
  apply FloatAxioms.Prim2SF_inj.
  rewrite FloatAxioms.sub_spec, FloatAxioms.add_spec, FloatAxioms.opp_spec.
  destruct (FloatOps.Prim2SF a) as [sa|sa| |sa ma ea],
           (FloatOps.Prim2SF b) as [sb|sb| |sb mb eb];
    try reflexivity;
    destruct sa, sb; reflexivity.
Qed.

Lemma SFeqb_SFltb (c a b : SpecFloat.spec_float) :
  SpecFloat.SFeqb a b = true ->
  SpecFloat.SFltb c a = SpecFloat.SFltb c b /\
  SpecFloat.SFltb a c = SpecFloat.SFltb b c.
Proof.
  unfold SpecFloat.SFeqb, SpecFloat.SFltb.
  destruct a as [sa|sa| |sa ma ea], b as [sb|sb| |sb mb eb];
    try discriminate;
    try (destruct sa, sb; try discriminate; intros _;
         destruct c as [sc|sc| |sc mc ec]; try destruct sc; split; reflexivity).
  cbn [SpecFloat.SFcompare]. intros Heq.
  assert (sa = sb /\ ea = eb /\ ma = mb) as (-> & -> & ->); [|done].
  change (PosDef.Pos.compare_cont Eq ma mb) with (Pos.compare ma mb) in Heq.
  destruct sa, sb; try discriminate;
    destruct (Z.compare_spec ea eb) as [->| |]; try discriminate;
    destruct (Pos.compare_spec ma mb) as [->| |]; try discriminate; done.
Qed.

Lemma eqb_ltb (c a b : float) :
  (a =? b) = true -> (a <? c) = (b <? c) /\ (c <? a) = (c <? b).
Proof.
  rewrite FloatAxioms.eqb_spec, !FloatAxioms.ltb_spec. intros Heq.
  destruct (SFeqb_SFltb (FloatOps.Prim2SF c) _ _ Heq). done.
Qed.

Lemma is_nan_spec (a : float) :
  is_nan a = false -> FloatOps.Prim2SF a <> SpecFloat.S754_nan.
Proof.
  unfold is_nan. rewrite FloatAxioms.eqb_spec. intros Hnan Heq.
  rewrite Heq in Hnan. discriminate.
Qed.

Lemma SFltb_false_SFleb (a b : SpecFloat.spec_float) :
  a <> SpecFloat.S754_nan -> b <> SpecFloat.S754_nan ->
  SpecFloat.SFltb a b = false -> SpecFloat.SFleb b a = true.
Proof.
  unfold SpecFloat.SFltb, SpecFloat.SFleb.
  destruct a as [sa|sa| |sa ma ea], b as [sb|sb| |sb mb eb];
    intros Ha Hb; try done;
    try (destruct sa; try destruct sb; done);
    try (destruct sb; try destruct sa; done).
  cbn [SpecFloat.SFcompare].
  change (PosDef.Pos.compare_cont Eq ma mb) with (Pos.compare ma mb).
  change (PosDef.Pos.compare_cont Eq mb ma) with (Pos.compare mb ma).
  rewrite (Z.compare_antisym ea eb), (Pos.compare_antisym ma mb).
  destruct sa, sb; try done;
    destruct (ea ?= eb)%Z; try done;
    destruct (ma ?= mb)%positive; done.
Qed.

(** Two numbers are ordered one way or the other. *)
Lemma ltb_false_leb (a b : float) :
  is_nan a = false -> is_nan b = false ->
  (a <? b) = false -> (b <=? a) = true.
Proof.
  intros Ha Hb. rewrite FloatAxioms.ltb_spec, FloatAxioms.leb_spec.
  apply SFltb_false_SFleb; now apply is_nan_spec.
Qed.

(** The guard on the Y span: when the two ends of an edge have equal
    ordinates, as [===] compares them, they lie on the same side of any
    height. *)
Lemma straddles_level_edge (py : float) (vi vj : float * float) :
  (vi.2 =? vj.2) = true ->
  straddles py vi vj = false /\ straddles py vj vi = false.
Proof.
  intros Heq. unfold straddles. cbn [gtb Arith_float].
  destruct (eqb_ltb py _ _ Heq) as [_ ->].
  now rewrite Bool.eqb_reflx.
Qed.

End FloatFacts.

(** ** Degenerate polygons *)

Section PolygonFacts.
Context {N : Type} `{Arith N}.

Lemma intersect_same_vertex (px py : N) (v : N * N) :
  intersect px py v v = false.
Proof.
  unfold intersect. cbn. now rewrite Bool.eqb_reflx.
Qed.

Lemma inPolygon_nil (px py : N) : inPolygon px py [] = false.
Proof. reflexivity. Qed.

Lemma inPolygon_one (px py : N) (v : N * N) : inPolygon px py [v] = false.
Proof.
  unfold inPolygon. cbn. now rewrite intersect_same_vertex.
Qed.

Lemma inPolygon_two (px py : N) (v0 v1 : N * N) :
  inPolygon px py [v0; v1] =
  xorb (intersect px py v0 v1) (intersect px py v1 v0).
Proof.
  unfold inPolygon. cbn.
  destruct (intersect px py v0 v1), (intersect px py v1 v0); reflexivity.
Qed.
End PolygonFacts.

(** In exact arithmetic both traversals of a segment meet the ray at the
    same abscissa. *)
Lemma intersect_sym_R (px py : R) (v0 v1 : R * R) :
  intersect px py v0 v1 = intersect px py v1 v0.
Proof.
  destruct v0 as [x0 y0], v1 as [x1 y1]. unfold intersect. cbn.
  destruct (bool_decide (y0 > py)%R) eqn:E0, (bool_decide (y1 > py)%R) eqn:E1;
    cbn; try reflexivity.
  - apply bool_decide_eq_true in E0. apply bool_decide_eq_false in E1.
    apply bool_decide_ext.
    replace ((x0 - x1) * (py - y1) / (y0 - y1) + x1)%R
      with ((x1 - x0) * (py - y0) / (y1 - y0) + x0)%R; [tauto|].
    field. split; lra.
  - apply bool_decide_eq_false in E0. apply bool_decide_eq_true in E1.
    apply bool_decide_ext.
    replace ((x0 - x1) * (py - y1) / (y0 - y1) + x1)%R
      with ((x1 - x0) * (py - y0) / (y1 - y0) + x0)%R; [tauto|].
    field. split; lra.
Qed.

Lemma inPolygon_short_R (px py : R) (vertices : list (R * R)) :
  (length vertices < 3)%nat -> inPolygon px py vertices = false.
Proof.
  intros Hlen.
  destruct vertices as [|v0 [|v1 [|v2 rest]]]; cbn in Hlen; try lia.
  - apply inPolygon_nil.
  - apply inPolygon_one.
  - rewrite inPolygon_two, (intersect_sym_R px py v1 v0).
    apply Bool.xorb_nilpotent.
Qed.

Section CrossingFacts.
Context {N : Type} `{Arith N}.

Lemma intersect_factors (px py : N) (vi vj : N * N) :
  intersect px py vi vj =
  straddles py vi vj && ltb px (crossingAbscissa py vi vj).
Proof. reflexivity. Qed.

Lemma straddles_sym (py : N) (vi vj : N * N) :
  straddles py vj vi = straddles py vi vj.
Proof.
  unfold straddles. now destruct (gtb vi.2 py), (gtb vj.2 py).
Qed.

(** With two vertices the flag is toggled by the two traversals of the
    one segment: the point is inside when the segment straddles its
    height and it is left of exactly one of the two abscissae. *)
Lemma inPolygon_segment (px py : N) (v0 v1 : N * N) :
  inPolygon px py [v0; v1] =
  straddles py v0 v1 &&
  xorb (ltb px (crossingAbscissa py v0 v1))
       (ltb px (crossingAbscissa py v1 v0)).
Proof.
  rewrite inPolygon_two, !intersect_factors, (straddles_sym py v0 v1).
  now destruct (straddles py v0 v1), (ltb px _), (ltb px _).
Qed.

End CrossingFacts.

(** C10 (amended).  A polygon or triangle with no vertex or a single one
    contains no point, in binary64 as in any arithmetic.  With two
    vertices the result is true exactly when the two ends lie on
    different sides of the height of the point and the point is left of
    exactly one of the two abscissae that the two traversals of the
    segment compute; it is false when these two abscissae are equal.  In
    exact arithmetic they are equal for every segment that straddles
    the height, and the shape contains no point; in binary64 they may
    differ.  Whenever the two ends of an edge have
    the same ordinate the guard on the Y span makes the crossing test
    false, whatever the quotient by their difference is: in any
    arithmetic for equal ordinates, and in binary64 for ordinates that
    [===] finds equal, the two zeros included. *)
Theorem short_polygon_contains_nothing {N : Type} `{Arith N}
    (px py : N) (vs : list (N * N)) (v0 v1 : N * N)
    (cos sin : PrimFloat.float -> PrimFloat.float)
    (fpoint : Double.Point)
    (fvs : list (PrimFloat.float * PrimFloat.float))
    (u0 u1 : PrimFloat.float * PrimFloat.float)
    (point : Point) (vertices : list (R * R)) (r0 r1 : R * R) :
  (length vs < 2)%nat ->
  (length fvs < 2)%nat ->
  (length vertices < 3)%nat ->
  (* any arithmetic *)
  inPolygon px py vs = false /\
  inPolygon px py [v0; v1] =
    straddles py v0 v1 &&
    xorb (ltb px (crossingAbscissa py v0 v1))
         (ltb px (crossingAbscissa py v1 v0)) /\
  (crossingAbscissa py v0 v1 = crossingAbscissa py v1 v0 ->
   inPolygon px py [v0; v1] = false) /\
  (v0.2 = v1.2 ->
   intersect px py v0 v1 = false /\ inPolygon px py [v0; v1] = false) /\
  (* binary64 *)
  Double.isPointInShape cos sin fpoint (Double.Polygon fvs) = false /\
  Double.isPointInShape cos sin fpoint (Double.Triangle fvs) = false /\
  Double.isPointInShape cos sin fpoint (Double.Polygon [u0; u1]) =
    straddles (Double.y fpoint) u0 u1 &&
    xorb (PrimFloat.ltb (Double.x fpoint)
            (crossingAbscissa (Double.y fpoint) u0 u1))
         (PrimFloat.ltb (Double.x fpoint)
            (crossingAbscissa (Double.y fpoint) u1 u0)) /\
  (PrimFloat.eqb u0.2 u1.2 = true ->
   intersect (Double.x fpoint) (Double.y fpoint) u0 u1 = false /\
   intersect (Double.x fpoint) (Double.y fpoint) u1 u0 = false /\
   Double.isPointInShape cos sin fpoint (Double.Polygon [u0; u1]) = false /\
   Double.isPointInShape cos sin fpoint (Double.Triangle [u0; u1]) = false) /\
  (* exact arithmetic *)
  (straddles (y point) r0 r1 = true ->
   crossingAbscissa (y point) r0 r1 = crossingAbscissa (y point) r1 r0) /\
  isPointInShape point (Polygon vertices) = false /\
  isPointInShape point (Triangle vertices) = false.
Proof.
  intros Hvs Hfvs Hvertices.
  assert (Hshort : forall (M : Type) (A : Arith M) (qx qy : M)
                     (l : list (M * M)),
            (length l < 2)%nat -> inPolygon qx qy l = false).
  { intros M A qx qy l Hl. destruct l as [|v [|v' rest]]; cbn in Hl; try lia.
    - apply inPolygon_nil.
    - apply inPolygon_one. }
  split; [now apply Hshort|].
  split; [apply inPolygon_segment|].
  split.
  { intros Heq. rewrite inPolygon_segment, Heq.
    now rewrite Bool.xorb_nilpotent, andb_false_r. }
  split.
  { intros Heq.
    assert (Hlevel : straddles py v0 v1 = false).
    { unfold straddles. now rewrite Heq, Bool.eqb_reflx. }
    now rewrite inPolygon_segment, intersect_factors, Hlevel. }
  split; [now apply Hshort|].
  split; [now apply Hshort|].
  split; [exact (inPolygon_segment (Double.x fpoint) (Double.y fpoint) u0 u1)|].
  split.
  { intros Heq.
    destruct (FloatFacts.straddles_level_edge (Double.y fpoint) u0 u1 Heq)
      as [H01 H10].
    cbn [Double.isPointInShape].
    now rewrite inPolygon_segment, !intersect_factors, H01, H10. }
  split.
  { destruct r0 as [x0 y0], r1 as [x1 y1].
    unfold straddles, crossingAbscissa. cbn.
    intros Hsides. apply negb_true_iff in Hsides.
    assert (y0 <> y1) as Hne.
    { intros ->. now rewrite Bool.eqb_reflx in Hsides. }
    field. split; lra. }
  cbn. split; now apply inPolygon_short_R.
Qed.

Module Binary64.
Import PrimFloat.

Lemma short_polygon_contains_nothing_witness :
  inPolygon (1 / 3)%float 1%float [(0, 0)]%float = false /\
  inPolygon (1 / 3)%float 1%float [(0, 0); (1, 3)]%float =
    straddles 1%float (0, 0)%float (1, 3)%float &&
    xorb ((1 / 3) <? crossingAbscissa 1 (0, 0) (1, 3))%float
         ((1 / 3) <? crossingAbscissa 1 (1, 3) (0, 0))%float /\
  Double.isPointInShape Double.tableCos Double.tableSin
    {| Double.x := 1 / 3; Double.y := 1 |} (Double.Polygon [(0, 0)]%float)
    = false /\
  isPointInShape {| x := 1 / 3; y := 1 |} (Polygon [(0, 0); (1, 3)]%R) = false.
Proof.
  pose proof (short_polygon_contains_nothing
                (1 / 3)%float 1%float [(0, 0)]%float (0, 0)%float (1, 3)%float
                Double.tableCos Double.tableSin
                {| Double.x := 1 / 3; Double.y := 1 |} [(0, 0)]%float
                (0, 1)%float (1, 1)%float
                {| x := 1 / 3; y := 1 |} [(0, 0); (1, 3)]%R
                (0, 0)%R (1, 3)%R) as Hshort.
  destruct Hshort as (Hone & Htwo & _ & _ & Hfloat & _ & _ & _ & _ & Hreal & _).
  - cbn. lia.
  - cbn. lia.
  - cbn. lia.
  - repeat split; assumption.
Defined.

(** C10 as stated fails in the arithmetic of the source.  For the
    segment from (0,0) to (1,3) and the ray at height 1, the traversal
    from (0,0) computes the abscissa [1*1/3 + 0 = 0x1.5555555555555p-2]
    and the traversal from (1,3) computes [(-1)*(-2)/(-3) + 1 =
    0x1.5555555555556p-2]; the point with [x = 1/3] is left of the
    second only, the flag is toggled once, and the point counts as
    inside the polygon, and the triangle, of these two vertices. *)
Lemma two_vertex_polygon_contains_point :
  inPolygon (1 / 3)%float 1%float [(0, 0); (1, 3)]%float = true /\
  Double.isPointInShape Double.tableCos Double.tableSin
    {| Double.x := 1 / 3; Double.y := 1 |}
    (Double.Polygon [(0, 0); (1, 3)]%float) = true /\
  Double.isPointInShape Double.tableCos Double.tableSin
    {| Double.x := 1 / 3; Double.y := 1 |}
    (Double.Triangle [(0, 0); (1, 3)]%float) = true.
Proof. vm_compute. repeat split; reflexivity. Qed.

(** A segment whose two ends have ordinates 0 and -0: the divisor is
    zero and the guard makes the test false. *)
Example level_edge_of_two_zeros :
  ((0 - (- 0) =? 0) = true /\
   intersect 1 0 (0, 0) (2, - 0) = false /\
   inPolygon 1 0 [(0, 0); (2, - 0)] = false)%float.
Proof. vm_compute. repeat split; reflexivity. Qed.

(** The two abscissae of that segment, one unit in the last place apart. *)
Example two_traversals_round_differently :
  ((1 - 0) * (1 - 0) / (3 - 0) + 0 = 0x1.5555555555555p-2 /\
   (0 - 1) * (1 - 3) / (0 - 3) + 1 = 0x1.5555555555556p-2)%float.
Proof. vm_compute. split; reflexivity. Qed.

(** On a triangle the same loop behaves as expected. *)
Example triangle_binary64 :
  inPolygon 0.5%float 0.5%float [(0, 0); (2, 0); (0, 2)]%float = true /\
  inPolygon 1.5%float 1.5%float [(0, 0); (2, 0); (0, 2)]%float = false /\
  inPolygon (-1)%float 0.5%float [(0, 0); (2, 0); (0, 2)]%float = false.
Proof. vm_compute. repeat split; reflexivity. Qed.
End Binary64.

(** ** Rectangles *)

Module RectangleFacts.
Import PrimFloat Double.
#[local] Open Scope float_scope.
#[local] Set Warnings "-inexact-float".

(** The numerals of the examples denote the nearest doubles. *)
Example numerals_of_the_examples :
  0.99 = 0x1.fae147ae147aep-1 /\ 0.49 = 0x1.f5c28f5c28f5cp-2 /\
  1.01 = 0x1.028f5c28f5c29p+0.
Proof. repeat split; reflexivity. Qed.

Section Rectangle.
Variables cos sin : float -> float.

(** The source subtracts the centre; the specification translates by
    minus the centre.  In binary64 the two are the same number. *)
Lemma isPointInShape_rectangle_local (point : Point) (center : float * float)
    (width height : float) (rotation : option float) :
  isPointInShape cos sin point (Rectangle center width height rotation) =
  withinHalf width height
    (rectangleLocal cos sin center (rotationOrZero rotation)
       (x point, y point)).
Proof.
  unfold isPointInShape, withinHalf, rectangleLocal, rotate, translate.
  cbn [fst snd]. now rewrite <- !FloatFacts.sub_add_opp.
Qed.

(** The branch once the cosine and the sine of the angle are known. *)
Lemma isPointInShape_rectangle_at (angle c s : float) (point : Point)
    (center : float * float) (width height : float) (rotation : option float) :
  - rotationOrZero rotation = angle -> cos angle = c -> sin angle = s ->
  isPointInShape cos sin point (Rectangle center width height rotation) =
  withinHalf width height
    (rotate c s (x point - center.1, y point - center.2)).
Proof. intros <- <- <-. reflexivity. Qed.

(** C4 (amended).  In binary64, for every point and every rectangle, the
    containment test is the test [|localX| <= width/2] and
    [|localY| <= height/2], bounds included, on the point translated by
    minus the centre and then rotated with [cos(-rotation)] and
    [sin(-rotation)], each operation rounded; an absent rotation, like a
    rotation that is zero or not a number, counts as 0.

    The examples hold for a cosine and a sine with [cos(-0) = 1] and
    [sin(-0) = -0], which the language prescribes, and with the
    correctly rounded values at minus the double [Math.PI / 2]: the
    cosine [0x1.1a62633145c07p-54], about 6.1e-17 and not 0, and the
    sine -1.  The 2-by-1 rectangle about
    the origin contains (0.99, 0.49) and its corner (1, 0.5) and
    excludes (1.01, 0).  Rotated by [Math.PI / 2] it contains
    (0.49, 0.99) and (0, 1) and excludes (0.99, 0.49) and (1, 0), which
    the rectangle that is not rotated treats the other way round; it
    also excludes (-0.5, 1), a corner of the box with the two bounds
    exchanged. *)
Theorem rectangle_containment (point : Point) (center : float * float)
    (width height : float) (rotation : option float) :
  cos (- 0) = 1 -> sin (- 0) = - 0 ->
  cos (- halfPi) = 0x1.1a62633145c07p-54 -> sin (- halfPi) = -1 ->
  isPointInShape cos sin point (Rectangle center width height rotation) =
    withinHalf width height
      (rectangleLocal cos sin center (rotationOrZero rotation)
         (x point, y point)) /\
  rotationOrZero None = 0 /\
  isPointInShape cos sin {| x := 0.99; y := 0.49 |} (plank (Some 0)) = true /\
  isPointInShape cos sin {| x := 0.99; y := 0.49 |} (plank None) = true /\
  isPointInShape cos sin {| x := 1; y := 0.5 |} (plank (Some 0)) = true /\
  isPointInShape cos sin {| x := 1.01; y := 0 |} (plank (Some 0)) = false /\
  isPointInShape cos sin {| x := 0.49; y := 0.99 |} (plank (Some halfPi))
    = true /\
  isPointInShape cos sin {| x := 0.99; y := 0.49 |} (plank (Some halfPi))
    = false /\
  isPointInShape cos sin {| x := 0; y := 1 |} (plank (Some halfPi)) = true /\
  isPointInShape cos sin {| x := 1; y := 0 |} (plank (Some halfPi)) = false /\
  isPointInShape cos sin {| x := 0; y := 1 |} (plank (Some 0)) = false /\
  isPointInShape cos sin {| x := 1; y := 0 |} (plank (Some 0)) = true /\
  isPointInShape cos sin {| x := -0.5; y := 1 |} (plank (Some halfPi)) = false.
Proof.
  intros Hc0 Hs0 Hc Hs.
  split; [apply isPointInShape_rectangle_local|].
  split; [reflexivity|].
  unfold plank.
  repeat split;
    match goal with
    | |- isPointInShape _ _ ?p (Rectangle ?c ?w ?h ?r) = _ =>
        first
          [ rewrite (isPointInShape_rectangle_at _ _ _ p c w h r
                       eq_refl Hc0 Hs0)
          | rewrite (isPointInShape_rectangle_at _ _ _ p c w h r
                       eq_refl Hc Hs) ]
    end;
    vm_compute; reflexivity.
Qed.

End Rectangle.

Lemma rectangle_containment_witness :
  isPointInShape tableCos tableSin {| x := 0.75; y := 0.25 |}
    (Rectangle (0.5, 0.25) 1 0.5 (Some halfPi)) =
  withinHalf 1 0.5
    (rectangleLocal tableCos tableSin (0.5, 0.25) halfPi (0.75, 0.25)) /\
  isPointInShape tableCos tableSin {| x := 0.49; y := 0.99 |}
    (plank (Some halfPi)) = true /\
  isPointInShape tableCos tableSin {| x := 0.99; y := 0.49 |}
    (plank (Some halfPi)) = false.
Proof.
  pose proof (rectangle_containment tableCos tableSin
                {| x := 0.75; y := 0.25 |} (0.5, 0.25) 1 0.5 (Some halfPi))
    as Hrect.
  destruct Hrect as (Hlocal & _ & _ & _ & _ & _ & Hin & Hout & _).
  - vm_compute. reflexivity.
  - vm_compute. reflexivity.
  - vm_compute. reflexivity.
  - vm_compute. reflexivity.
  - split; [exact Hlocal|]. split; [exact Hin|exact Hout].
Defined.

(** C4 as stated fails in the arithmetic of the source: a rotation by
    [Math.PI / 2] does not exchange the bounds of the two axes.  The
    point (-0.5, 1) satisfies [|x| <= 1/2] and [|y| <= 2/2], and the
    rectangle of width 1 and height 2 that is not rotated contains it.
    The rectangle of width 2 and height 1 rotated by [Math.PI / 2] does
    not: its local ordinate is [0.5 + cos(pi/2)], the next double after
    0.5. *)
Lemma quarter_turn_excludes_a_corner :
  tableCos (- halfPi) = 0x1.1a62633145c07p-54 /\
  tableSin (- halfPi) = -1 /\
  withinHalf 1 2 (-0.5, 1) = true /\
  isPointInShape tableCos tableSin {| x := -0.5; y := 1 |}
    (Rectangle (0, 0) 1 2 None) = true /\
  (rectangleLocal tableCos tableSin (0, 0) halfPi (-0.5, 1)).2 =
    0x1.0000000000001p-1 /\
  isPointInShape tableCos tableSin {| x := -0.5; y := 1 |}
    (Rectangle (0, 0) 2 1 (Some halfPi)) = false.
Proof. vm_compute. repeat split; reflexivity. Qed.

End RectangleFacts.

(** ** Absolute values and conjunctions over the reals *)

Lemma andb_bool_decide (P Q : Prop) `{Decision P} `{Decision Q} :
  bool_decide P && bool_decide Q = true <-> P /\ Q.
Proof.
  rewrite andb_true_iff, !bool_decide_eq_true. reflexivity.
Qed.

Lemma Rabs_le_iff (a b : R) : (Rabs a <= b <-> - b <= a <= b)%R.
Proof.
  unfold Rabs. destruct (Rcase_abs a); lra.
Qed.

(** ** Metadata *)

Lemma splitLines_app_singleLine (a b line : string) (lines : list string) :
  singleLine a = true -> splitLines b = line :: lines ->
  splitLines (a ++ b) = (a ++ line)%string :: lines.
Proof.
  intros Ha Hb. induction a as [|c a IH]; cbn in *; [done|].
  apply andb_true_iff in Ha as [Hc Ha].
  destruct (Ascii.eqb c (ascii_of_nat 10)); [done|]. now rewrite IH.
Qed.

Lemma splitLines_app (a b line : string) (lines : list string) :
  splitLines b = line :: lines ->
  exists before last,
    splitLines (a ++ b) = before ++ (last ++ line)%string :: lines.
Proof.
  intros Hb. induction a as [|c a (before & last & IH)]; cbn.
  - exists [], EmptyString. done.
  - rewrite IH. destruct (Ascii.eqb c (ascii_of_nat 10)).
    + exists (EmptyString :: before), last. done.
    + destruct before as [|l before]; cbn.
      * exists [], (String c last). done.
      * exists (String c l :: before), last. done.
Qed.

Lemma string_app_assoc (a b c : string) :
  ((a ++ b) ++ c = a ++ (b ++ c))%string.
Proof.
  induction a as [|ch a IH]; cbn; [done|]. now rewrite IH.
Qed.

Lemma singleLine_app (a b : string) :
  singleLine (a ++ b) = singleLine a && singleLine b.
Proof.
  induction a as [|c a IH]; cbn; [done|]. rewrite IH. apply andb_assoc.
Qed.

Lemma splitLines_line (line rest : string) :
  singleLine line = true ->
  splitLines (line ++ nl ++ rest) = line :: splitLines rest.
Proof.
  intros Hline.
  rewrite (splitLines_app_singleLine line _ EmptyString (splitLines rest));
    [|done|reflexivity].
  f_equal. induction line as [|c line IH]; cbn in *; [done|].
  apply andb_true_iff in Hline as [_ Hline]. now rewrite IH.
Qed.

(** The document as its six lines, and as a head followed by the part
    that no input reaches. *)
Lemma generateYAML_lines (realToString : R -> string) (mapInfo : MapInfo)
    (gridWidth gridHeight : Z) :
  generateYAML realToString mapInfo gridWidth gridHeight =
  (("image: " ++ name mapInfo ++ ".pgm") ++ nl ++
   ("resolution: " ++ realToString (resolution mapInfo)) ++ nl ++
   ("origin: [" ++ realToString (origin mapInfo).1 ++ ", " ++
      realToString (origin mapInfo).2 ++ ", 0.0]") ++ nl ++
   "negate: 0" ++ nl ++ "occupied_thresh: 0.65" ++ nl ++
   "free_thresh: 0.196" ++ nl ++ "")%string.
Proof.
  unfold generateYAML. rewrite !string_app_assoc. reflexivity.
Qed.

Lemma generateYAML_tail (realToString : R -> string) (mapInfo : MapInfo)
    (gridWidth gridHeight : Z) :
  generateYAML realToString mapInfo gridWidth gridHeight =
  (("image: " ++ name mapInfo ++ ".pgm" ++ nl ++
    "resolution: " ++ realToString (resolution mapInfo) ++ nl ++
    "origin: [" ++ realToString (origin mapInfo).1 ++ ", " ++
      realToString (origin mapInfo).2) ++
   (", 0.0]" ++ nl ++ "negate: 0" ++ nl ++ "occupied_thresh: 0.65" ++ nl ++
    "free_thresh: 0.196" ++ nl))%string.
Proof.
  unfold generateYAML. rewrite !string_app_assoc. reflexivity.
Qed.

(** C9.  Whatever the map, the grid size and the printing of numbers, the
    document is the fixed template: it ends with the origin as a list
    whose third entry is [0.0], then the lines [negate: 0],
    [occupied_thresh: 0.65] and [free_thresh: 0.196].  When the name and
    the printed numbers hold no newline these are lines 3 to 6 of
    exactly six. *)
Theorem yaml_constants (realToString : R -> string) (mapInfo : MapInfo)
    (gridWidth gridHeight : Z) :
  generateYAML realToString mapInfo gridWidth gridHeight =
    ("image: " ++ name mapInfo ++ ".pgm" ++ nl ++
     "resolution: " ++ realToString (resolution mapInfo) ++ nl ++
     "origin: [" ++ realToString (origin mapInfo).1 ++ ", " ++
       realToString (origin mapInfo).2 ++ ", " ++ "0.0" ++ "]" ++ nl ++
     "negate: " ++ "0" ++ nl ++
     "occupied_thresh: " ++ "0.65" ++ nl ++
     "free_thresh: " ++ "0.196" ++ nl)%string /\
  (exists before line,
     splitLines (generateYAML realToString mapInfo gridWidth gridHeight) =
     before ++
     [ (line ++ ", 0.0]")%string; "negate: 0"%string;
       "occupied_thresh: 0.65"%string; "free_thresh: 0.196"%string;
       EmptyString ]) /\
  (singleLine (name mapInfo) = true ->
   singleLine (realToString (resolution mapInfo)) = true ->
   singleLine (realToString (origin mapInfo).1) = true ->
   singleLine (realToString (origin mapInfo).2) = true ->
   splitLines (generateYAML realToString mapInfo gridWidth gridHeight) =
   [ ("image: " ++ name mapInfo ++ ".pgm")%string;
     ("resolution: " ++ realToString (resolution mapInfo))%string;
     ("origin: [" ++ realToString (origin mapInfo).1 ++ ", " ++
        realToString (origin mapInfo).2 ++ ", 0.0]")%string;
     "negate: 0"%string; "occupied_thresh: 0.65"%string;
     "free_thresh: 0.196"%string; EmptyString ]).
Proof.
  split; [reflexivity|]. split.
  - rewrite generateYAML_tail. apply splitLines_app. reflexivity.
  - intros Hname Hres Hx Hy. rewrite generateYAML_lines.
    rewrite !splitLines_line; [reflexivity|reflexivity..| | |].
    + rewrite !singleLine_app, Hx, Hy. reflexivity.
    + rewrite !singleLine_app, Hres. reflexivity.
    + rewrite !singleLine_app, Hname. reflexivity.
Qed.

Lemma yaml_constants_witness :
  splitLines (generateYAML (fun _ => "0.05"%string) demoMap 40 40) =
  [ "image: demo.pgm"%string; "resolution: 0.05"%string;
    "origin: [0.05, 0.05, 0.0]"%string; "negate: 0"%string;
    "occupied_thresh: 0.65"%string; "free_thresh: 0.196"%string;
    EmptyString ].
Proof.
  apply (yaml_constants (fun _ => "0.05"%string) demoMap 40 40); reflexivity.
Defined.

(** ** Writes into the grid *)

Lemma store_lookup (a : list Z) (i v : Z) (k : nat) :
  (0 <= i)%Z ->
  store a i v !! k =
  if bool_decide (Z.to_nat i = k)
  then (fun _ => toUint8 v) <$> a !! k else a !! k.
Proof.
  intros Hi. unfold store.
  destruct (Z.ltb_spec i 0); [lia|].
  case_bool_decide as Hk.
  - subst k. destruct (decide (Z.to_nat i < length a)%nat) as [Hlt|Hge].
    + rewrite list_lookup_insert_eq by done.
      destruct (lookup_lt_is_Some_2 a _ Hlt) as [w ->]. reflexivity.
    + rewrite list_insert_ge by lia.
      rewrite (lookup_ge_None_2 a) by lia. reflexivity.
  - now rewrite list_lookup_insert_ne.
Qed.

Lemma length_store (a : list Z) (i v : Z) : length (store a i v) = length a.
Proof.
  unfold store. destruct (i <? 0)%Z; [done|]. apply length_insert.
Qed.

Lemma setGridCell_unfold (mapInfo : MapInfo) (grid : list Z) (gx gy v : Z) :
  setGridCell mapInfo grid gx gy v =
  if inGrid mapInfo gx gy then store grid (cellIndex mapInfo gx gy) v else grid.
Proof. reflexivity. Qed.

Lemma inGrid_spec (mapInfo : MapInfo) (gx gy : Z) :
  inGrid mapInfo gx gy = true <->
  (0 <= gx < gridWidth mapInfo /\ 0 <= gy < gridHeight mapInfo)%Z.
Proof.
  unfold inGrid. rewrite !andb_true_iff, !Z.leb_le, !Z.ltb_lt. lia.
Qed.

Lemma cellIndex_nonneg (mapInfo : MapInfo) (gx gy : Z) :
  inGrid mapInfo gx gy = true -> (0 <= cellIndex mapInfo gx gy)%Z.
Proof.
  rewrite inGrid_spec. unfold cellIndex. nia.
Qed.

Lemma cellIndex_inj (mapInfo : MapInfo) (gx gy gx' gy' : Z) :
  inGrid mapInfo gx gy = true -> inGrid mapInfo gx' gy' = true ->
  cellIndex mapInfo gx gy = cellIndex mapInfo gx' gy' ->
  gx = gx' /\ gy = gy'.
Proof.
  rewrite !inGrid_spec. unfold cellIndex. intros H1 H2 Heq.
  assert (gy = gy') by nia. subst. lia.
Qed.

(** A loop whose every step overwrites a set of indices with [v]
    overwrites the union of these sets. *)
Lemma foldl_overwrite {A : Type} (f : list Z -> A -> list Z)
    (W : A -> nat -> bool) (v : Z) :
  (forall g a k,
     f g a !! k = if W a k then (fun _ => v) <$> g !! k else g !! k) ->
  forall l g k,
    foldl f g l !! k =
    if existsb (fun a => W a k) l then (fun _ => v) <$> g !! k else g !! k.
Proof.
  intros Hf l. induction l as [|a l IH]; intros g k; cbn; [done|].
  rewrite IH, Hf.
  destruct (W a k), (existsb (fun a0 => W a0 k) l), (g !! k); reflexivity.
Qed.

Lemma rasterizeCell_lookup (mapInfo : MapInfo) (shape : Shape) (gy : Z)
    (grid : list Z) (gx : Z) (k : nat) :
  rasterizeCell mapInfo shape gy grid gx !! k =
  if marksCell mapInfo shape gy gx k
  then (fun _ => 0%Z) <$> grid !! k else grid !! k.
Proof.
  unfold rasterizeCell, marksCell. fold (cellCenter mapInfo gx gy).
  destruct (isPointInShape _ _); cbn; [|done].
  rewrite setGridCell_unfold.
  destruct (inGrid mapInfo gx gy) eqn:Hin; cbn; [|done].
  apply store_lookup. now apply cellIndex_nonneg.
Qed.

Lemma rasterizeObject_lookup (mapInfo : MapInfo) (grid : list Z)
    (obj : MapObject) (k : nat) :
  rasterizeObject mapInfo grid obj !! k =
  if marks mapInfo obj k then (fun _ => 0%Z) <$> grid !! k else grid !! k.
Proof.
  unfold rasterizeObject, marks.
  destruct (skipped obj); cbn; [done|].
  destruct (shapeBounds (shape obj)) as [b|]; [|done].
  unfold forRange at 1.
  apply (foldl_overwrite _
    (fun gy => marksRow mapInfo (shape obj) _ _ gy)).
  intros g gy k'. unfold forRange, marksRow.
  apply (foldl_overwrite _ (marksCell mapInfo (shape obj) gy)).
  intros g' gx k''. apply rasterizeCell_lookup.
Qed.

Lemma rasterizeObjects_lookup (mapInfo : MapInfo) (objects : list MapObject)
    (grid : list Z) (k : nat) :
  foldl (rasterizeObject mapInfo) grid objects !! k =
  if existsb (fun obj => marks mapInfo obj k) objects
  then (fun _ => 0%Z) <$> grid !! k else grid !! k.
Proof.
  apply (foldl_overwrite _ (marks mapInfo)).
  intros g obj k'. apply rasterizeObject_lookup.
Qed.

Lemma rasterizeObjects_length (mapInfo : MapInfo) (objects : list MapObject)
    (grid : list Z) :
  length (foldl (rasterizeObject mapInfo) grid objects) = length grid.
Proof.
  apply Nat.le_antisymm.
  - destruct (decide (length (foldl (rasterizeObject mapInfo) grid objects)
                      <= length grid)%nat) as [|Hgt]; [done|].
    assert (Hsome : is_Some
      (foldl (rasterizeObject mapInfo) grid objects !! length grid)).
    { apply lookup_lt_is_Some_2. lia. }
    rewrite rasterizeObjects_lookup, (lookup_ge_None_2 grid) in Hsome by lia.
    destruct (existsb _ _); cbn in Hsome; now destruct Hsome.
  - destruct (decide (length grid <=
      length (foldl (rasterizeObject mapInfo) grid objects))%nat)
      as [|Hgt]; [done|].
    pose proof (rasterizeObjects_lookup mapInfo objects grid
      (length (foldl (rasterizeObject mapInfo) grid objects))) as Heq.
    rewrite (lookup_ge_None_2 (foldl _ _ _)) in Heq by lia.
    destruct (lookup_lt_is_Some_2 grid
      (length (foldl (rasterizeObject mapInfo) grid objects))) as [w Hw];
      [lia|].
    rewrite Hw in Heq. destruct (existsb _ _); discriminate.
Qed.

Lemma newUint8Array_Some (n : Z) :
  (0 <= n)%Z -> newUint8Array n = Some (replicate (Z.to_nat n) 0%Z).
Proof.
  intros Hn. unfold newUint8Array. now destruct (Z.ltb_spec n 0); [lia|].
Qed.


Lemma rasterize_Some (mapInfo : MapInfo) (objects : list MapObject) :
  (0 <= gridWidth mapInfo * gridHeight mapInfo)%Z ->
  rasterize mapInfo objects =
  Some (foldl (rasterizeObject mapInfo)
          (replicate (Z.to_nat (gridWidth mapInfo * gridHeight mapInfo)) 254%Z)
          objects).
Proof.
  intros Hn. unfold rasterize. rewrite newUint8Array_Some by done. cbn.
  unfold fill. now rewrite length_replicate.
Qed.


Lemma existsb_Permutation {A : Type} (f : A -> bool) (l l' : list A) :
  l ≡ₚ l' -> existsb f l = existsb f l'.
Proof.
  induction 1 as [|a l l' _ IH|a b l|l l' l'' _ IH1 _ IH2]; cbn.
  - reflexivity.
  - now rewrite IH.
  - destruct (f a), (f b); reflexivity.
  - congruence.
Qed.





(** ** Order of the objects *)

(** C2.  For a map with positive resolution, rasterizing a permutation of
    the object list gives the same outcome, cell for cell. *)
Theorem rasterize_permutation (mapInfo : MapInfo)
    (objects objects' : list MapObject) :
  (0 < resolution mapInfo)%R ->
  objects ≡ₚ objects' ->
  rasterize mapInfo objects = rasterize mapInfo objects'.
Proof.
  intros _ Hperm. unfold rasterize.
  destruct (newUint8Array _) as [grid|]; cbn; [|done].
  f_equal. apply list_eq. intros k.
  rewrite !rasterizeObjects_lookup.
  now rewrite (existsb_Permutation _ _ _ Hperm).
Qed.

(** ** Robots and landmarks *)




(** ** The bounding box contains the shape, in exact arithmetic *)

Lemma foldl_Rmin_le_init (l : list R) (a : R) : (foldl Rmin a l <= a)%R.
Proof.
  revert a. induction l as [|b l IH]; intros a; cbn; [lra|].
  etransitivity; [apply IH|]. apply Rmin_l.
Qed.

Lemma foldl_Rmin_le_elem (l : list R) (a v : R) :
  v ∈ l -> (foldl Rmin a l <= v)%R.
Proof.
  revert a. induction l as [|b l IH]; intros a Hv; cbn.
  - now apply elem_of_nil in Hv.
  - apply elem_of_cons in Hv as [->|Hv]; [|now apply IH].
    etransitivity; [apply foldl_Rmin_le_init|]. apply Rmin_r.
Qed.

Lemma foldl_Rmax_ge_init (l : list R) (a : R) : (a <= foldl Rmax a l)%R.
Proof.
  revert a. induction l as [|b l IH]; intros a; cbn; [lra|].
  etransitivity; [|apply IH]. apply Rmax_l.
Qed.

Lemma foldl_Rmax_ge_elem (l : list R) (a v : R) :
  v ∈ l -> (v <= foldl Rmax a l)%R.
Proof.
  revert a. induction l as [|b l IH]; intros a Hv; cbn.
  - now apply elem_of_nil in Hv.
  - apply elem_of_cons in Hv as [->|Hv]; [|now apply IH].
    etransitivity; [|apply foldl_Rmax_ge_init]. apply Rmax_r.
Qed.

Lemma minimum_le (l : list R) (m v : R) :
  minimum l = Some m -> v ∈ l -> (m <= v)%R.
Proof.
  destruct l as [|a l]; cbn; [done|]. intros [= <-] Hv.
  apply elem_of_cons in Hv as [->|Hv].
  - apply foldl_Rmin_le_init.
  - now apply foldl_Rmin_le_elem.
Qed.

Lemma maximum_ge (l : list R) (m v : R) :
  maximum l = Some m -> v ∈ l -> (v <= m)%R.
Proof.
  destruct l as [|a l]; cbn; [done|]. intros [= <-] Hv.
  apply elem_of_cons in Hv as [->|Hv].
  - apply foldl_Rmax_ge_init.
  - now apply foldl_Rmax_ge_elem.
Qed.

(** The box of a non-empty list of points exists and contains each of
    them. *)
Lemma boundsOfPoints_Some (pts : list (R * R)) :
  pts <> [] -> exists b, boundsOfPoints pts = Some b.
Proof.
  destruct pts as [|p pts]; [done|]. intros _. cbn. eauto.
Qed.

Lemma boundsOfPoints_contains (pts : list (R * R)) (b : Bounds) (p : R * R) :
  boundsOfPoints pts = Some b -> p ∈ pts ->
  (minX b <= p.1 <= maxX b /\ minY b <= p.2 <= maxY b)%R.
Proof.
  unfold boundsOfPoints. intros Hb Hp.
  destruct (minimum (pts.*1)) as [x0|] eqn:Hx0; cbn in Hb; [|done].
  destruct (maximum (pts.*1)) as [x1|] eqn:Hx1; cbn in Hb; [|done].
  destruct (minimum (pts.*2)) as [y0|] eqn:Hy0; cbn in Hb; [|done].
  destruct (maximum (pts.*2)) as [y1|] eqn:Hy1; cbn in Hb; [|done].
  injection Hb as <-. cbn.
  assert (p.1 ∈ pts.*1) by now apply list_elem_of_fmap_2.
  assert (p.2 ∈ pts.*2) by now apply list_elem_of_fmap_2.
  repeat split; eauto using minimum_le, maximum_ge.
Qed.

Lemma circle_in_bounds (point : Point) (center : R * R) (radius : R) :
  isPointInShape point (Circle center radius) = true ->
  exists b, shapeBounds (Circle center radius) = Some b /\ inBounds b point.
Proof.
  cbn. intros Hin. apply bool_decide_eq_true in Hin.
  eexists. split; [reflexivity|]. unfold inBounds. cbn.
  set (dx := (x point - center.1)%R) in *.
  set (dy := (y point - center.2)%R) in *.
  pose proof (sqrt_pos (dx * dx + dy * dy)) as Hpos.
  pose proof (sqrt_sqrt (dx * dx + dy * dy)) as Hsq.
  assert (0 <= dx * dx + dy * dy)%R as Hnn by nra.
  specialize (Hsq Hnn).
  set (s := sqrt (dx * dx + dy * dy)) in *.
  assert (- s <= dx <= s)%R by (split; nra).
  assert (- s <= dy <= s)%R by (split; nra).
  clearbody s. unfold dx, dy in *. lra.
Qed.

(** A product [u * c] with [|u| <= a] lies between [- a * |c|] and
    [a * |c|]. *)
Lemma product_bounds (u a c : R) :
  (- a <= u <= a)%R ->
  (0 <= c /\ - a * c <= u * c <= a * c \/
   c <= 0 /\ a * c <= u * c <= - a * c)%R.
Proof.
  intros Hu. destruct (Rle_dec 0 c); [left|right]; split; nra.
Qed.

Lemma rectangle_in_bounds (point : Point) (center : R * R)
    (width height : R) (rotation : option R) :
  isPointInShape point (Rectangle center width height rotation) = true ->
  exists b,
    shapeBounds (Rectangle center width height rotation) = Some b /\
    inBounds b point.
Proof.
  intros Hin.
  destruct (boundsOfPoints_Some
    ((fun c : R * R =>
        (center.1 + (c.1 * cos (- default 0 rotation) -
                     c.2 * sin (- default 0 rotation)),
         center.2 + (c.1 * sin (- default 0 rotation) +
                     c.2 * cos (- default 0 rotation)))%R) <$>
     [ (- width / 2, - height / 2); (width / 2, - height / 2);
       (width / 2, height / 2); (- width / 2, height / 2) ]%R))
    as [b Hb]; [done|].
  exists b. split; [exact Hb|].
  pose proof (fun p => boundsOfPoints_contains _ b p Hb) as Hcorner.
  cbn in Hin. apply andb_bool_decide in Hin as [Hu Hv].
  apply Rabs_le_iff in Hu. apply Rabs_le_iff in Hv.
  pose proof (sin2_cos2 (- default 0 rotation)%R) as Hcs. unfold Rsqr in Hcs.
  cbn [fmap list_fmap] in Hcorner.
  set (c := cos (- default 0 rotation)%R) in *.
  set (s := sin (- default 0 rotation)%R) in *.
  set (dx := (x point - center.1)%R) in *.
  set (dy := (y point - center.2)%R) in *.
  set (u := (dx * c - dy * s)%R) in *.
  set (v := (dx * s + dy * c)%R) in *.
  assert (Hdx : dx = (u * c + v * s)%R).
  { unfold u, v. transitivity (dx * (s * s + c * c))%R; [rewrite Hcs|]; ring. }
  assert (Hdy : dy = (- u * s + v * c)%R).
  { unfold u, v. transitivity (dy * (s * s + c * c))%R; [rewrite Hcs|]; ring. }
  pose proof (Hcorner _ ltac:(apply list_elem_of_here)) as H1.
  pose proof (Hcorner _ ltac:(apply list_elem_of_further, list_elem_of_here))
    as H2.
  pose proof (Hcorner _ ltac:(do 2 apply list_elem_of_further;
                              apply list_elem_of_here)) as H3.
  pose proof (Hcorner _ ltac:(do 3 apply list_elem_of_further;
                              apply list_elem_of_here)) as H4.
  clear Hcorner Hb. cbn in H1, H2, H3, H4.
  unfold inBounds.
  replace (x point) with (center.1 + dx)%R by (unfold dx; ring).
  replace (y point) with (center.2 + dy)%R by (unfold dy; ring).
  rewrite Hdx, Hdy.
  clearbody u v c s. clear Hdx Hdy dx dy Hcs.
  destruct (product_bounds u (width / 2) c Hu) as [[? ?]|[? ?]],
           (product_bounds v (height / 2) s Hv) as [[? ?]|[? ?]],
           (product_bounds u (width / 2) s Hu) as [[? ?]|[? ?]],
           (product_bounds v (height / 2) c Hv) as [[? ?]|[? ?]];
    lra.
Qed.

Lemma intersect_R (px py : R) (vi vj : R * R) :
  intersect px py vi vj =
  xorb (above py vi) (above py vj) &&
  bool_decide (px < abscissa py vi vj)%R.
Proof.
  unfold intersect, above, abscissa. cbn.
  now destruct (bool_decide (vi.2 > py)%R), (bool_decide (vj.2 > py)%R).
Qed.

(** An edge that straddles the ray meets it between its two ends. *)
Lemma abscissa_between (py : R) (vi vj : R * R) :
  xorb (above py vi) (above py vj) = true ->
  (Rmin vi.1 vj.1 <= abscissa py vi vj <= Rmax vi.1 vj.1)%R.
Proof.
  destruct vi as [xi yi], vj as [xj yj]. unfold above, abscissa. cbn.
  intros Hx.
  assert (Hcases : (yj <= py < yi \/ yi <= py < yj)%R).
  { destruct (bool_decide (yi > py)%R) eqn:Ei,
             (bool_decide (yj > py)%R) eqn:Ej; cbn in Hx; try discriminate.
    - apply bool_decide_eq_true in Ei. apply bool_decide_eq_false in Ej.
      left. lra.
    - apply bool_decide_eq_false in Ei. apply bool_decide_eq_true in Ej.
      right. lra. }
  set (t := ((py - yi) / (yj - yi))%R).
  assert (Ht : (t * (yj - yi) = py - yi)%R) by (unfold t; field; lra).
  assert (Ht01 : (0 <= t <= 1)%R) by (split; nra).
  replace ((xj - xi) * (py - yi) / (yj - yi) + xi)%R
    with (xi + (xj - xi) * t)%R by (unfold t; field; lra).
  clearbody t. clear Ht Hcases Hx.
  unfold Rmin, Rmax. destruct (Rle_dec xi xj); split; nra.
Qed.

Lemma polygonLoop_no_intersect (px py : R) (vj : R * R)
    (vs : list (R * R)) (inside : bool) :
  (forall vi vj', vi ∈ vj :: vs -> vj' ∈ vj :: vs ->
     intersect px py vi vj' = false) ->
  polygonLoop px py vj vs inside = inside.
Proof.
  revert vj inside. induction vs as [|vi rest IH]; intros vj inside Hno; cbn.
  - reflexivity.
  - rewrite Hno by (repeat constructor).
    apply IH. intros a b Ha Hb. apply Hno; now constructor.
Qed.

(** When every straddling edge counts as crossed, the flag records
    whether the two ends of the path lie on different sides of the ray. *)
Lemma polygonLoop_parity (px py : R) (vj vz : R * R)
    (vs : list (R * R)) (inside : bool) :
  (forall vi vj', vi ∈ vj :: vs -> vj' ∈ vj :: vs ->
     intersect px py vi vj' = xorb (above py vi) (above py vj')) ->
  last (vj :: vs) = Some vz ->
  polygonLoop px py vj vs inside =
  xorb inside (xorb (above py vj) (above py vz)).
Proof.
  revert vj inside.
  induction vs as [|vi rest IH]; intros vj inside Hall Hlast; cbn.
  - injection Hlast as <-. now destruct inside, (above py vj).
  - rewrite last_cons_cons in Hlast.
    rewrite (IH vi) by (try done; intros a b Ha Hb; apply Hall; now constructor).
    rewrite Hall by (repeat constructor).
    destruct inside, (above py vi), (above py vj), (above py vz); reflexivity.
Qed.

Lemma polygon_in_bounds (point : Point) (vertices : list (R * R)) :
  inPolygon (x point) (y point) vertices = true ->
  exists b, boundsOfPoints vertices = Some b /\ inBounds b point.
Proof.
  unfold inPolygon. intros Hin.
  destruct (last vertices) as [vlast|] eqn:Hlast; [|done].
  assert (Hne : vertices <> []) by (intros ->; discriminate).
  destruct (boundsOfPoints_Some vertices Hne) as [b Hb].
  exists b. split; [exact Hb|].
  pose proof (fun p => boundsOfPoints_contains _ b p Hb) as Hbox.
  assert (Hvl : vlast ∈ vertices) by now apply last_Some_elem_of.
  assert (Hmem : forall v, v ∈ vlast :: vertices -> v ∈ vertices).
  { intros v Hv. apply elem_of_cons in Hv as [->|Hv]; done. }
  assert (Hcontra : forall a c : R,
            (~ (a <= c)%R ->
             polygonLoop (x point) (y point) vlast vertices false = false)
            -> (a <= c)%R).
  { intros a c HP. destruct (Rle_dec a c) as [|HnP]; [done|].
    rewrite (HP HnP) in Hin. discriminate. }
  unfold inBounds. repeat split; apply Hcontra; intros Hout.
  - (* left of the box: every straddling edge is crossed *)
    rewrite (polygonLoop_parity _ _ vlast vlast).
    + now destruct (above (y point) vlast).
    + intros vi vj Hi Hj. rewrite intersect_R.
      destruct (xorb (above (y point) vi) (above (y point) vj)) eqn:Hx;
        [|done].
      cbn. apply bool_decide_eq_true.
      pose proof (abscissa_between _ _ _ Hx) as [Hlo _].
      pose proof (Hbox vi (Hmem _ Hi)) as [[? _] _].
      pose proof (Hbox vj (Hmem _ Hj)) as [[? _] _].
      revert Hlo. unfold Rmin. destruct (Rle_dec _ _); lra.
    + destruct vertices; [done|]. now rewrite last_cons_cons.
  - (* right of the box: no edge is crossed *)
    apply polygonLoop_no_intersect. intros vi vj Hi Hj. rewrite intersect_R.
    destruct (xorb (above (y point) vi) (above (y point) vj)) eqn:Hx; [|done].
    cbn. apply bool_decide_eq_false.
    pose proof (abscissa_between _ _ _ Hx) as [_ Hhi].
    pose proof (Hbox vi (Hmem _ Hi)) as [[_ ?] _].
    pose proof (Hbox vj (Hmem _ Hj)) as [[_ ?] _].
    revert Hhi. unfold Rmax. destruct (Rle_dec _ _); lra.
  - (* below the box: every vertex is above the ray *)
    apply polygonLoop_no_intersect. intros vi vj Hi Hj. rewrite intersect_R.
    pose proof (Hbox vi (Hmem _ Hi)) as [_ [? _]].
    pose proof (Hbox vj (Hmem _ Hj)) as [_ [? _]].
    unfold above. rewrite !bool_decide_eq_true_2 by lra. done.
  - (* above the box: no vertex is above the ray *)
    apply polygonLoop_no_intersect. intros vi vj Hi Hj. rewrite intersect_R.
    pose proof (Hbox vi (Hmem _ Hi)) as [_ [_ ?]].
    pose proof (Hbox vj (Hmem _ Hj)) as [_ [_ ?]].
    unfold above. rewrite !bool_decide_eq_false_2 by lra. done.
Qed.

(** Every point of a shape lies in the box the rasterizer scans. *)
Lemma shape_in_bounds (point : Point) (shape : Shape) :
  isPointInShape point shape = true ->
  exists b, shapeBounds shape = Some b /\ inBounds b point.
Proof.
  destruct shape as [c r|c w h rot|vs|vs|tag].
  - apply circle_in_bounds.
  - apply rectangle_in_bounds.
  - apply polygon_in_bounds.
  - apply polygon_in_bounds.
  - discriminate.
Qed.

(** ** The scan of the box against the scan of the grid *)

Lemma Rdiv_le_upper (a c t : R) : (0 < c -> a <= t * c -> a / c <= t)%R.
Proof.
  intros Hc Ha. assert (a / c * c = a)%R by (field; lra). nra.
Qed.

Lemma Rdiv_ge_lower (a c t : R) : (0 < c -> t * c <= a -> t <= a / c)%R.
Proof.
  intros Hc Ha. assert (a / c * c = a)%R by (field; lra). nra.
Qed.

Lemma Zfloor_le_cell (q : R) (n : Z) : (q <= IZR n + 0.5)%R -> (Zfloor q <= n)%Z.
Proof.
  intros Hq. pose proof (Zfloor_bound q) as [Hlo _].
  assert (IZR (Zfloor q) < IZR (n + 1))%R by (rewrite plus_IZR; lra).
  apply lt_IZR in H. lia.
Qed.

Lemma cell_le_Zfloor (q : R) (n : Z) : (IZR n + 0.5 <= q)%R -> (n <= Zfloor q)%Z.
Proof.
  intros Hq. apply Zfloor_lub. lra.
Qed.

(** A cell whose centre lies in the box is visited by the two loops. *)
Lemma center_in_scanned_range (mapInfo : MapInfo) (b : Bounds) (cx cy : Z) :
  (0 < resolution mapInfo)%R ->
  inBounds b (cellCenter mapInfo cx cy) ->
  (gridX (worldToGrid mapInfo (minX b) (minY b)) <= cx
     <= gridX (worldToGrid mapInfo (maxX b) (maxY b)) /\
   gridY (worldToGrid mapInfo (minX b) (minY b)) <= cy
     <= gridY (worldToGrid mapInfo (maxX b) (maxY b)))%Z.
Proof.
  intros Hres [[Hx0 Hx1] [Hy0 Hy1]]. cbn in *.
  repeat split.
  - apply Zfloor_le_cell, Rdiv_le_upper; lra.
  - apply cell_le_Zfloor, Rdiv_ge_lower; lra.
  - apply Zfloor_le_cell, Rdiv_le_upper; lra.
  - apply cell_le_Zfloor, Rdiv_ge_lower; lra.
Qed.

Lemma existsb_true_iff {A : Type} (f : A -> bool) (l : list A) :
  existsb f l = true <-> exists a, a ∈ l /\ f a = true.
Proof.
  rewrite existsb_exists. setoid_rewrite list_elem_of_In. reflexivity.
Qed.

Lemma seqZ_range (lo hi n : Z) :
  n ∈ seqZ lo (hi - lo + 1) <-> (lo <= n <= hi)%Z.
Proof.
  rewrite elem_of_seqZ. lia.
Qed.

(** An object writes the index of a cell of the grid exactly when it is
    not skipped and its shape contains the centre of that cell. *)
Lemma marks_cell (mapInfo : MapInfo) (obj : MapObject) (cx cy : Z) :
  (0 < resolution mapInfo)%R ->
  inGrid mapInfo cx cy = true ->
  marks mapInfo obj (Z.to_nat (cellIndex mapInfo cx cy)) =
  negb (skipped obj) &&
  isPointInShape (cellCenter mapInfo cx cy) (shape obj).
Proof.
  intros Hres Hin. unfold marks. f_equal.
  apply eq_true_iff_eq. split.
  - destruct (shapeBounds (shape obj)) as [b|]; [|done]. cbn zeta.
    rewrite existsb_true_iff. intros (gy & _ & Hrow).
    unfold marksRow in Hrow. apply existsb_true_iff in Hrow as (gx & _ & Hcell).
    unfold marksCell in Hcell.
    apply andb_true_iff in Hcell as [Hcell Hidx].
    apply andb_true_iff in Hcell as [Hinside Hin'].
    apply bool_decide_eq_true in Hidx.
    pose proof (cellIndex_nonneg _ _ _ Hin).
    pose proof (cellIndex_nonneg _ _ _ Hin').
    apply Z2Nat.inj in Hidx; [|done..].
    destruct (cellIndex_inj _ _ _ _ _ Hin' Hin Hidx) as [-> ->]. done.
  - intros Hinside.
    destruct (shape_in_bounds _ _ Hinside) as (b & -> & Hb). cbn zeta.
    destruct (center_in_scanned_range _ _ _ _ Hres Hb) as [Hx Hy].
    apply existsb_true_iff. exists cy. split; [now apply seqZ_range|].
    apply existsb_true_iff. exists cx. split; [now apply seqZ_range|].
    unfold marksCell. rewrite Hinside, Hin. cbn.
    now apply bool_decide_eq_true.
Qed.

Lemma bind_singleton_fmap {A B : Type} (f : A -> B) (l : list A) :
  l ≫= (fun a => [f a]) = f <$> l.
Proof.
  induction l as [|a l IH]; [done|]. rewrite bind_cons, IH. done.
Qed.

Lemma bind_length_same {A B : Type} (g : A -> list B) (n : nat) (l : list A) :
  (forall a, length (g a) = n) -> length (l ≫= g) = (length l * n)%nat.
Proof.
  intros Hg. induction l as [|a l IH]; [done|].
  rewrite bind_cons, length_app, IH, Hg. cbn. lia.
Qed.

Lemma bind_lookup_same {A B : Type} (g : A -> list B) (n : nat)
    (l : list A) (j i : nat) (a : A) :
  (forall a, length (g a) = n) -> (i < n)%nat -> l !! j = Some a ->
  (l ≫= g) !! (j * n + i)%nat = g a !! i.
Proof.
  intros Hg Hi. revert j. induction l as [|a' l IH]; intros j Hj; [done|].
  rewrite bind_cons. destruct j as [|j]; cbn in Hj.
  - injection Hj as ->. apply lookup_app_l. rewrite Hg. exact Hi.
  - rewrite lookup_app_r by (rewrite Hg; cbn; lia).
    rewrite Hg. replace (S j * n + i - n)%nat with (j * n + i)%nat by (cbn; lia).
    now apply IH.
Qed.

Lemma referenceGrid_length (mapInfo : MapInfo) (objects : list MapObject) :
  length (referenceGrid mapInfo objects) =
  (Z.to_nat (gridHeight mapInfo) * Z.to_nat (gridWidth mapInfo))%nat.
Proof.
  unfold referenceGrid.
  rewrite (bind_length_same _ (Z.to_nat (gridWidth mapInfo))).
  - now rewrite length_seqZ.
  - intros gy. rewrite bind_singleton_fmap, length_fmap. apply length_seqZ.
Qed.

Lemma referenceGrid_lookup (mapInfo : MapInfo) (objects : list MapObject)
    (cx cy : Z) :
  inGrid mapInfo cx cy = true ->
  referenceGrid mapInfo objects !! Z.to_nat (cellIndex mapInfo cx cy) =
  Some (if referenceOccupied mapInfo objects cx cy then 0%Z else 254%Z).
Proof.
  intros Hin. apply inGrid_spec in Hin as [Hx Hy].
  unfold referenceGrid, cellIndex.
  replace (Z.to_nat (cy * gridWidth mapInfo + cx))
    with (Z.to_nat cy * Z.to_nat (gridWidth mapInfo) + Z.to_nat cx)%nat
    by nia.
  rewrite (bind_lookup_same _ (Z.to_nat (gridWidth mapInfo)) _ _ _ cy).
  - rewrite bind_singleton_fmap, list_lookup_fmap.
    rewrite lookup_seqZ_lt by lia. cbn. now rewrite Z2Nat.id by lia.
  - intros gy. rewrite bind_singleton_fmap, length_fmap. apply length_seqZ.
  - lia.
  - rewrite lookup_seqZ_lt by lia. f_equal. lia.
Qed.

Lemma referenceOccupied_marks (mapInfo : MapInfo) (objects : list MapObject)
    (cx cy : Z) :
  (0 < resolution mapInfo)%R ->
  inGrid mapInfo cx cy = true ->
  existsb (fun obj => marks mapInfo obj (Z.to_nat (cellIndex mapInfo cx cy)))
    objects =
  referenceOccupied mapInfo objects cx cy.
Proof.
  intros Hres Hin. unfold referenceOccupied.
  induction objects as [|obj objects IH]; [done|]. cbn.
  rewrite IH, marks_cell by done. f_equal. f_equal.
  unfold skipped. now rewrite negb_orb.
Qed.

(** In exact arithmetic the rasterizer returns the grid of the
    full-grid scan, as soon as the grid has no negative dimension: over
    the reals the box holds every cell whose centre the shape contains.
    (In binary64 it need not, see [ScanFacts] below.) *)
Lemma rasterize_is_reference (mapInfo : MapInfo) (objects : list MapObject) :
  (0 < resolution mapInfo)%R ->
  (0 <= gridWidth mapInfo)%Z -> (0 <= gridHeight mapInfo)%Z ->
  rasterize mapInfo objects = Some (referenceGrid mapInfo objects).
Proof.
  intros Hres Hw Hh. rewrite rasterize_Some by nia. f_equal.
  apply (list_eq_same_length _ _
    (Z.to_nat (gridWidth mapInfo * gridHeight mapInfo))).
  - rewrite referenceGrid_length. nia.
  - now rewrite rasterizeObjects_length, length_replicate.
  - intros k v v' Hk Hv Hv'.
    set (cx := (Z.of_nat k mod gridWidth mapInfo)%Z).
    set (cy := (Z.of_nat k / gridWidth mapInfo)%Z).
    assert (0 < gridWidth mapInfo)%Z as Hwpos by nia.
    assert (Hin : inGrid mapInfo cx cy = true).
    { apply inGrid_spec. unfold cx, cy. split.
      - now apply Z.mod_pos_bound.
      - split; [apply Z.div_pos; lia|].
        apply Z.div_lt_upper_bound; nia. }
    assert (Hidx : k = Z.to_nat (cellIndex mapInfo cx cy)).
    { unfold cellIndex, cx, cy.
      rewrite (Z.mul_comm (_ / _)), <- Z.div_mod by lia. lia. }
    rewrite Hidx in Hv, Hv'.
    rewrite referenceGrid_lookup in Hv' by done.
    rewrite rasterizeObjects_lookup, referenceOccupied_marks in Hv by done.
    rewrite <- Hidx, lookup_replicate_2 in Hv by done.
    destruct (referenceOccupied mapInfo objects cx cy); cbn in Hv; congruence.
Qed.

Lemma demoMap_gridWidth : gridWidth demoMap = 2%Z.
Proof. unfold gridWidth. cbn. apply Zceil_eq. lra. Qed.

Lemma demoMap_gridHeight : gridHeight demoMap = 2%Z.
Proof. unfold gridHeight. cbn. apply Zceil_eq. lra. Qed.

Lemma rasterize_permutation_witness :
  rasterize demoMap [demoWall; demoRobot; demoPillar] =
  rasterize demoMap [demoPillar; demoWall; demoRobot].
Proof.
  apply rasterize_permutation; [cbn; lra|].
  change ([demoWall; demoRobot] ++ [demoPillar] ≡ₚ
          [demoPillar] ++ [demoWall; demoRobot]).
  apply Permutation_app_comm.
Defined.


(** ** The rasterizer on binary64 numbers *)

Module ScanFacts.
Import PrimFloat Double.
#[local] Open Scope float_scope.

Lemma foldlM_pure {A B : Type} (f : A -> B -> A) (l : list B) (a : A) :
  foldlM (fun a b => Some (f a b)) a l = Some (foldl f a l).
Proof.
  revert a. induction l as [|b l IH]; intros a; cbn; [done|]. apply IH.
Qed.

Lemma foldlM_ext {A B : Type} (f : A -> B -> option A) (g : A -> B -> A)
    (l : list B) (a : A) :
  (forall a b, b ∈ l -> f a b = Some (g a b)) ->
  foldlM f a l = Some (foldl g a l).
Proof.
  revert a. induction l as [|b l IH]; intros a Hf; cbn; [done|].
  rewrite Hf by (apply elem_of_cons; now left). cbn.
  apply IH. intros a' b' Hb'. apply Hf. apply elem_of_cons. now right.
Qed.




(** The number of cells along an axis of extent [extent >= 0] at a
    resolution [resolution > 0]: an integer that is not negative, unless
    the quotient overflows or is not a number. *)
Lemma cells_of_data_model (extent resolution : float) :
  (0 <? resolution) = true -> (0 <=? extent) = true ->
  match Math.ceil (extent / resolution) with
  | Int cells => (0 <= cells)%Z
  | NaN => True
  | Infinity negative => negative = false
  end.
Proof.
  rewrite FloatAxioms.ltb_spec, FloatAxioms.leb_spec.
  unfold Math.ceil. rewrite FloatAxioms.div_spec.
  change (FloatOps.Prim2SF 0) with (SpecFloat.S754_zero false).
  destruct (FloatOps.Prim2SF resolution) as [sr|sr| |sr mr er];
    try discriminate;
    (destruct sr; try discriminate); intros _;
    (destruct (FloatOps.Prim2SF extent) as [se|se| |se me ee];
     try discriminate; try (destruct se; try discriminate));
    intros _; try done.
  unfold FloatAxioms.SF64div, SpecFloat.SFdiv.
  match goal with
  | |- context [SpecFloat.SFdiv_core_binary ?p ?q ?a ?b ?c ?d] =>
      destruct (SpecFloat.SFdiv_core_binary p q a b c d) as [[mz ez] lz]
  end.
  unfold SpecFloat.binary_round_aux.
  match goal with
  | |- context [SpecFloat.shr_fexp ?p ?q mz ez lz] =>
      destruct (SpecFloat.shr_fexp p q mz ez lz) as [mrs' e']
  end.
  match goal with
  | |- context [SpecFloat.shr_fexp ?p ?q ?m ?e ?l] =>
      destruct (SpecFloat.shr_fexp p q m e l) as [mrs'' e'']
  end.
  cbn [xorb].
  destruct (SpecFloat.shr_m mrs'') as [|m|m]; [done| |done].
  destruct (e'' <=? _)%Z; [|done].
  cbn [signedMantissa].
  assert (Z.shiftl (- Z.pos m) e'' < 0)%Z; [|lia].
  apply Z.nle_gt. rewrite Z.shiftl_nonneg. lia.
Qed.

(** The loops over a box with integer ends between [-2^53] and [2^53]
    are followed. *)
Lemma followed_safe (cos sin : float -> float) (mapInfo : MapInfo)
    (shape : Shape) (x0 x1 y0 y1 : Z) :
  let b := shapeBounds cos sin shape in
  worldToGrid mapInfo (minX b) (minY b) = {| gridX := Int x0; gridY := Int y0 |} ->
  worldToGrid mapInfo (maxX b) (maxY b) = {| gridX := Int x1; gridY := Int y1 |} ->
  (- 2 ^ 53 <= x0)%Z -> (- 2 ^ 53 <= y0)%Z ->
  (x1 < 2 ^ 53)%Z -> (y1 < 2 ^ 53)%Z ->
  followed cos sin mapInfo shape = true.
Proof.
  intros b Hmin Hmax Hx0 Hy0 Hx1 Hy1. unfold followed. fold b.
  cbn zeta. rewrite Hmin, Hmax. cbn [gridX gridY]. unfold range.
  destruct (Z.ltb_spec y1 y0); [done|].
  destruct (Z.leb_spec (- 2 ^ 53) y0); [|lia].
  destruct (Z.ltb_spec y1 (2 ^ 53)); [|lia]. cbn [andb].
  destruct (seqZ y0 (y1 - y0 + 1)); [done|].
  apply bool_decide_eq_true.
  destruct (Z.ltb_spec x1 x0); [eauto|].
  destruct (Z.leb_spec (- 2 ^ 53) x0); [|lia].
  destruct (Z.ltb_spec x1 (2 ^ 53)); [|lia]. cbn [andb]. eauto.
Qed.

Section Scan.
Variables cos sin : float -> float.
Variable mapInfo : MapInfo.

Lemma rasterizeObject_followed (grid : list Z) (obj : MapObject) :
  skipped obj = true \/ followed cos sin mapInfo (shape obj) = true ->
  rasterizeObject cos sin mapInfo grid obj =
  Some (scanObject cos sin mapInfo grid obj).
Proof.
  unfold rasterizeObject, scanObject, followed, forRange, counters.
  destruct (skipped obj); [done|]. intros [|Hf]; [done|]. cbn zeta in *.
  set (ry := range (gridY _) (gridY _)) in *.
  set (rx := range (gridX _) (gridX _)) in *.
  destruct ry as [ys|]; [|done].
  destruct ys as [|gy ys]; [done|].
  apply bool_decide_eq_true in Hf as [xs Hxs]. rewrite Hxs.
  cbn [default mbind option_bind].
  apply foldlM_ext. intros g gy' _. apply foldlM_pure.
Qed.


Variables gw gh : Z.
Hypothesis Hgw : gridWidth mapInfo = Int gw.
Hypothesis Hgh : gridHeight mapInfo = Int gh.






Lemma lookup_length_eq {A : Type} (a b : list A) :
  (forall k, is_Some (a !! k) <-> is_Some (b !! k)) -> length a = length b.
Proof.
  intros H. apply Nat.le_antisymm.
  - destruct (decide (length a <= length b)%nat) as [|Hgt]; [done|].
    assert (is_Some (a !! length b)) as Hs by (apply lookup_lt_is_Some_2; lia).
    apply H, lookup_lt_is_Some_1 in Hs. lia.
  - destruct (decide (length b <= length a)%nat) as [|Hgt]; [done|].
    assert (is_Some (b !! length a)) as Hs by (apply lookup_lt_is_Some_2; lia).
    apply H, lookup_lt_is_Some_1 in Hs. lia.
Qed.








End Scan.







Section Outcome.
Variables cos sin : float -> float.
Variable mapInfo : MapInfo.

(** The callback ends without a result exactly on an object that is
    neither skipped nor followed, whatever the grid. *)
Lemma rasterizeObject_outcome (grid : list Z) (obj : MapObject) :
  rasterizeObject cos sin mapInfo grid obj =
  if skipped obj || followed cos sin mapInfo (shape obj)
  then Some (scanObject cos sin mapInfo grid obj) else None.
Proof.
  destruct (skipped obj || followed cos sin mapInfo (shape obj)) eqn:Hok.
  - apply rasterizeObject_followed. now apply orb_true_iff.
  - apply orb_false_iff in Hok as [Hskip Hf].
    unfold rasterizeObject, followed, forRange in *. rewrite Hskip.
    cbn zeta in *.
    set (ry := range (gridY _) (gridY _)) in *.
    set (rx := range (gridX _) (gridX _)) in *.
    destruct ry as [[|gy ys]|]; [done| |done].
    apply bool_decide_eq_false in Hf.
    destruct rx as [xs|]; [destruct Hf; eauto|]. reflexivity.
Qed.

Lemma rasterizeObjects_outcome (objects : list MapObject) (grid : list Z) :
  foldlM (rasterizeObject cos sin mapInfo) grid objects =
  if forallb (fun obj => skipped obj || followed cos sin mapInfo (shape obj))
       objects
  then Some (foldl (scanObject cos sin mapInfo) grid objects) else None.
Proof.
  revert grid. induction objects as [|obj objects IH]; intros grid; [done|].
  cbn [foldlM forallb foldl]. rewrite rasterizeObject_outcome.
  destruct (skipped obj || followed cos sin mapInfo (shape obj)); [|done].
  cbn [mbind option_bind andb]. apply IH.
Qed.

(** Each object overwrites with 0 a set of indices that depends on the
    object only. *)
Lemma scanObject_overwrites :
  exists W : MapObject -> nat -> bool,
    forall (grid : list Z) (obj : MapObject) (k : nat),
      scanObject cos sin mapInfo grid obj !! k =
      if W obj k then (fun _ => 0%Z) <$> grid !! k else grid !! k.
Proof.
  destruct (gridWidth mapInfo) as [gw| |negative] eqn:Hgw.
  - exists (marks cos sin mapInfo). intros grid obj k.
    unfold scanObject, marks. destruct (skipped obj); cbn [negb andb]; [done|].
    apply (foldl_overwrite _
      (fun gy k => existsb
         (fun gx => marksCell cos sin mapInfo (shape obj) gy gx k) _)).
    intros g gy k'.
    apply (foldl_overwrite _ (marksCell cos sin mapInfo (shape obj) gy)).
    intros g' gx k''.
    unfold rasterizeCell, marksCell. fold (cellCenter mapInfo gx gy).
    destruct (isPointInShape _ _ _ _); cbn [andb]; [|done].
    unfold setGridCell. fold (inGrid mapInfo gx gy).
    destruct (inGrid mapInfo gx gy) eqn:Hin; cbn [andb]; [|done].
    rewrite Hgw. unfold cellIndex. rewrite Hgw. cbn [extent].
    apply store_lookup.
    unfold inGrid in Hin. rewrite Hgw in Hin. cbn [ltInt] in Hin.
    rewrite !andb_true_iff, !Z.leb_le, Z.ltb_lt in Hin. nia.
  - exists (fun _ _ => false). intros grid obj k. f_equal.
    unfold scanObject. destruct (skipped obj); [done|]. cbn zeta.
    generalize (counters (gridY (worldToGrid mapInfo
      (minX (shapeBounds cos sin (shape obj)))
      (minY (shapeBounds cos sin (shape obj)))))
      (gridY (worldToGrid mapInfo
      (maxX (shapeBounds cos sin (shape obj)))
      (maxY (shapeBounds cos sin (shape obj)))))) as ys.
    generalize (counters (gridX (worldToGrid mapInfo
      (minX (shapeBounds cos sin (shape obj)))
      (minY (shapeBounds cos sin (shape obj)))))
      (gridX (worldToGrid mapInfo
      (maxX (shapeBounds cos sin (shape obj)))
      (maxY (shapeBounds cos sin (shape obj)))))) as xs.
    intros xs ys. revert grid.
    assert (Hcell : forall gy g gx,
              rasterizeCell cos sin mapInfo (shape obj) gy g gx = g).
    { intros gy g gx. unfold rasterizeCell, setGridCell. rewrite Hgw.
      cbn [ltInt]. rewrite andb_false_r. cbn [andb].
      now destruct (isPointInShape _ _ _ _). }
    assert (Hrow : forall gy g,
              foldl (rasterizeCell cos sin mapInfo (shape obj) gy) g xs = g).
    { intros gy g. revert g. induction xs as [|gx xs IH]; intros g; [done|].
      cbn [foldl]. now rewrite Hcell. }
    induction ys as [|gy ys IH]; intros grid; [done|].
    cbn [foldl]. now rewrite Hrow.
  - exists (fun _ _ => false). intros grid obj k. f_equal.
    unfold scanObject. destruct (skipped obj); [done|]. cbn zeta.
    generalize (counters (gridY (worldToGrid mapInfo
      (minX (shapeBounds cos sin (shape obj)))
      (minY (shapeBounds cos sin (shape obj)))))
      (gridY (worldToGrid mapInfo
      (maxX (shapeBounds cos sin (shape obj)))
      (maxY (shapeBounds cos sin (shape obj)))))) as ys.
    generalize (counters (gridX (worldToGrid mapInfo
      (minX (shapeBounds cos sin (shape obj)))
      (minY (shapeBounds cos sin (shape obj)))))
      (gridX (worldToGrid mapInfo
      (maxX (shapeBounds cos sin (shape obj)))
      (maxY (shapeBounds cos sin (shape obj)))))) as xs.
    intros xs ys. revert grid.
    assert (Hcell : forall gy g gx,
              rasterizeCell cos sin mapInfo (shape obj) gy g gx = g).
    { intros gy g gx. unfold rasterizeCell, setGridCell. rewrite Hgw.
      destruct (isPointInShape _ _ _ _); [|done].
      now destruct (_ && _). }
    assert (Hrow : forall gy g,
              foldl (rasterizeCell cos sin mapInfo (shape obj) gy) g xs = g).
    { intros gy g. revert g. induction xs as [|gx xs IH]; intros g; [done|].
      cbn [foldl]. now rewrite Hcell. }
    induction ys as [|gy ys IH]; intros grid; [done|].
    cbn [foldl]. now rewrite Hrow.
Qed.

Lemma forallb_Permutation {A : Type} (f : A -> bool) (l l' : list A) :
  l ≡ₚ l' -> forallb f l = forallb f l'.
Proof.
  induction 1 as [|a l l' _ IH|a b l|l l' l'' _ IH1 _ IH2]; cbn.
  - reflexivity.
  - now rewrite IH.
  - destruct (f a), (f b); reflexivity.
  - congruence.
Qed.

(** X28.  In binary64, for every map and every object list, the
    rasterizer ends in the same way on a permutation of the list: with
    the same grid, cell for cell, with a [RangeError] when the array
    cannot be allocated, or not followed when a loop counter of some
    object leaves the integers a double counts exactly. *)
Theorem double_rasterize_permutation (objects objects' : list MapObject) :
  objects ≡ₚ objects' ->
  rasterize cos sin mapInfo objects = rasterize cos sin mapInfo objects'.
Proof.
  intros Hperm. unfold rasterize.
  destruct (arrayLength _ _) as [n|]; [|done].
  rewrite !rasterizeObjects_outcome.
  rewrite (forallb_Permutation _ _ _ Hperm).
  destruct (forallb _ objects'); [|done]. f_equal.
  destruct scanObject_overwrites as [W HW].
  apply list_eq. intros k.
  rewrite !(foldl_overwrite _ W 0%Z HW).
  now rewrite (existsb_Permutation _ _ _ Hperm).
Qed.

(** X29.  In binary64, on a map whose grid has [gw] columns and [gh]
    rows, with a number of cells a typed array can hold, an object list
    of robots and landmarks only gives a grid of [gw * gh] cells that
    all hold 254; the shapes of these objects are not even looked at. *)
Theorem double_robots_and_landmarks (objects : list MapObject) (gw gh : Z) :
  Forall (fun obj => type obj = "robot"%string \/
                     type obj = "landmark"%string) objects ->
  gridWidth mapInfo = Int gw -> gridHeight mapInfo = Int gh ->
  (0 <= gw * gh <= 2 ^ 53 - 1)%Z ->
  rasterize cos sin mapInfo objects =
    Returns _ (replicate (Z.to_nat (gw * gh)) 254%Z).
Proof.
  intros Hall Hgw Hgh Hn. unfold rasterize, arrayLength. rewrite Hgw, Hgh.
  destruct (Z.ltb_spec (gw * gh) 0); [lia|].
  destruct (Z.ltb_spec (2 ^ 53 - 1) (gw * gh)); [lia|]. cbn [orb].
  unfold fill. rewrite length_replicate.
  change (toUint8 254) with 254%Z.
  generalize (replicate (Z.to_nat (gw * gh)) 254%Z) as grid.
  induction Hall as [|obj objects Hobj _ IH]; intros grid; [done|].
  cbn [foldlM].
  assert (rasterizeObject cos sin mapInfo grid obj = Some grid) as ->.
  { unfold rasterizeObject, skipped.
    destruct Hobj as [-> | ->]; reflexivity. }
  cbn [mbind option_bind]. apply IH.
Qed.


Lemma scanObject_length (grid : list Z) (obj : MapObject) :
  length (scanObject cos sin mapInfo grid obj) = length grid.
Proof.
  destruct scanObject_overwrites as [W HW].
  apply lookup_length_eq. intros k. rewrite HW.
  destruct (W obj k); [|done]. now rewrite fmap_is_Some.
Qed.

(** X30.  In binary64, on a map whose grid has [gw] columns and [gh]
    rows, a write at a cell outside [0, gw) x [0, gh) leaves the grid
    as it is.  The callback of an object never changes the length of
    the grid, wherever the box of its shape lies (when a loop counter
    leaves the integers a double counts exactly the call is not
    followed).  The rasterizer raises [RangeError] only for the number
    of cells, negative or above 2^53 - 1, whatever the objects. *)
Theorem double_out_of_range_writes (grid : list Z) (gx gy value : Z)
    (gw gh : Z) (obj : MapObject) (objects : list MapObject) :
  gridWidth mapInfo = Int gw -> gridHeight mapInfo = Int gh ->
  ~ (0 <= gx < gw /\ 0 <= gy < gh)%Z ->
  setGridCell mapInfo grid gx gy value = grid /\
  (rasterizeObject cos sin mapInfo grid obj = None \/
   exists grid', rasterizeObject cos sin mapInfo grid obj = Some grid' /\
                 length grid' = length grid) /\
  (rasterize cos sin mapInfo objects = RangeError _ <->
   (gw * gh < 0 \/ 2 ^ 53 - 1 < gw * gh)%Z).
Proof.
  intros Hgw Hgh Hout. split; [|split].
  - unfold setGridCell. rewrite Hgw, Hgh. cbn [ltInt].
    destruct (_ && _) eqn:Hin; [|done].
    rewrite !andb_true_iff, !Z.leb_le, !Z.ltb_lt in Hin. lia.
  - rewrite rasterizeObject_outcome.
    destruct (skipped obj || _); [right|now left].
    eexists. split; [reflexivity|]. apply scanObject_length.
  - unfold rasterize, arrayLength. rewrite Hgw, Hgh.
    destruct (Z.ltb_spec (gw * gh) 0); [cbn; split; [lia|done]|].
    destruct (Z.ltb_spec (2 ^ 53 - 1) (gw * gh)); [cbn; split; [lia|done]|].
    cbn [orb]. destruct (foldlM _ _ _); split; (discriminate || lia).
Qed.

End Outcome.

Lemma double_rasterize_permutation_witness :
  rasterize tableCos tableSin farMap [farDisc; farRobot] =
  rasterize tableCos tableSin farMap [farRobot; farDisc].
Proof.
  apply double_rasterize_permutation.
  change ([farDisc] ++ [farRobot] ≡ₚ [farRobot] ++ [farDisc]).
  apply Permutation_app_comm.
Defined.

Lemma double_robots_and_landmarks_witness :
  rasterize tableCos tableSin farMap [farRobot; farRobot] =
  Returns _ (replicate (Z.to_nat (4 * 1)) 254%Z).
Proof.
  apply double_robots_and_landmarks.
  - repeat constructor.
  - vm_compute. reflexivity.
  - vm_compute. reflexivity.
  - lia.
Defined.

Lemma double_out_of_range_writes_witness :
  setGridCell farMap [254; 254; 254; 254]%Z 4 0 0 = [254; 254; 254; 254]%Z.
Proof.
  refine (proj1 (double_out_of_range_writes tableCos tableSin farMap
                   [254; 254; 254; 254]%Z 4 0 0 4 1 farDisc [farDisc]
                   _ _ _)).
  - vm_compute. reflexivity.
  - vm_compute. reflexivity.
  - lia.
Defined.

End ScanFacts.

(** ** Writes outside the grid *)




(** ** The small scene, cell by cell *)

Lemma circle_far (dx dy r : R) :
  (0 <= r -> r * r < dx * dx + dy * dy ->
   bool_decide (sqrt (dx * dx + dy * dy) <= r) = false)%R.
Proof.
  intros Hr Hfar. apply bool_decide_eq_false. intros Hle.
  pose proof (sqrt_pos (dx * dx + dy * dy)).
  pose proof (sqrt_sqrt (dx * dx + dy * dy) ltac:(nra)). nra.
Qed.

Ltac decide_reals :=
  repeat match goal with
  | |- context [bool_decide (Rabs ?e <= ?c)%R] =>
      first
        [ rewrite (bool_decide_eq_true_2 (Rabs e <= c)%R)
            by (apply Rabs_le_iff; lra)
        | rewrite (bool_decide_eq_false_2 (Rabs e <= c)%R)
            by (rewrite Rabs_le_iff; lra) ]
  | |- context [bool_decide (sqrt (?a * ?a + ?b * ?b) <= ?r)%R] =>
      rewrite (circle_far a b r) by lra
  end.

Example demo_scene_grid :
  rasterize demoMap [demoWall; demoRobot; demoPillar] =
  Some [0; 254; 254; 254]%Z.
Proof.
  rewrite rasterize_is_reference;
    [|cbn; lra|rewrite demoMap_gridWidth; lia|rewrite demoMap_gridHeight; lia].
  f_equal. unfold referenceGrid.
  rewrite demoMap_gridWidth, demoMap_gridHeight.
  change (seqZ 0 2) with [0; 1]%Z. cbn.
  rewrite Ropp_0, cos_0, sin_0.
  decide_reals. reflexivity.
Qed.

(** ** Typed-array plumbing of the encoders *)

Lemma set_after_prefix (pre rest source : list Z) :
  (length source <= length rest)%nat ->
  set (pre ++ rest) source (length pre) =
  Some (pre ++ source ++ drop (length source) rest).
Proof.
  intros Hlen. unfold set.
  rewrite decide_True by (rewrite length_app; lia).
  rewrite take_app_length, drop_app_add'; done.
Qed.

Lemma encode_app (a b : string) : encode (a ++ b) = encode a ++ encode b.
Proof.
  unfold encode. induction a as [|c a IH]; cbn; [done|]. now rewrite IH.
Qed.

Lemma length_encode (s : string) : length (encode s) = String.length s.
Proof.
  unfold encode. rewrite length_fmap.
  induction s as [|c s IH]; cbn; [done|]. now rewrite IH.
Qed.

Lemma string_length_app (a b : string) :
  String.length (a ++ b) = (String.length a + String.length b)%nat.
Proof.
  induction a as [|c a IH]; cbn; [done|]. now rewrite IH.
Qed.

Lemma length_spaces (n : Z) : String.length (spaces n) = Z.to_nat n.
Proof.
  unfold spaces. induction (Z.to_nat n) as [|k IH]; cbn; [done|].
  now rewrite IH.
Qed.

Lemma toUint8_land (v : Z) : toUint8 (Z.land v 0xFF) = Z.land v 0xFF.
Proof.
  unfold toUint8. change 0xFF%Z with (Z.ones 8).
  rewrite Z.land_ones by lia. apply Z.mod_mod. lia.
Qed.

Lemma toUint8_byte (v : Z) : (0 <= v < 256)%Z -> toUint8 v = v.
Proof.
  intros Hv. now apply Z.mod_small.
Qed.

Lemma set_fill (pre source : list Z) (k offset : nat) :
  offset = length pre -> (length source <= k)%nat ->
  set (pre ++ replicate k 0%Z) source offset =
  Some ((pre ++ source) ++ replicate (k - length source) 0%Z).
Proof.
  intros -> Hlen. rewrite set_after_prefix by (rewrite length_replicate; lia).
  now rewrite drop_replicate, <- app_assoc.
Qed.

Lemma set_fill_start (source : list Z) (k : nat) :
  (length source <= k)%nat ->
  set (replicate k 0%Z) source 0 =
  Some (source ++ replicate (k - length source) 0%Z).
Proof.
  intros Hlen. now apply (set_fill [] source k 0).
Qed.

(** The container is the preamble followed by the data, for any data and
    any dimensions. *)
Lemma generateNPY_layout (grid : list Z) (width height : Z) :
  generateNPY grid width height = Some (npyPreamble width height ++ grid).
Proof.
  unfold generateNPY, npyPreamble, npyLengthField.
  set (header := encode (npyFinalHeader width height)).
  change (newUint8Array 2) with (Some [0; 0]%Z). cbn [mbind option_bind].
  change (store (store [0; 0]%Z 0 ?v0) 1 ?v1) with [toUint8 v0; toUint8 v1].
  rewrite !toUint8_land.
  set (b0 := Z.land (Z.of_nat (length header)) 255).
  set (b1 := Z.land (Z.shiftr (Z.of_nat (length header)) 8) 255).
  rewrite newUint8Array_Some by lia. rewrite Nat2Z.id. cbn [mbind option_bind].
  rewrite set_fill_start by (cbn; lia). cbn [mbind option_bind].
  rewrite set_fill by (cbn; lia). cbn [mbind option_bind].
  rewrite set_fill by (cbn; lia). cbn [mbind option_bind].
  rewrite set_fill by (rewrite ?length_app; cbn; lia). cbn [mbind option_bind].
  rewrite set_fill by (rewrite ?length_app; cbn; lia).
  f_equal. replace (_ - length grid)%nat with 0%nat by (cbn; lia).
  cbn [replicate]. rewrite app_nil_r, <- !app_assoc. reflexivity.
Qed.

(** A loop of stores at pairwise distinct indices of the array: each
    index holds the value stored there, the others keep theirs. *)
Lemma foldl_store {A : Type} (f : list Z -> A -> list Z)
    (idx val : A -> Z) (a : list Z) (l : list A) :
  (forall g i, f g i = store g (idx i) (val i)) ->
  (forall i, i ∈ l -> (0 <= idx i < Z.of_nat (length a))%Z) ->
  (forall i j, i ∈ l -> j ∈ l -> idx i = idx j -> i = j) ->
  length (foldl f a l) = length a /\
  (forall i, i ∈ l ->
     foldl f a l !! Z.to_nat (idx i) = Some (toUint8 (val i))) /\
  (forall k, (forall i, i ∈ l -> Z.to_nat (idx i) <> k) ->
     foldl f a l !! k = a !! k).
Proof.
  intros Hf. induction l as [|x l IH] using rev_ind; intros Hrange Hinj.
  - cbn. split; [done|]. split; [|done].
    intros i Hi. now apply elem_of_nil in Hi.
  - destruct IH as (Hlen & Hhit & Hmiss).
    { intros i Hi. apply Hrange, elem_of_app. now left. }
    { intros i j Hi Hj. apply Hinj; apply elem_of_app; now left. }
    assert (Hx : x ∈ l ++ [x]) by (apply elem_of_app; right; constructor).
    pose proof (Hrange x Hx) as Hxr.
    rewrite foldl_snoc, Hf. split; [|split].
    + now rewrite length_store.
    + intros i Hi. rewrite store_lookup by lia. case_bool_decide as Heq.
      * apply Z2Nat.inj in Heq; [|lia|pose proof (Hrange i Hi); lia].
        assert (i = x) as -> by (apply Hinj; done).
        destruct (lookup_lt_is_Some_2 (foldl f a l) (Z.to_nat (idx x)))
          as [w Hw]; [lia|].
        now rewrite Hw.
      * apply Hhit. apply elem_of_app in Hi as [Hi|Hi]; [done|].
        apply list_elem_of_singleton in Hi. now subst.
    + intros k Hk. rewrite store_lookup by lia.
      rewrite bool_decide_eq_false_2 by (apply Hk, Hx).
      apply Hmiss. intros i Hi. apply Hk, elem_of_app. now left.
Qed.

(** ** Planner flavor of the array *)

Lemma load_Some (a : list Z) (i : nat) : load a (Z.of_nat i) = a !! i.
Proof.
  unfold load. destruct (Z.ltb_spec (Z.of_nat i) 0); [lia|].
  now rewrite Nat2Z.id.
Qed.

Lemma plannerGrid_loop (grid : list Z) (n : nat) :
  length grid = n ->
  forRange 0 (Z.of_nat (length grid) - 1)
    (fun plannerGrid i =>
       if decide (load grid i = Some 0%Z) then store plannerGrid i 1
       else if decide (load grid i = Some 254%Z) then store plannerGrid i 0
       else store plannerGrid i 0)
    (replicate n 0%Z) =
  plannerValue <$> grid.
Proof.
  intros Hn. unfold forRange.
  replace (Z.of_nat (length grid) - 1 - 0 + 1)%Z with (Z.of_nat n) by lia.
  edestruct (foldl_store
    (fun plannerGrid i =>
       if decide (load grid i = Some 0%Z) then store plannerGrid i 1
       else if decide (load grid i = Some 254%Z) then store plannerGrid i 0
       else store plannerGrid i 0)
    (fun i => i)
    (fun i => if decide (load grid i = Some 0%Z) then 1%Z else 0%Z)
    (replicate n 0%Z) (seqZ 0 (Z.of_nat n))) as (Hlen & Hhit & _).
  { intros g i. repeat case_decide; reflexivity. }
  { intros i Hi. apply elem_of_seqZ in Hi. rewrite length_replicate. lia. }
  { done. }
  rewrite length_replicate in Hlen.
  apply (list_eq_same_length _ _ n); [now rewrite length_fmap|done|].
  intros k v v' Hk Hv Hv'.
  rewrite <- (Nat2Z.id k), Hhit in Hv by (apply elem_of_seqZ; lia).
  rewrite list_lookup_fmap in Hv'. rewrite load_Some in Hv.
  destruct (grid !! k) as [w|]; [|done]. cbn in Hv'.
  injection Hv as <-. injection Hv' as <-. unfold plannerValue.
  repeat case_decide; (reflexivity || congruence).
Qed.

Lemma generatePlannerNPY_layout (grid : list Z) (width height : Z) :
  (0 <= width)%Z -> (0 <= height)%Z ->
  length grid = Z.to_nat (width * height) ->
  generatePlannerNPY grid width height =
  Some (npyPreamble width height ++ (plannerValue <$> grid)).
Proof.
  intros Hw Hh Hlen.
  unfold generatePlannerNPY. rewrite newUint8Array_Some by nia.
  cbn [mbind option_bind].
  rewrite (plannerGrid_loop grid _ Hlen). apply generateNPY_layout.
Qed.

(** C7.  For a grid of [width * height] cells the planner array is the
    preamble followed by one byte per cell, in the order of the grid: the
    byte at flat index [i] of the data is 1 when cell [i] is 0 and 0
    when it is 254 or any other value. *)
Theorem planner_array_is_cellwise (grid : list Z) (width height : Z) :
  (0 <= width)%Z -> (0 <= height)%Z ->
  length grid = Z.to_nat (width * height) ->
  generatePlannerNPY grid width height =
    Some (npyPreamble width height ++ (plannerValue <$> grid)) /\
  (forall (i : nat) (v : Z),
     grid !! i = Some v ->
     (npyPreamble width height ++ (plannerValue <$> grid))
       !! (length (npyPreamble width height) + i)%nat =
     Some (if decide (v = 0%Z) then 1%Z else 0%Z)) /\
  plannerValue 0 = 1%Z /\ plannerValue 254 = 0%Z /\
  (forall v, v <> 0%Z -> plannerValue v = 0%Z).
Proof.
  intros Hw Hh Hlen. split; [|split; [|split; [|split]]].
  - now apply generatePlannerNPY_layout.
  - intros i v Hv. rewrite lookup_app_r by lia.
    replace (length (npyPreamble width height) + i -
             length (npyPreamble width height))%nat with i by lia.
    now rewrite list_lookup_fmap, Hv.
  - reflexivity.
  - reflexivity.
  - intros v Hv. unfold plannerValue. now rewrite decide_False.
Qed.

Lemma planner_array_is_cellwise_witness :
  generatePlannerNPY [0; 254; 205; 0]%Z 2 2 =
    Some (npyPreamble 2 2 ++ [1; 0; 0; 1]%Z).
Proof.
  apply (planner_array_is_cellwise [0; 254; 205; 0]%Z 2 2); [lia|lia|done].
Defined.

(** ** Printing of integers *)

Example numberToString_200 : numberToString 200 = "200"%string.
Proof. reflexivity. Qed.

Example numberToString_0 : numberToString 0 = "0"%string.
Proof. reflexivity. Qed.

Example numberToString_negative : numberToString (-17) = "-17"%string.
Proof. reflexivity. Qed.

Example numberToString_maxSafeInteger :
  numberToString maxSafeInteger = "9007199254740991"%string.
Proof. vm_compute. reflexivity. Qed.

Lemma digitChar_value (d : Z) :
  (0 <= d < 10)%Z -> Z.of_nat (nat_of_ascii (digitChar d)) = (48 + d)%Z.
Proof.
  intros Hd. unfold digitChar. rewrite nat_ascii_embedding by lia. lia.
Qed.

Lemma digitsOf_length (fuel : nat) (n : Z) (acc : string) (k : nat) :
  (0 <= n < 10 ^ Z.of_nat (S k))%Z ->
  (String.length acc + 1 <= String.length (digitsOf fuel n acc)
   <= String.length acc + S k)%nat.
Proof.
  revert n acc k. induction fuel as [|fuel IH]; intros n acc k Hn.
  - cbn. lia.
  - cbn [digitsOf]. destruct (Z.ltb_spec n 10) as [Hlt|Hge]; [cbn; lia|].
    destruct k as [|k]; [cbn in Hn; lia|].
    assert (0 <= n / 10 < 10 ^ Z.of_nat (S k))%Z as Hdiv.
    { split; [apply Z.div_pos; lia|].
      apply Z.div_lt_upper_bound; [lia|].
      rewrite <- Z.pow_succ_r by lia. rewrite <- Nat2Z.inj_succ. lia. }
    specialize (IH (n / 10)%Z (String (digitChar (n mod 10)) acc) k Hdiv).
    cbn [String.length] in IH. lia.
Qed.

Lemma numberToString_length (n : Z) :
  (- maxSafeInteger <= n <= maxSafeInteger)%Z ->
  (1 <= String.length (numberToString n) <= 17)%nat.
Proof.
  intros Hn. unfold numberToString, maxSafeInteger in *.
  destruct (Z.ltb_spec n 0).
  - pose proof (digitsOf_length (Z.to_nat (Z.log2 (- n))) (- n) "" 15) as Hlen.
    cbn [String.length] in Hlen. rewrite string_length_app. cbn [String.length].
    change (10 ^ Z.of_nat 16)%Z with 10000000000000000%Z in Hlen. lia.
  - pose proof (digitsOf_length (Z.to_nat (Z.log2 n)) n "" 15) as Hlen.
    cbn [String.length] in Hlen.
    change (10 ^ Z.of_nat 16)%Z with 10000000000000000%Z in Hlen. lia.
Qed.

(** ** Bytes and decimal numerals *)

Lemma asciiCode_nat (c : ascii) : Z.of_nat (nat_of_ascii c) = asciiCode c.
Proof.
  destruct c as [[] [] [] [] [] [] [] []]; vm_compute; reflexivity.
Qed.

(** On a text the encoder of the source gives the codes of the
    characters. *)
Lemma encode_asciiCodes (s : string) : encode s = asciiCodes s.
Proof.
  unfold encode. induction s as [|c s IH]; [done|].
  cbn [list_ascii_of_string asciiCodes fmap list_fmap].
  now rewrite asciiCode_nat, <- IH.
Qed.

Lemma asciiCodes_app (a b : string) :
  asciiCodes (a ++ b) = asciiCodes a ++ asciiCodes b.
Proof.
  now rewrite <- !encode_asciiCodes, encode_app.
Qed.

Lemma length_asciiCodes (s : string) : length (asciiCodes s) = String.length s.
Proof.
  now rewrite <- encode_asciiCodes, length_encode.
Qed.

Lemma asciiCodes_spaces (n : nat) :
  asciiCodes (spaces (Z.of_nat n)) = replicate n 32%Z.
Proof.
  unfold spaces. rewrite Nat2Z.id.
  induction n as [|n IH]; [done|]. cbn. now rewrite IH.
Qed.

Lemma digitsValue_snoc (digits : list Z) (b : Z) :
  digitsValue (digits ++ [b]) = (10 * digitsValue digits + (b - 48))%Z.
Proof.
  unfold digitsValue. now rewrite foldl_app.
Qed.

Lemma decimalOf_digit (n : Z) : (0 <= n < 10)%Z -> decimalOf n [(48 + n)%Z].
Proof.
  intros Hn. split; [done|]. split; [repeat constructor; lia|].
  split; [cbn; intros [= Hz]; f_equal; lia|]. unfold digitsValue. cbn. lia.
Qed.

(** With enough fuel [digitsOf] puts the decimal numeral of [n] in front
    of what was printed before. *)
Lemma digitsOf_decimal (fuel : nat) (n : Z) (acc : string) :
  (0 <= n < 2 ^ (Z.of_nat fuel + 1))%Z ->
  exists digits,
    asciiCodes (digitsOf fuel n acc) = digits ++ asciiCodes acc /\
    decimalOf n digits.
Proof.
  revert n acc. induction fuel as [|fuel IH]; intros n acc Hn.
  - change (2 ^ (Z.of_nat 0 + 1))%Z with 2%Z in Hn.
    exists [(48 + n)%Z]. cbn [digitsOf asciiCodes].
    rewrite <- asciiCode_nat, digitChar_value by (rewrite Z.mod_small; lia).
    rewrite Z.mod_small by lia. split; [done|]. apply decimalOf_digit. lia.
  - cbn [digitsOf]. destruct (Z.ltb_spec n 10) as [Hlt|Hge].
    + exists [(48 + n)%Z]. cbn [asciiCodes].
      rewrite <- asciiCode_nat, digitChar_value by (rewrite Z.mod_small; lia).
      rewrite Z.mod_small by lia. split; [done|]. apply decimalOf_digit. lia.
    + destruct (IH (n / 10)%Z (String (digitChar (n mod 10)) acc))
        as (digits & Hcodes & Hne & Hdigits & Hlead & Hvalue).
      { split; [apply Z.div_pos; lia|].
        apply Z.div_lt_upper_bound; [lia|].
        replace (Z.of_nat (S fuel) + 1)%Z with (Z.succ (Z.of_nat fuel + 1)) in Hn
          by lia.
        rewrite Z.pow_succ_r in Hn by lia. lia. }
      exists (digits ++ [(48 + n mod 10)%Z]).
      pose proof (Z.mod_pos_bound n 10 ltac:(lia)) as Hmod.
      pose proof (Z.div_mod n 10 ltac:(lia)) as Hdm.
      cbn [asciiCodes] in Hcodes.
      rewrite <- asciiCode_nat, digitChar_value in Hcodes by done.
      split; [rewrite Hcodes, <- app_assoc; reflexivity|].
      split; [intros Hnil; now apply app_eq_nil in Hnil as [_ ?]|].
      split; [apply Forall_app; split; [done|repeat constructor; lia]|].
      split.
      * destruct digits as [|d digits]; [done|]. cbn [head app].
        intros [= ->]. specialize (Hlead eq_refl). injection Hlead as ->.
        unfold digitsValue in Hvalue. cbn in Hvalue. lia.
      * rewrite digitsValue_snoc, Hvalue. lia.
Qed.

(** An integer that is not negative is printed as its decimal
    numeral. *)
Lemma numberToString_decimal (n : Z) :
  (0 <= n)%Z -> decimalOf n (asciiCodes (numberToString n)).
Proof.
  intros Hn. unfold numberToString. destruct (Z.ltb_spec n 0); [lia|].
  destruct (digitsOf_decimal (Z.to_nat (Z.log2 n)) n "") as (digits & Hd & Hdec).
  - split; [done|]. rewrite Z2Nat.id by apply Z.log2_nonneg.
    destruct (Z.eq_dec n 0%Z) as [->|Hne]; [done|].
    apply Z.log2_spec. lia.
  - rewrite Hd. cbn [asciiCodes]. now rewrite app_nil_r.
Qed.

Example decimalOf_200 : decimalOf 200 [50; 48; 48]%Z.
Proof.
  exact (numberToString_decimal 200 ltac:(lia)).
Qed.

(** ** Header of the array container *)

Section PrinterFacts.
Context {Number : Type}.
Variable toString : Number -> string.

(** The container is the magic string, the version, the two bytes of
    the length of the header, the header and the data, for any data and
    any two dimensions. *)
Lemma generateNPY_any_layout (grid : list Z) (width height : Number) :
  AnyNumber.generateNPY toString grid width height =
  Some (npyMagic ++ npyVersion ++
        [Z.land (Z.of_nat (String.length
                   (AnyNumber.npyFinalHeader toString width height))) 0xFF;
         Z.land (Z.shiftr (Z.of_nat (String.length
                   (AnyNumber.npyFinalHeader toString width height))) 8) 0xFF] ++
        asciiCodes (AnyNumber.npyFinalHeader toString width height) ++ grid).
Proof.
  unfold AnyNumber.generateNPY.
  rewrite <- (length_encode (AnyNumber.npyFinalHeader _ _ _)).
  rewrite <- encode_asciiCodes.
  set (header := encode (AnyNumber.npyFinalHeader toString width height)).
  change (newUint8Array 2) with (Some [0; 0]%Z). cbn [mbind option_bind].
  change (store (store [0; 0]%Z 0 ?v0) 1 ?v1) with [toUint8 v0; toUint8 v1].
  rewrite !toUint8_land.
  set (b0 := Z.land (Z.of_nat (length header)) 255).
  set (b1 := Z.land (Z.shiftr (Z.of_nat (length header)) 8) 255).
  rewrite newUint8Array_Some by lia. rewrite Nat2Z.id. cbn [mbind option_bind].
  rewrite set_fill_start by (cbn; lia). cbn [mbind option_bind].
  rewrite set_fill by (cbn; lia). cbn [mbind option_bind].
  rewrite set_fill by (cbn; lia). cbn [mbind option_bind].
  rewrite set_fill by (rewrite ?length_app; cbn; lia). cbn [mbind option_bind].
  rewrite set_fill by (rewrite ?length_app; cbn; lia).
  f_equal. replace (_ - length grid)%nat with 0%nat by (cbn; lia).
  cbn [replicate]. rewrite app_nil_r, <- !app_assoc. reflexivity.
Qed.

Lemma npyHeaderDict_length (width height : Number) :
  String.length (AnyNumber.npyHeaderDict toString width height) =
  (57 + String.length (toString height) +
   String.length (toString width))%nat.
Proof.
  unfold AnyNumber.npyHeaderDict. rewrite !string_length_app. cbn. lia.
Qed.

(** C6.  For every width and height that print in at most 60 characters
    together, as any two JavaScript numbers do (a number prints in at
    most 24), and for every data, the container is: the six bytes of
    the magic string [\x93NUMPY]; the version [01 00]; the length 118
    of the header as two bytes, the low byte first; the header, that
    is the text of the dictionary with the height and the width as
    they print, then spaces, [60] less the number of characters of the
    two dimensions, then a newline; and at once the data.  The bytes
    before the data are 128, twice 64. *)
Theorem npy_preamble_is_aligned (grid : list Z) (width height : Number) :
  (String.length (toString width) + String.length (toString height) <= 60)%nat ->
  let padding :=
    (60 - (String.length (toString width) +
           String.length (toString height)))%nat in
  let header :=
    asciiCodes "{'descr': '<u1', 'fortran_order': False, 'shape': (" ++
    asciiCodes (toString height) ++ [44; 32]%Z ++
    asciiCodes (toString width) ++ [41; 44; 32; 125]%Z ++
    replicate padding 32%Z ++ [10%Z] in
  let preamble :=
    [0x93; 0x4E; 0x55; 0x4D; 0x50; 0x59]%Z ++ [0x01; 0x00]%Z ++
    [118; 0]%Z ++ header in
  AnyNumber.generateNPY toString grid width height = Some (preamble ++ grid) /\
  (118 + 256 * 0)%Z = Z.of_nat (length header) /\
  length preamble = (2 * 64)%nat.
Proof.
  intros Hlen padding header preamble.
  pose proof (npyHeaderDict_length width height) as Ld.
  set (L := String.length (AnyNumber.npyHeaderDict toString width height)) in *.
  assert (Hp : AnyNumber.npyPaddingSize toString width height =
               (118 - Z.of_nat L)%Z).
  { unfold AnyNumber.npyPaddingSize. rewrite length_encode. fold L.
    rewrite (Z.rem_mod_nonneg (10 + Z.of_nat L) 64) by lia.
    replace ((10 + Z.of_nat L) mod 64)%Z with (Z.of_nat L - 54)%Z.
    - rewrite Z.rem_mod_nonneg by lia. rewrite Z.mod_small by lia. lia.
    - apply (Z.mod_unique_pos _ _ 1); lia. }
  assert (Hheader :
    AnyNumber.npyFinalHeader toString width height =
    (AnyNumber.npyHeaderDict toString width height ++
     spaces (Z.of_nat padding) ++ nl)%string).
  { unfold AnyNumber.npyFinalHeader. rewrite Hp.
    destruct (Z.ltb_spec 0 (118 - Z.of_nat L)); [|lia].
    do 3 f_equal. unfold padding. lia. }
  assert (Hcodes :
    asciiCodes (AnyNumber.npyFinalHeader toString width height) = header).
  { rewrite Hheader. unfold AnyNumber.npyHeaderDict, header.
    rewrite !asciiCodes_app, asciiCodes_spaces, <- !app_assoc. reflexivity. }
  assert (Hfinal :
    String.length (AnyNumber.npyFinalHeader toString width height) = 118%nat).
  { rewrite Hheader, !string_length_app, length_spaces. cbn [nl String.length].
    fold L. unfold padding. lia. }
  assert (Hlength : length header = 118%nat).
  { now rewrite <- Hcodes, length_asciiCodes. }
  split; [|split].
  - rewrite generateNPY_any_layout, Hfinal, Hcodes. unfold preamble.
    rewrite <- !app_assoc. reflexivity.
  - now rewrite Hlength.
  - unfold preamble. rewrite !length_app, Hlength. reflexivity.
Qed.

End PrinterFacts.

(** The encoder of the integer dimensions is the encoder above with the
    printer of integers. *)
Lemma generateNPY_integers (grid : list Z) (width height : Z) :
  generateNPY grid width height =
  AnyNumber.generateNPY numberToString grid width height.
Proof. reflexivity. Qed.

(** Two safe integers print in at most 34 characters. *)
Lemma safe_integers_print_short (width height : Z) :
  (- maxSafeInteger <= width <= maxSafeInteger)%Z ->
  (- maxSafeInteger <= height <= maxSafeInteger)%Z ->
  (String.length (numberToString width) +
   String.length (numberToString height) <= 60)%nat.
Proof.
  intros Hw Hh.
  pose proof (numberToString_length _ Hw). pose proof (numberToString_length _ Hh).
  lia.
Qed.

Lemma npy_preamble_is_aligned_witness :
  generateNPY [1; 0; 0; 0; 0; 0]%Z 3 2 =
  Some
    (([0x93; 0x4E; 0x55; 0x4D; 0x50; 0x59]%Z ++ [0x01; 0x00]%Z ++ [118; 0]%Z ++
      asciiCodes "{'descr': '<u1', 'fortran_order': False, 'shape': (" ++
      asciiCodes "2" ++ [44; 32]%Z ++ asciiCodes "3" ++ [41; 44; 32; 125]%Z ++
      replicate 58 32%Z ++ [10%Z]) ++
     [1; 0; 0; 0; 0; 0]%Z).
Proof.
  refine (proj1 (npy_preamble_is_aligned numberToString
                   [1; 0; 0; 0; 0; 0]%Z 3%Z 2%Z _)).
  vm_compute. lia.
Defined.

(** Two dimensions that do not print as integers, [1e+21] and [NaN]:
    the header is 118 bytes and the data start at byte 128. *)
Example npy_aligned_at_1e21 :
  take 10 <$> AnyNumber.generateNPY (fun text : string => text)
                [7%Z] "1e+21"%string "NaN"%string =
    Some [0x93; 0x4E; 0x55; 0x4D; 0x50; 0x59; 0x01; 0x00; 118; 0]%Z /\
  drop 128 <$> AnyNumber.generateNPY (fun text : string => text)
                 [7%Z] "1e+21"%string "NaN"%string = Some [7%Z].
Proof. vm_compute. split; reflexivity. Qed.

(** The bound is needed for a printer that is not that of numbers.
    Dimensions that print in 61 characters make the dictionary end on a
    multiple of 64; the code then adds the newline alone and the data
    start at byte 129. *)
Example npy_unaligned_beyond_60 :
  length <$> AnyNumber.generateNPY (fun n : nat => spaces (Z.of_nat n))
               [] 30%nat 31%nat = Some 129%nat.
Proof. vm_compute. reflexivity. Qed.

(** The header of a 200 by 200 array, as the source builds it. *)
Example npyFinalHeader_200 :
  npyFinalHeader 200 200 =
  ("{'descr': '<u1', 'fortran_order': False, 'shape': (200, 200), }" ++
   spaces 54 ++ nl)%string.
Proof. vm_compute. reflexivity. Qed.

(** ** Image encoder *)

(** Two nested loops run through the pairs of their indices. *)
Lemma nested_foldl_pairs {A : Type} (body : A -> Z -> Z -> A)
    (rows cols : list Z) (a : A) :
  foldl (fun a row => foldl (fun a col => body a row col) a cols) a rows =
  foldl (fun a rc => body a rc.1 rc.2) a
    (row ← rows; col ← cols; [(row, col)]).
Proof.
  revert a. induction rows as [|row rows IH]; intros a; [done|].
  cbn [foldl]. rewrite bind_cons, foldl_app, <- IH. f_equal.
  generalize a. clear.
  induction cols as [|col cols IHc]; intros a; [done|].
  cbn [foldl]. rewrite bind_cons, foldl_app. cbn. apply IHc.
Qed.

Lemma elem_of_pairs (rows cols : list Z) (rc : Z * Z) :
  rc ∈ (row ← rows; col ← cols; [(row, col)]) <->
  rc.1 ∈ rows /\ rc.2 ∈ cols.
Proof.
  rewrite list_elem_of_bind. split.
  - intros (row & Hin & Hrow). apply list_elem_of_bind in Hin as (col & Hin & Hcol).
    apply list_elem_of_singleton in Hin. now subst.
  - intros [Hrow Hcol]. exists rc.1. split; [|done].
    apply list_elem_of_bind. exists rc.2. split; [|done].
    apply list_elem_of_singleton. now destruct rc.
Qed.

Lemma flipRows_lookup (grid : list Z) (width height : Z) :
  (0 <= width)%Z -> (0 <= height)%Z ->
  length grid = Z.to_nat (width * height) ->
  isUint8Array grid ->
  forall r c : Z,
    (0 <= r < height)%Z -> (0 <= c < width)%Z ->
    flipRows grid width height (replicate (Z.to_nat (width * height)) 0%Z)
      !! Z.to_nat (r * width + c) =
    grid !! Z.to_nat ((height - 1 - r) * width + c).
Proof.
  intros Hw Hh Hlen Hbytes r c Hr Hc. unfold flipRows, forRange.
  replace (height - 1 - 0 + 1)%Z with height by lia.
  replace (width - 1 - 0 + 1)%Z with width by lia.
  rewrite (nested_foldl_pairs
    (fun pgmGrid row col =>
       store pgmGrid ((height - 1 - row) * width + col)
         (orZero (load grid (row * width + col))))).
  edestruct (foldl_store
    (fun pgmGrid (rc : Z * Z) =>
       store pgmGrid ((height - 1 - rc.1) * width + rc.2)
         (orZero (load grid (rc.1 * width + rc.2))))
    (fun rc : Z * Z => ((height - 1 - rc.1) * width + rc.2)%Z)
    (fun rc : Z * Z => orZero (load grid (rc.1 * width + rc.2)))
    (replicate (Z.to_nat (width * height)) 0%Z)
    (row ← seqZ 0 height; col ← seqZ 0 width; [(row, col)]))
    as (_ & Hhit & _).
  { done. }
  { intros rc Hrc. apply elem_of_pairs in Hrc as [Hrow Hcol].
    apply elem_of_seqZ in Hrow, Hcol. rewrite length_replicate. nia. }
  { intros [r1 c1] [r2 c2] Hrc Hrc' Heq.
    apply elem_of_pairs in Hrc as [Hr1 Hc1], Hrc' as [Hr2 Hc2].
    apply elem_of_seqZ in Hr1, Hc1, Hr2, Hc2. cbn in *.
    assert (r1 = r2) by nia. subst. f_equal. lia. }
  specialize (Hhit (height - 1 - r, c)%Z). cbn [fst snd] in Hhit.
  replace (height - 1 - (height - 1 - r))%Z with r in Hhit by lia.
  rewrite Hhit by (apply elem_of_pairs; cbn; split; apply elem_of_seqZ; lia).
  unfold load. destruct (Z.ltb_spec ((height - 1 - r) * width + c) 0); [nia|].
  destruct (lookup_lt_is_Some_2 grid (Z.to_nat ((height - 1 - r) * width + c)))
    as [v Hv]; [nia|].
  rewrite Hv. cbn. f_equal. apply toUint8_byte.
  unfold isUint8Array in Hbytes. rewrite Forall_lookup in Hbytes. eauto.
Qed.

Lemma flipRows_length (grid : list Z) (width height : Z) (pgmGrid : list Z) :
  length (flipRows grid width height pgmGrid) = length pgmGrid.
Proof.
  unfold flipRows, forRange.
  generalize (seqZ 0 (height - 1 - 0 + 1)) as rows.
  generalize (seqZ 0 (width - 1 - 0 + 1)) as cols.
  intros cols rows. revert pgmGrid.
  induction rows as [|row rows IH]; intros pgmGrid; [done|].
  cbn [foldl]. rewrite IH. clear IH. revert pgmGrid.
  induction cols as [|col cols IH]; intros pgmGrid; [done|].
  cbn [foldl]. rewrite IH. apply length_store.
Qed.

(** The image is the header followed by the flipped rows. *)
Lemma generatePGM_layout (grid : list Z) (width height : Z) :
  (0 <= width * height)%Z ->
  generatePGM grid width height =
  Some (encode (pgmHeader width height) ++
        flipRows grid width height
          (replicate (Z.to_nat (width * height)) 0%Z)).
Proof.
  intros Hn. unfold generatePGM. fold (pgmHeader width height).
  rewrite newUint8Array_Some by done. cbn [mbind option_bind].
  rewrite newUint8Array_Some by lia. rewrite Nat2Z.id. cbn [mbind option_bind].
  rewrite set_fill_start by lia. cbn [mbind option_bind].
  rewrite set_fill by lia. f_equal.
  match goal with |- context [replicate ?n _] =>
    replace n with 0%nat by lia end.
  cbn [replicate]. apply app_nil_r.
Qed.

(** The bytes of the image: the magic number and a newline, the numeral
    of the width, a space, the numeral of the height, a newline, [255]
    and a newline, then the flipped rows. *)
Lemma generatePGM_bytes (grid : list Z) (width height : Z) :
  (0 <= width)%Z -> (0 <= height)%Z ->
  generatePGM grid width height =
  Some ([80; 53; 10]%Z ++ asciiCodes (numberToString width) ++ [32%Z] ++
        asciiCodes (numberToString height) ++ [10; 50; 53; 53; 10]%Z ++
        flipRows grid width height
          (replicate (Z.to_nat (width * height)) 0%Z)).
Proof.
  intros Hw Hh. rewrite generatePGM_layout by nia. f_equal.
  unfold pgmHeader. rewrite encode_asciiCodes, !asciiCodes_app.
  rewrite <- !app_assoc. reflexivity.
Qed.

(** C5.  For a grid of [width] by [height] bytes, two safe integers that
    are not negative, the image is, byte for byte: [P5] and a newline
    (80, 53, 10); the decimal numeral of the width, a space (32), the
    decimal numeral of the height and a newline; [255] and a newline
    (50, 53, 53, 10); then [width * height] bytes, where the byte of row
    [r] from the top and column [c] is the cell of row [height - 1 - r]
    and column [c], unchanged. *)
Theorem pgm_is_vertical_flip (grid : list Z) (width height : Z) :
  (0 <= width <= maxSafeInteger)%Z -> (0 <= height <= maxSafeInteger)%Z ->
  length grid = Z.to_nat (width * height) ->
  isUint8Array grid ->
  exists widthDigits heightDigits pixels : list Z,
    generatePGM grid width height =
      Some ([80; 53; 10]%Z ++ widthDigits ++ [32%Z] ++ heightDigits ++
            [10; 50; 53; 53; 10]%Z ++ pixels) /\
    decimalOf width widthDigits /\
    decimalOf height heightDigits /\
    length pixels = Z.to_nat (width * height) /\
    forall r c : Z,
      (0 <= r < height)%Z -> (0 <= c < width)%Z ->
      pixels !! Z.to_nat (r * width + c) =
      grid !! Z.to_nat ((height - 1 - r) * width + c).
Proof.
  intros Hw Hh Hlen Hbytes.
  exists (asciiCodes (numberToString width)),
         (asciiCodes (numberToString height)),
         (flipRows grid width height
            (replicate (Z.to_nat (width * height)) 0%Z)).
  split; [apply generatePGM_bytes; lia|].
  split; [apply numberToString_decimal; lia|].
  split; [apply numberToString_decimal; lia|].
  split.
  - now rewrite flipRows_length, length_replicate.
  - apply flipRows_lookup; (done || lia).
Qed.

Lemma pgm_is_vertical_flip_witness :
  exists widthDigits heightDigits pixels : list Z,
    generatePGM [0; 254; 254; 254; 254; 254]%Z 3 2 =
      Some ([80; 53; 10]%Z ++ widthDigits ++ [32%Z] ++ heightDigits ++
            [10; 50; 53; 53; 10]%Z ++ pixels) /\
    decimalOf 3 widthDigits /\
    decimalOf 2 heightDigits /\
    length pixels = Z.to_nat (3 * 2) /\
    forall r c : Z,
      (0 <= r < 2)%Z -> (0 <= c < 3)%Z ->
      pixels !! Z.to_nat (r * 3 + c) =
      [0; 254; 254; 254; 254; 254]%Z !! Z.to_nat ((2 - 1 - r) * 3 + c).
Proof.
  apply pgm_is_vertical_flip;
    [unfold maxSafeInteger; lia|unfold maxSafeInteger; lia|reflexivity|].
  repeat constructor; lia.
Defined.

(** The image of a grid of three columns and two rows with one occupied
    cell, at index 0, byte for byte. *)
Example generatePGM_3x2 :
  generatePGM [0; 254; 254; 254; 254; 254]%Z 3 2 =
  Some [80; 53; 10; 51; 32; 50; 10; 50; 53; 53; 10;
        254; 254; 254; 0; 254; 254]%Z.
Proof. vm_compute. reflexivity. Qed.

(** A grid with one occupied cell, at index 0: the bottom-left cell goes
    to the last row of the image and the array keeps it first. *)
Example generatePGM_2x2 :
  generatePGM [0; 254; 254; 254]%Z 2 2 =
  Some (encode ("P5" ++ nl ++ "2 2" ++ nl ++ "255" ++ nl) ++
        [254; 254; 0; 254]%Z).
Proof. vm_compute. reflexivity. Qed.

Example pgmHeader_200 :
  pgmHeader 200 200 = ("P5" ++ nl ++ "200 200" ++ nl ++ "255" ++ nl)%string.
Proof. reflexivity. Qed.

Example generatePlannerNPY_2x2 :
  generatePlannerNPY [0; 254; 254; 254]%Z 2 2 =
  Some (npyPreamble 2 2 ++ [1; 0; 0; 0]%Z).
Proof. vm_compute. reflexivity. Qed.

(** The first ten bytes for a 200 by 200 array: magic, version and the
    header length 118 as [0x76 0x00]. *)
Example npyPreamble_200 :
  take 10 (npyPreamble 200 200) =
  [0x93; 0x4E; 0x55; 0x4D; 0x50; 0x59; 0x01; 0x00; 0x76; 0x00]%Z /\
  length (npyPreamble 200 200) = 128%nat.
Proof. vm_compute. split; reflexivity. Qed.

(** ** The exported function *)


(** * Further properties of the generator *)

(** ** The vertex list of a polygon *)

Section PolygonCycle.
Context {N : Type} `{Arith N}.

Lemma polygonLoop_xorb (px py : N) (vj : N * N) (vs : list (N * N))
    (inside : bool) :
  polygonLoop px py vj vs inside =
  xorb inside (polygonLoop px py vj vs false).
Proof.
  revert vj inside. induction vs as [|vi vs IH]; intros vj inside.
  - cbn. now rewrite xorb_false_r.
  - cbn [polygonLoop]. rewrite IH.
    rewrite (IH vi (if intersect px py vi vj then negb false else false)).
    destruct (intersect px py vi vj), inside,
      (polygonLoop px py vi vs false); reflexivity.
Qed.

Lemma polygonLoop_app (px py : N) (vj : N * N) (a b : list (N * N))
    (inside : bool) :
  polygonLoop px py vj (a ++ b) inside =
  polygonLoop px py (default vj (last a)) b (polygonLoop px py vj a inside).
Proof.
  revert vj inside. induction a as [|v a IH]; intros vj inside; [done|].
  cbn [app polygonLoop]. rewrite IH. f_equal.
  rewrite last_cons. now destruct (last a).
Qed.

Lemma inPolygon_app_comm (px py : N) (a b : list (N * N)) :
  inPolygon px py (a ++ b) = inPolygon px py (b ++ a).
Proof.
  destruct (last a) as [la|] eqn:Ha; cycle 1.
  { apply last_None in Ha as ->. now rewrite app_nil_r. }
  destruct (last b) as [lb|] eqn:Hb; cycle 1.
  { apply last_None in Hb as ->. now rewrite app_nil_r. }
  unfold inPolygon. rewrite !last_app, Ha, Hb, !polygonLoop_app, Ha, Hb.
  change (default lb (Some la)) with la. change (default la (Some lb)) with lb.
  rewrite (polygonLoop_xorb px py la b (polygonLoop px py lb a false)).
  rewrite (polygonLoop_xorb px py lb a (polygonLoop px py la b false)).
  apply xorb_comm.
Qed.

(** X4.  The loop gives the same answer from whichever vertex the list
    starts: the same edges are tested, each with the same operands, so
    this holds in binary64 as well as in exact arithmetic. *)
Theorem polygon_start_vertex_is_irrelevant (px py : N) (n : nat)
    (vertices : list (N * N)) :
  inPolygon px py (startAt n vertices) = inPolygon px py vertices.
Proof.
  unfold startAt. rewrite inPolygon_app_comm. now rewrite take_drop.
Qed.
End PolygonCycle.

(** ** Scenes as sets of objects *)

Lemma rasterizeObjects_fill_lookup (mapInfo : MapInfo)
    (objects : list MapObject) (grid : list Z) (k : nat) :
  (k < length grid)%nat ->
  foldl (rasterizeObject mapInfo) (fill grid 254) objects !! k =
  Some (if existsb (fun obj => marks mapInfo obj k) objects
        then 0%Z else 254%Z).
Proof.
  intros Hk. rewrite rasterizeObjects_lookup. unfold fill.
  rewrite lookup_replicate_2 by done.
  now destruct (existsb _ objects).
Qed.

(** X8.  The grid of a scene made of two lists of objects is the overlay of
    the grids of the two lists: a cell is occupied when it is occupied
    in either.  Adding objects to a scene never frees a cell. *)
Theorem rasterize_app_is_overlay (mapInfo : MapInfo)
    (objects objects' : list MapObject) :
  (0 < resolution mapInfo)%R ->
  rasterize mapInfo (objects ++ objects') =
  (grid ← rasterize mapInfo objects;
   grid' ← rasterize mapInfo objects';
   Some (overlay grid grid')).
Proof.
  intros _. unfold rasterize.
  destruct (newUint8Array _) as [grid0|]; [|done].
  cbn [mbind option_bind]. f_equal.
  apply (list_eq_same_length _ _ (length grid0)).
  - unfold overlay. rewrite length_zip_with, !rasterizeObjects_length.
    unfold fill. rewrite length_replicate. lia.
  - rewrite rasterizeObjects_length. unfold fill. apply length_replicate.
  - intros k v v' Hk Hv Hv'. unfold overlay in Hv'.
    rewrite lookup_zip_with in Hv'.
    rewrite rasterizeObjects_fill_lookup in Hv by done.
    rewrite !rasterizeObjects_fill_lookup in Hv' by done.
    cbn in Hv'. rewrite existsb_app in Hv.
    injection Hv as <-. injection Hv' as <-.
    now destruct (existsb _ objects), (existsb _ objects').
Qed.

Lemma rasterize_app_is_overlay_witness :
  rasterize demoMap ([demoWall] ++ [demoPillar; demoRobot]) =
  (grid ← rasterize demoMap [demoWall];
   grid' ← rasterize demoMap [demoPillar; demoRobot];
   Some (overlay grid grid')).
Proof.
  apply rasterize_app_is_overlay. cbn. lra.
Defined.

(** X9.  The grid depends on which objects the scene holds, not on how often
    or in which order the list names them. *)
Theorem rasterize_same_objects (mapInfo : MapInfo)
    (objects objects' : list MapObject) :
  (0 < resolution mapInfo)%R ->
  (forall obj, obj ∈ objects <-> obj ∈ objects') ->
  rasterize mapInfo objects = rasterize mapInfo objects'.
Proof.
  intros _ Hsame. unfold rasterize.
  destruct (newUint8Array _) as [grid0|]; [|done].
  cbn [mbind option_bind]. f_equal.
  apply (list_eq_same_length _ _ (length (fill grid0 254)));
    [apply rasterizeObjects_length..|].
  intros k v v' _ Hv Hv'. rewrite rasterizeObjects_lookup in Hv, Hv'.
  assert (Heq : existsb (fun obj => marks mapInfo obj k) objects =
                existsb (fun obj => marks mapInfo obj k) objects').
  { apply eq_true_iff_eq. rewrite !existsb_true_iff.
    split; intros (obj & Hin & Hm); exists obj; split; (done || now apply Hsame). }
  rewrite Heq in Hv. congruence.
Qed.

Lemma rasterize_same_objects_witness :
  rasterize demoMap [demoWall; demoPillar; demoWall] =
  rasterize demoMap [demoPillar; demoWall].
Proof.
  apply rasterize_same_objects; [cbn; lra|].
  intros obj. rewrite !elem_of_cons, !elem_of_nil. tauto.
Defined.




Lemma marks_skipped (mapInfo : MapInfo) (obj : MapObject) (k : nat) :
  skipped obj = true -> marks mapInfo obj k = false.
Proof.
  intros Hskip. unfold marks. now rewrite Hskip.
Qed.

(** X24.  Robots and landmarks can be taken out of a scene, wherever
    they stand in the list, without changing the grid: the grid of the
    objects that pass the test of line 75 is the grid of all of them. *)
Theorem rasterize_without_robots_and_landmarks (mapInfo : MapInfo)
    (objects : list MapObject) :
  (0 < resolution mapInfo)%R ->
  rasterize mapInfo (filter (fun obj => skipped obj = false) objects) =
  rasterize mapInfo objects.
Proof.
  intros _. unfold rasterize.
  destruct (newUint8Array _) as [grid0|]; [|done].
  cbn [mbind option_bind]. f_equal.
  apply (list_eq_same_length _ _ (length (fill grid0 254)));
    [apply rasterizeObjects_length..|].
  intros k v v' _ Hv Hv'. rewrite rasterizeObjects_lookup in Hv, Hv'.
  match type of Hv with context [existsb ?f ?l] =>
    assert (Heq : existsb f l =
                  existsb (fun obj => marks mapInfo obj k) objects)
  end.
  { apply eq_true_iff_eq. rewrite !existsb_true_iff. split.
    - intros (obj & Hin & Hm). apply list_elem_of_filter in Hin as [_ Hin].
      eauto.
    - intros (obj & Hin & Hm). exists obj. split; [|done].
      apply list_elem_of_filter. split; [|done].
      destruct (skipped obj) eqn:Hskip; [|done].
      now rewrite marks_skipped in Hm. }
  rewrite Heq in Hv. congruence.
Qed.

Lemma rasterize_without_robots_and_landmarks_witness :
  rasterize demoMap
    (filter (fun obj => skipped obj = false)
       [demoRobot; demoWall; demoLandmark]) =
  rasterize demoMap [demoRobot; demoWall; demoLandmark].
Proof.
  apply rasterize_without_robots_and_landmarks. cbn. lra.
Defined.

(** ** The exported artifacts together *)






(** ** Preview image *)

Lemma storeClamped_byte (a : list Z) (i v : Z) :
  (0 <= v < 256)%Z -> storeClamped a i v = store a i v.
Proof.
  intros Hv. unfold storeClamped, store, toUint8Clamped, toUint8.
  rewrite Z.mod_small by done.
  now replace (Z.max 0 (Z.min 255 v)) with v by lia.
Qed.

Lemma orZero_load_byte (grid : list Z) (i : Z) :
  isUint8Array grid -> (0 <= orZero (load grid i) < 256)%Z.
Proof.
  intros Hbytes. unfold load. destruct (i <? 0)%Z; [cbn; lia|].
  destruct (grid !! Z.to_nat i) as [v|] eqn:Hv; cbn; [|lia].
  unfold isUint8Array in Hbytes. rewrite Forall_lookup in Hbytes. eauto.
Qed.

Lemma foldl_ext_all {A B : Type} (f g : A -> B -> A) (l : list B) (a : A) :
  (forall a b, f a b = g a b) -> foldl f a l = foldl g a l.
Proof.
  intros Hfg. revert a. induction l as [|b l IH]; intros a; [done|].
  cbn. now rewrite Hfg, IH.
Qed.

Lemma previewPixel_stores (grid : list Z) (data : list Z) (i : Z) :
  isUint8Array grid ->
  previewPixel grid data i =
  foldl (fun data j =>
           store data (i * 4 + j)
             (if (j =? 3)%Z then 255%Z else orZero (load grid i)))
    data (seqZ 0 4).
Proof.
  intros Hbytes. unfold previewPixel.
  rewrite !storeClamped_byte by (lia || now apply orZero_load_byte).
  change (seqZ 0 4) with [0; 1; 2; 3]%Z. cbn [foldl Z.eqb].
  now rewrite Z.add_0_r.
Qed.

Lemma preview_loop (grid : list Z) (n : nat) :
  isUint8Array grid -> length grid = n ->
  forRange 0 (Z.of_nat (length grid) - 1) (previewPixel grid)
    (replicate (4 * n) 0%Z) =
  grid ≫= grayPixel.
Proof.
  intros Hbytes Hn. unfold forRange.
  replace (Z.of_nat (length grid) - 1 - 0 + 1)%Z with (Z.of_nat n) by lia.
  rewrite (foldl_ext_all _ _ _ _
             (fun data i => previewPixel_stores grid data i Hbytes)).
  rewrite (nested_foldl_pairs
    (fun data i j =>
       store data (i * 4 + j)
         (if (j =? 3)%Z then 255%Z else orZero (load grid i)))).
  edestruct (foldl_store
    (fun data (rc : Z * Z) =>
       store data (rc.1 * 4 + rc.2)
         (if (rc.2 =? 3)%Z then 255%Z else orZero (load grid rc.1)))
    (fun rc : Z * Z => (rc.1 * 4 + rc.2)%Z)
    (fun rc : Z * Z =>
       if (rc.2 =? 3)%Z then 255%Z else orZero (load grid rc.1))
    (replicate (4 * n) 0%Z)
    (row ← seqZ 0 (Z.of_nat n); col ← seqZ 0 4; [(row, col)]))
    as (Hlen & Hhit & _).
  { done. }
  { intros rc Hrc. apply elem_of_pairs in Hrc as [Hrow Hcol].
    apply elem_of_seqZ in Hrow, Hcol. rewrite length_replicate. lia. }
  { intros [r1 c1] [r2 c2] Hrc Hrc' Heq.
    apply elem_of_pairs in Hrc as [Hr1 Hc1], Hrc' as [Hr2 Hc2].
    apply elem_of_seqZ in Hr1, Hc1, Hr2, Hc2. cbn in *.
    f_equal; lia. }
  rewrite length_replicate in Hlen.
  apply (list_eq_same_length _ _ (4 * n));
    [rewrite (bind_length_same grayPixel 4) by done; lia|done|].
  intros k v v' Hk Hv Hv'.
  pose proof (Nat.div_mod_eq k 4) as Hdiv.
  pose proof (Nat.mod_upper_bound k 4 ltac:(lia)) as Hmod.
  destruct (lookup_lt_is_Some_2 grid (k / 4)) as [a Ha]; [lia|].
  specialize (Hhit (Z.of_nat (k / 4), Z.of_nat (k mod 4))).
  cbn [fst snd] in Hhit.
  replace (Z.to_nat (Z.of_nat (k / 4) * 4 + Z.of_nat (k mod 4))) with k
    in Hhit by lia.
  rewrite Hhit in Hv
    by (apply elem_of_pairs; cbn [fst snd]; split; apply elem_of_seqZ; lia).
  rewrite load_Some, Ha in Hv. cbn [orZero default] in Hv.
  replace k with (k / 4 * 4 + k mod 4)%nat in Hv' by lia.
  rewrite (bind_lookup_same grayPixel 4 grid (k / 4) (k mod 4) a) in Hv'
    by done.
  assert (Ha' : (0 <= a < 256)%Z).
  { unfold isUint8Array in Hbytes. rewrite Forall_lookup in Hbytes. eauto. }
  destruct (k mod 4) as [|[|[|[|j]]]]; [..|lia]; cbn in Hv, Hv';
    injection Hv as <-; injection Hv' as <-;
    (reflexivity || now apply toUint8_byte).
Qed.

(** X15.  For a grid of [width * height] bytes the preview is an image of
    that width and height, one opaque gray pixel per cell in the order
    of the grid: red, green and blue are the value of the cell (0 black,
    254 nearly white) and alpha is 255. *)
Theorem preview_is_gray_pixels (grid : list Z) (width height : Z) :
  (0 < width < 4294967296)%Z -> (0 < height < 4294967296)%Z ->
  length grid = Z.to_nat (width * height) ->
  isUint8Array grid ->
  generateGridPreview grid width height =
  Some {| imageWidth := width; imageHeight := height;
          data := grid ≫= grayPixel |}.
Proof.
  intros Hw Hh Hlen Hbytes.
  unfold generateGridPreview, newImageData, toUnsignedLong.
  change (2 ^ 32)%Z with 4294967296%Z.
  rewrite !Z.mod_small by lia.
  destruct (Z.eqb_spec width 0); [lia|]. destruct (Z.eqb_spec height 0); [lia|].
  cbn [orb mbind option_bind imageWidth imageHeight data].
  do 2 f_equal.
  replace (Z.to_nat (4 * width * height))
    with (4 * Z.to_nat (width * height))%nat by nia.
  now apply preview_loop.
Qed.

Lemma preview_is_gray_pixels_witness :
  generateGridPreview [0; 254]%Z 2 1 =
  Some {| imageWidth := 2; imageHeight := 1;
          data := [0; 254]%Z ≫= grayPixel |}.
Proof.
  apply preview_is_gray_pixels; [lia|lia|reflexivity|].
  repeat constructor; lia.
Defined.

(** X16.  The preview is not flipped: its rows run from the bottom of the map
    upwards, so against the image file it is upside down.  The pixel of
    row [r] and column [c] of the preview has the gray value of the
    pixel of row [height - 1 - r] and column [c] of the image. *)
Theorem preview_is_image_upside_down (grid : list Z) (width height : Z) :
  (0 < width < 4294967296)%Z -> (0 < height < 4294967296)%Z ->
  length grid = Z.to_nat (width * height) ->
  isUint8Array grid ->
  exists (preview : ImageData) (pixels : list Z),
    generateGridPreview grid width height = Some preview /\
    generatePGM grid width height =
      Some (encode (pgmHeader width height) ++ pixels) /\
    forall r c : Z,
      (0 <= r < height)%Z -> (0 <= c < width)%Z ->
      exists v : Z,
        pixels !! Z.to_nat ((height - 1 - r) * width + c) = Some v /\
        take 4 (drop (Z.to_nat (r * width + c) * 4) (data preview)) =
        [v; v; v; 255%Z].
Proof.
  intros Hw Hh Hlen Hbytes.
  exists {| imageWidth := width; imageHeight := height;
            data := grid ≫= grayPixel |}.
  exists (flipRows grid width height
            (replicate (Z.to_nat (width * height)) 0%Z)).
  split; [now apply preview_is_gray_pixels|].
  split; [apply generatePGM_layout; nia|].
  intros r c Hr Hc. cbn [data].
  destruct (lookup_lt_is_Some_2 grid (Z.to_nat (r * width + c)))
    as [v Hv]; [nia|].
  exists v. split.
  - rewrite flipRows_lookup by (done || lia).
    now replace (height - 1 - (height - 1 - r))%Z with r by lia.
  - apply list_eq. intros j.
    destruct (decide (j < 4)%nat) as [Hj|Hj].
    + rewrite lookup_take_lt, lookup_drop by done.
      rewrite (bind_lookup_same grayPixel 4 grid _ j v) by done.
      reflexivity.
    + rewrite lookup_take_ge by lia. symmetry.
      apply lookup_ge_None_2. cbn. lia.
Qed.

Lemma preview_is_image_upside_down_witness :
  exists (preview : ImageData) (pixels : list Z),
    generateGridPreview [0; 254]%Z 1 2 = Some preview /\
    generatePGM [0; 254]%Z 1 2 = Some (encode (pgmHeader 1 2) ++ pixels) /\
    forall r c : Z,
      (0 <= r < 2)%Z -> (0 <= c < 1)%Z ->
      exists v : Z,
        pixels !! Z.to_nat ((2 - 1 - r) * 1 + c) = Some v /\
        take 4 (drop (Z.to_nat (r * 1 + c) * 4) (data preview)) =
        [v; v; v; 255%Z].
Proof.
  apply preview_is_image_upside_down; [lia|lia|reflexivity|].
  repeat constructor; lia.
Defined.

(** ** Reading the image back *)

Lemma flat_index (width height : Z) (k : nat) :
  (0 <= width)%Z -> (0 <= height)%Z ->
  (k < Z.to_nat (width * height))%nat ->
  exists r c : Z,
    (0 <= r < height)%Z /\ (0 <= c < width)%Z /\
    k = Z.to_nat (r * width + c).
Proof.
  intros Hw Hh Hk.
  assert (Hpos : (0 < width)%Z) by nia.
  exists (Z.of_nat k / width)%Z, (Z.of_nat k mod width)%Z.
  pose proof (Z.div_mod (Z.of_nat k) width ltac:(lia)) as Hdiv.
  pose proof (Z.mod_pos_bound (Z.of_nat k) width Hpos) as Hmod.
  assert (0 <= Z.of_nat k / width)%Z by (apply Z.div_pos; lia).
  repeat split; try lia.
  apply Z.div_lt_upper_bound; [done|]. nia.
Qed.

Lemma flipRows_isUint8Array (grid : list Z) (width height : Z) :
  (0 <= width)%Z -> (0 <= height)%Z ->
  length grid = Z.to_nat (width * height) ->
  isUint8Array grid ->
  isUint8Array
    (flipRows grid width height (replicate (Z.to_nat (width * height)) 0%Z)).
Proof.
  intros Hw Hh Hlen Hbytes. unfold isUint8Array. apply Forall_lookup.
  intros k v Hv.
  assert (Hk : (k < Z.to_nat (width * height))%nat).
  { apply lookup_lt_Some in Hv.
    now rewrite flipRows_length, length_replicate in Hv. }
  destruct (flat_index width height k Hw Hh Hk) as (r & c & Hr & Hc & ->).
  rewrite flipRows_lookup in Hv by done.
  unfold isUint8Array in Hbytes. rewrite Forall_lookup in Hbytes. eauto.
Qed.

(** X17.  Flipping the rows twice gives the grid back: the pixel block of the
    image holds the whole grid, and a reader that flips it again
    recovers every cell. *)
Theorem flipRows_involutive (grid : list Z) (width height : Z) :
  (0 <= width)%Z -> (0 <= height)%Z ->
  length grid = Z.to_nat (width * height) ->
  isUint8Array grid ->
  flipRows
    (flipRows grid width height (replicate (Z.to_nat (width * height)) 0%Z))
    width height (replicate (Z.to_nat (width * height)) 0%Z) =
  grid.
Proof.
  intros Hw Hh Hlen Hbytes.
  apply (list_eq_same_length _ _ (Z.to_nat (width * height)));
    [done|now rewrite flipRows_length, length_replicate|].
  intros k v v' Hk Hv Hv'.
  destruct (flat_index width height k Hw Hh Hk) as (r & c & Hr & Hc & ->).
  rewrite flipRows_lookup in Hv;
    [|done|done|now rewrite flipRows_length, length_replicate
     |now apply flipRows_isUint8Array|done|done].
  rewrite flipRows_lookup in Hv by (done || lia).
  replace (height - 1 - (height - 1 - r))%Z with r in Hv by lia.
  congruence.
Qed.

Lemma flipRows_involutive_witness :
  flipRows (flipRows [0; 254; 254; 254]%Z 2 2 (replicate (Z.to_nat (2 * 2)) 0%Z))
    2 2 (replicate (Z.to_nat (2 * 2)) 0%Z) =
  [0; 254; 254; 254]%Z.
Proof.
  apply flipRows_involutive; [lia|lia|reflexivity|].
  repeat constructor; lia.
Defined.




Lemma isDigit_not_blank (b : Z) : isDigit b = true -> isBlank b = false.
Proof.
  unfold isDigit, isBlank. rewrite andb_true_iff, !Z.leb_le. intros [H1 H2].
  repeat (rewrite (proj2 (Z.eqb_neq _ _)) by lia). reflexivity.
Qed.

Lemma readNumber_digits (digits rest : list Z) (sofar : option Z) :
  Forall (fun b => 48 <= b <= 57)%Z digits ->
  match rest with b :: _ => isDigit b = false | [] => True end ->
  digits <> [] ->
  readNumber (digits ++ rest) sofar =
  (Some (foldl (fun acc b => 10 * acc + (b - 48))%Z (default 0%Z sofar) digits),
   rest).
Proof.
  intros Hdigits Hrest. revert sofar.
  induction Hdigits as [|d digits Hd _ IH]; intros sofar Hne; [done|].
  cbn [app readNumber foldl].
  assert (isDigit d = true) as ->.
  { unfold isDigit. apply andb_true_iff. rewrite !Z.leb_le. lia. }
  destruct digits as [|d' digits].
  - cbn [app foldl]. destruct rest as [|b rest]; cbn [readNumber]; [done|].
    now rewrite Hrest.
  - rewrite IH by done. reflexivity.
Qed.

Lemma readField_numeral (blank : Z) (n : Z) (digits rest : list Z) :
  isBlank blank = true -> decimalOf n digits ->
  match rest with b :: _ => isDigit b = false | [] => True end ->
  readField (blank :: digits ++ rest) = Some (n, rest).
Proof.
  intros Hblank (Hne & Hdigits & _ & Hvalue) Hrest.
  cbn [readField]. rewrite Hblank.
  assert (skipBlanks (digits ++ rest) = digits ++ rest) as ->.
  { destruct digits as [|d digits]; [done|]. cbn [app skipBlanks].
    rewrite isDigit_not_blank; [done|].
    apply Forall_cons in Hdigits as [Hd _].
    unfold isDigit. apply andb_true_iff. rewrite !Z.leb_le. lia. }
  rewrite readNumber_digits by done. cbn [default].
  unfold digitsValue in Hvalue. now rewrite Hvalue.
Qed.

(** X18.  The image reads back.  For a width and a height that are safe
    integers and not negative, a reader of the image format finds in
    the bytes of the encoder the magic number, the width and the height
    the encoder was given, the maximal gray value 255, and a raster of
    [width * height] bytes. *)
Theorem pgm_header_reads_back (grid : list Z) (width height : Z) :
  (0 <= width <= maxSafeInteger)%Z -> (0 <= height <= maxSafeInteger)%Z ->
  exists pixels : list Z,
    (generatePGM grid width height ≫= readPGM) =
      Some {| columns := width; rows := height; maxGray := 255;
              raster := pixels |} /\
    length pixels = Z.to_nat (width * height).
Proof.
  intros Hw Hh.
  set (pixels := flipRows grid width height
                   (replicate (Z.to_nat (width * height)) 0%Z)).
  exists pixels.
  split; [|unfold pixels; now rewrite flipRows_length, length_replicate].
  rewrite generatePGM_bytes by lia. fold pixels. cbn [mbind option_bind].
  cbn [app readPGM].
  rewrite (readField_numeral 10 width);
    [|reflexivity|apply numberToString_decimal; lia|reflexivity].
  cbn [mbind option_bind].
  rewrite (readField_numeral 32 height _ (10 :: _)%Z);
    [|reflexivity|apply numberToString_decimal; lia|reflexivity].
  cbn [mbind option_bind].
  assert (Hmax : decimalOf 255 [50; 53; 53]%Z).
  { repeat split; [done|repeat constructor; lia|done]. }
  pose proof (readField_numeral 10 255 [50; 53; 53]%Z (10 :: pixels)%Z
                eq_refl Hmax eq_refl) as Hfield.
  cbn [app] in Hfield. rewrite Hfield. reflexivity.
Qed.

Lemma pgm_header_reads_back_witness :
  exists pixels : list Z,
    (generatePGM [0; 254; 254; 254; 254; 254]%Z 3 2 ≫= readPGM) =
      Some {| columns := 3; rows := 2; maxGray := 255; raster := pixels |} /\
    length pixels = Z.to_nat (3 * 2).
Proof.
  apply pgm_header_reads_back; unfold maxSafeInteger; lia.
Defined.

(** * The earlier text image against the occupancy grid *)



















(** * Zoom of the editor *)

Module WheelFacts.
Import PrimFloat Double.
#[local] Open Scope float_scope.

(** [Math.max(v, 10)] is 10, or [v] with [10 <= v]. *)
Lemma max_with_10 (v : float) :
  is_nan v = false ->
  Math.max [v; 10] = 10 \/ (Math.max [v; 10] = v /\ (10 <=? v) = true).
Proof.
  intros Hnan. unfold Math.max. cbn [foldl].
  assert (Hfirst : Math.max2 neg_infinity v = v \/
                   Math.max2 neg_infinity v = neg_infinity).
  { unfold Math.max2. rewrite Hnan.
    destruct (neg_infinity <? v); [now left|right].
    now rewrite andb_false_r. }
  destruct Hfirst as [-> | ->]; [|now left].
  unfold Math.max2. rewrite Hnan.
  destruct (v <? 10) eqn:Hten; [now left|right].
  split; [reflexivity|].
  exact (FloatFacts.ltb_false_leb v 10 Hnan eq_refl Hten).
Qed.

(** [Math.min(m, 300)] is 300, or [m] with [m <= 300]. *)
Lemma min_with_300 (m : float) :
  is_nan m = false ->
  Math.min [m; 300] = 300 \/ (Math.min [m; 300] = m /\ (m <=? 300) = true).
Proof.
  intros Hnan. unfold Math.min. cbn [foldl].
  assert (Hfirst : Math.min2 infinity m = m \/
                   Math.min2 infinity m = infinity).
  { unfold Math.min2. rewrite Hnan.
    destruct (m <? infinity); [now left|right].
    now rewrite andb_false_r. }
  destruct Hfirst as [-> | ->]; [|now left].
  unfold Math.min2. rewrite Hnan.
  destruct (300 <? m) eqn:Hmax; [now left|right].
  split; [reflexivity|].
  exact (FloatFacts.ltb_false_leb 300 m eq_refl Hnan Hmax).
Qed.

Lemma max_of_nan (v : float) : is_nan v = true -> Math.max [v; 10] = nan.
Proof.
  intros Hnan. unfold Math.max. cbn [foldl].
  unfold Math.max2 at 2. now rewrite Hnan, orb_true_r.
Qed.

(** X31.  Zooming with the wheel keeps the scale between 10 and 300
    pixels per metre: whatever the state and the event, when the
    product of the scale and the zoom factor is a number the new scale
    is at least 10 and at most 300, and when it is not a number neither
    is the new scale. *)
Theorem wheel_keeps_scale_in_range (origin : float * float) (offset : Point)
    (scale mouseX mouseY deltaY : float) :
  let zoomFactor :=
    if deltaY <? 0 then 0x1.2666666666666p+0 else 0x1.bd70a3d70a3d7p-1 in
  let newScale :=
    viewScale (handleCanvasWheel origin offset scale mouseX mouseY deltaY) in
  (is_nan (scale * zoomFactor) = true -> is_nan newScale = true) /\
  (is_nan (scale * zoomFactor) = false ->
   (10 <=? newScale) = true /\ (newScale <=? 300) = true).
Proof.
  cbn zeta. unfold handleCanvasWheel. cbn [viewScale].
  set (v := scale * (if deltaY <? 0 then _ else _)).
  split; intros Hnan.
  { now rewrite max_of_nan. }
  destruct (max_with_10 v Hnan) as [-> | [-> Hge]].
  - vm_compute. split; reflexivity.
  - destruct (min_with_300 v Hnan) as [-> | [-> Hle]].
    + vm_compute. split; reflexivity.
    + split; assumption.
Qed.

(** From a scale of 290 pixels per metre a zoom in stops at 300; from
    11 a zoom out stops at 10. *)
Example wheel_at_the_bounds :
  viewScale (handleCanvasWheel (0, 0) {| x := 100; y := 700 |} 290
               320 240 (-1)) = 300 /\
  viewScale (handleCanvasWheel (0, 0) {| x := 100; y := 700 |} 11
               320 240 1) = 10.
Proof. vm_compute. split; reflexivity. Qed.

End WheelFacts.

(** * Undo history *)

Section HistoryFacts.
Context {Objects : Type}.
Implicit Types (st : @Editor.State Objects) (o : Objects).

Lemma slice0_take (a : list Objects) (e : Z) :
  (0 <= e <= Z.of_nat (length a))%Z ->
  Editor.slice0 a e = take (Z.to_nat e) a.
Proof.
  intros He. unfold Editor.slice0.
  destruct (Z.ltb_spec e 0); [lia|]. now rewrite Z.min_l by lia.
Qed.

Lemma at_lookup (a : list Objects) (i : Z) :
  (0 <= i)%Z -> Editor.at_ a i = a !! Z.to_nat i.
Proof.
  intros Hi. unfold Editor.at_. destruct (Z.ltb_spec i 0); [lia|done].
Qed.

Lemma commit_unfold o st :
  Editor.wellFormed st ->
  Editor.commit o st =
  {| Editor.objects := o;
     Editor.history :=
       take (Z.to_nat (Editor.historyIndex st + 1)) (Editor.history st) ++ [o];
     Editor.historyIndex := Editor.historyIndex st + 1 |}.
Proof.
  intros Hwf. unfold Editor.wellFormed in Hwf.
  unfold Editor.commit, Editor.saveHistory.
  cbn [Editor.objects Editor.history Editor.historyIndex].
  rewrite slice0_take by lia. f_equal.
  rewrite length_app, length_take. cbn [length]. lia.
Qed.

Lemma consistent_wellFormed st : Editor.consistent st -> Editor.wellFormed st.
Proof.
  unfold Editor.consistent, Editor.wellFormed. intros [[Hnil Hidx]|Hidx]; lia.
Qed.

Lemma saveHistory_unfold o st :
  Editor.wellFormed st ->
  Editor.saveHistory o st =
  {| Editor.objects := Editor.objects st;
     Editor.history :=
       take (Z.to_nat (Editor.historyIndex st + 1)) (Editor.history st) ++ [o];
     Editor.historyIndex := Editor.historyIndex st + 1 |}.
Proof.
  intros Hwf. unfold Editor.wellFormed in Hwf. unfold Editor.saveHistory.
  rewrite slice0_take by lia. f_equal.
  rewrite length_app, length_take. cbn [length]. lia.
Qed.

Lemma saveHistory_consistent o st :
  Editor.wellFormed st ->
  Editor.consistent (Editor.saveHistory o st) /\
  (0 <= Editor.historyIndex (Editor.saveHistory o st))%Z /\
  Editor.at_ (Editor.history (Editor.saveHistory o st))
    (Editor.historyIndex (Editor.saveHistory o st)) = Some o.
Proof.
  intros Hwf. rewrite saveHistory_unfold by done.
  unfold Editor.wellFormed in Hwf. unfold Editor.consistent.
  cbn [Editor.history Editor.historyIndex].
  rewrite length_app, length_take. cbn [length].
  split; [right; lia|]. split; [lia|].
  rewrite at_lookup by lia.
  rewrite lookup_app_r by (rewrite length_take; lia).
  rewrite length_take.
  replace (_ - _)%nat with 0%nat by lia. reflexivity.
Qed.

(** X25.  The history stays consistent: either it is empty and the index
    is -1, or the index is that of one of its snapshots.  This holds in
    a fresh editor and after loading a file, and every handler keeps
    it: a change of the objects while dragging, a snapshot taken at the
    end of a drag or of an edit, undo and redo.  After a snapshot is
    taken the index is the position of that snapshot, and undo and redo
    never read outside the history, so they never throw. *)
Theorem history_stays_well_formed o st :
  Editor.consistent st ->
  Editor.consistent (Editor.initial o) /\
  Editor.consistent (Editor.importJSON o) /\
  Editor.consistent (Editor.setObjects o st) /\
  (Editor.consistent (Editor.saveHistory o st) /\
   (0 <= Editor.historyIndex (Editor.saveHistory o st))%Z /\
   Editor.at_ (Editor.history (Editor.saveHistory o st))
     (Editor.historyIndex (Editor.saveHistory o st)) = Some o) /\
  (Editor.consistent (Editor.endDrag st) /\
   Editor.at_ (Editor.history (Editor.endDrag st))
     (Editor.historyIndex (Editor.endDrag st)) = Some (Editor.objects st)) /\
  (Editor.consistent (Editor.commit o st) /\
   Editor.at_ (Editor.history (Editor.commit o st))
     (Editor.historyIndex (Editor.commit o st)) = Some o) /\
  (exists st', Editor.undo st = Some st' /\ Editor.consistent st') /\
  (exists st', Editor.redo st = Some st' /\ Editor.consistent st').
Proof.
  intros Hc. pose proof (consistent_wellFormed _ Hc) as Hwf.
  split; [left; done|].
  split; [right; cbn; lia|].
  split; [exact Hc|].
  split; [now apply saveHistory_consistent|].
  split.
  { unfold Editor.endDrag.
    destruct (saveHistory_consistent (Editor.objects st) st Hwf) as (? & _ & ?).
    done. }
  split.
  { unfold Editor.commit.
    destruct (saveHistory_consistent o
      {| Editor.objects := o; Editor.history := Editor.history st;
         Editor.historyIndex := Editor.historyIndex st |} Hwf) as (? & _ & ?).
    done. }
  unfold Editor.consistent in Hc.
  split.
  - unfold Editor.undo.
    destruct (Z.ltb_spec 0 (Editor.historyIndex st)); [|eauto].
    rewrite at_lookup by lia.
    destruct (lookup_lt_is_Some_2 (Editor.history st)
                (Z.to_nat (Editor.historyIndex st - 1))) as [snapshot Hs];
      [lia|].
    rewrite Hs. cbn [mbind option_bind]. eexists. split; [reflexivity|].
    right. cbn [Editor.history Editor.historyIndex]. lia.
  - unfold Editor.redo.
    destruct (Z.ltb_spec (Editor.historyIndex st)
                (Z.of_nat (length (Editor.history st)) - 1)); [|eauto].
    rewrite at_lookup by lia.
    destruct (lookup_lt_is_Some_2 (Editor.history st)
                (Z.to_nat (Editor.historyIndex st + 1))) as [snapshot Hs];
      [lia|].
    rewrite Hs. cbn [mbind option_bind]. eexists. split; [reflexivity|].
    right. cbn [Editor.history Editor.historyIndex]. lia.
Qed.

(** X26.  An edit can be undone and redone.  When the history holds a
    current snapshot, undo after an edit shows that snapshot again and
    keeps the edit in the history; redo then brings the edit back, and
    the state is the one right after the edit.  Right after an edit
    there is nothing to redo. *)
Theorem edit_undo_redo o st (previous : Objects) :
  Editor.wellFormed st ->
  Editor.history st !! Z.to_nat (Editor.historyIndex st) = Some previous ->
  (0 <= Editor.historyIndex st)%Z ->
  Editor.undo (Editor.commit o st) =
    Some {| Editor.objects := previous;
            Editor.history := Editor.history (Editor.commit o st);
            Editor.historyIndex := Editor.historyIndex st |} /\
  (Editor.undo (Editor.commit o st) ≫= Editor.redo) =
    Some (Editor.commit o st) /\
  Editor.redo (Editor.commit o st) = Some (Editor.commit o st).
Proof.
  intros Hwf Hprev Hidx. pose proof Hwf as Hrange.
  unfold Editor.wellFormed in Hrange.
  rewrite commit_unfold by done.
  set (kept := take (Z.to_nat (Editor.historyIndex st + 1)) (Editor.history st)).
  assert (Hkept : length kept = Z.to_nat (Editor.historyIndex st + 1)).
  { unfold kept. rewrite length_take. lia. }
  assert (Hundo :
    Editor.undo
      {| Editor.objects := o; Editor.history := kept ++ [o];
         Editor.historyIndex := Editor.historyIndex st + 1 |} =
    Some {| Editor.objects := previous; Editor.history := kept ++ [o];
            Editor.historyIndex := Editor.historyIndex st |}).
  { unfold Editor.undo. cbn [Editor.history Editor.historyIndex].
    destruct (Z.ltb_spec 0 (Editor.historyIndex st + 1)); [|lia].
    rewrite at_lookup by lia.
    replace (Editor.historyIndex st + 1 - 1)%Z
      with (Editor.historyIndex st) by lia.
    rewrite lookup_app_l by lia. unfold kept.
    rewrite lookup_take_lt by lia. rewrite Hprev.
    reflexivity. }
  split; [exact Hundo|]. split.
  - rewrite Hundo. cbn [mbind option_bind]. unfold Editor.redo.
    cbn [Editor.history Editor.historyIndex].
    rewrite length_app, Hkept. cbn [length].
    destruct (Z.ltb_spec (Editor.historyIndex st)
                (Z.of_nat (Z.to_nat (Editor.historyIndex st + 1) + 1) - 1));
      [|lia].
    rewrite at_lookup by lia.
    rewrite lookup_app_r by lia.
    replace (Z.to_nat (Editor.historyIndex st + 1) - length kept)%nat
      with 0%nat by lia.
    reflexivity.
  - unfold Editor.redo. cbn [Editor.history Editor.historyIndex].
    rewrite length_app, Hkept. cbn [length].
    destruct (Z.ltb_spec (Editor.historyIndex st + 1)
                (Z.of_nat (Z.to_nat (Editor.historyIndex st + 1) + 1) - 1));
      [lia|reflexivity].
Qed.

(** X27.  The first edit cannot be undone.  In a fresh editor the
    history is empty; the first edit stores its result as snapshot 0,
    and undo, which only goes back from an index above 0, leaves the
    objects as the edit made them. *)
Theorem first_edit_cannot_be_undone (empty : Objects) o :
  Editor.undo (Editor.commit o (Editor.initial empty)) =
    Some (Editor.commit o (Editor.initial empty)) /\
  Editor.objects (Editor.commit o (Editor.initial empty)) = o /\
  Editor.history (Editor.commit o (Editor.initial empty)) = [o] /\
  Editor.historyIndex (Editor.commit o (Editor.initial empty)) = 0%Z.
Proof.
  assert (Hwf : Editor.wellFormed (Editor.initial empty))
    by (unfold Editor.wellFormed; cbn; lia).
  rewrite (commit_unfold o _ Hwf). cbn. repeat split; reflexivity.
Qed.
End HistoryFacts.

(** The editor after two edits and an undo: two snapshots, the first
    one current. *)
Lemma history_stays_well_formed_witness :
  Editor.consistent
    (Editor.saveHistory [demoPillar]
       {| Editor.objects := [demoWall];
          Editor.history := [[demoWall]; [demoWall; demoPillar]];
          Editor.historyIndex := 0 |}) /\
  (exists st',
     Editor.redo
       {| Editor.objects := [demoWall];
          Editor.history := [[demoWall]; [demoWall; demoPillar]];
          Editor.historyIndex := 0 |} = Some st' /\
     Editor.consistent st').
Proof.
  pose proof (history_stays_well_formed [demoPillar]
                {| Editor.objects := [demoWall];
                   Editor.history := [[demoWall]; [demoWall; demoPillar]];
                   Editor.historyIndex := 0 |}) as Hkeep.
  destruct Hkeep as (_ & _ & _ & (Hsave & _) & _ & _ & _ & Hredo).
  - right. cbn. lia.
  - split; [exact Hsave|exact Hredo].
Defined.

Lemma edit_undo_redo_witness :
  Editor.undo
    (Editor.commit [demoWall; demoPillar]
       (Editor.commit [demoWall] (Editor.initial (@nil MapObject)))) =
    Some {| Editor.objects := [demoWall];
            Editor.history :=
              Editor.history
                (Editor.commit [demoWall; demoPillar]
                   (Editor.commit [demoWall] (Editor.initial (@nil MapObject))));
            Editor.historyIndex := 0 |} /\
  (Editor.undo
     (Editor.commit [demoWall; demoPillar]
        (Editor.commit [demoWall] (Editor.initial (@nil MapObject)))) ≫= Editor.redo) =
    Some (Editor.commit [demoWall; demoPillar]
            (Editor.commit [demoWall] (Editor.initial (@nil MapObject)))) /\
  Editor.redo
    (Editor.commit [demoWall; demoPillar]
       (Editor.commit [demoWall] (Editor.initial (@nil MapObject)))) =
    Some (Editor.commit [demoWall; demoPillar]
            (Editor.commit [demoWall] (Editor.initial (@nil MapObject)))).
Proof.
  apply (edit_undo_redo [demoWall; demoPillar]
           (Editor.commit [demoWall] (Editor.initial (@nil MapObject))) [demoWall]).
  all: first
    [ reflexivity
    | unfold Editor.wellFormed, Editor.commit, Editor.saveHistory,
        Editor.slice0; cbn; lia ].
Defined.
